(** * ScreenControl service: agent runtime

    Shallow embedding of the parts of the service that the specification
    makes statements about, followed by the proofs of those statements.

    - [Json]              the fragment of nlohmann::json the handlers use;
    - [Cints]             fixed-width integers, bytes and characters;
    - [Framing]           control_server/websocket_client.cpp: the frames
                          written by [sendWebSocketFrame] and [receiveLoop];
    - [WebSocketClient]   the same file: heartbeat acknowledgement, relay,
                          disconnect;
    - [CommandDispatcher] control_server/command_dispatcher.cpp;
    - [ShellTools]        tools/shell_tools.cpp: exec and the session table;
    - [Sha256]            the digest OpenSSL computes for [verifyChecksum];
    - [UpdateManager]     update/update_manager.cpp: check, download,
                          verify, apply;
    - [Rfc6455]           the frame layout of RFC 6455, which the frames of
                          the client are read back with.

    Conventions.  A byte is a [Z] in [0, 256).  What the operating system,
    the network or a random device hands to the code is an explicit argument
    of the function that consumes it.  Calls that leave the modelled code
    (callbacks, socket writes, process creation) are recorded, in order, in
    an event trace.  A C++ exception is the [Throw] result.  Where the two
    platforms differ the POSIX branch is the one embedded. *)

From Stdlib Require Import ZArith List String Ascii Bool Lia.
From stdpp Require Import base gmap strings list fin_maps sorting.
Import ListNotations.

(** ** Results of code that can throw *)

Inductive res (A : Type) : Type :=
| Ok (a : A)
| Throw (what : string).
Arguments Ok {A} a.
Arguments Throw {A} what.

(** Member functions run in a state-and-exception monad over the object's
    fields: what a function changed before it threw stays changed. *)
Definition ST (S A : Type) : Type := S -> res A * S.

Definition ret {S A} (a : A) : ST S A := fun s => (Ok a, s).

Definition bind {S A B} (m : ST S A) (k : A -> ST S B) : ST S B :=
  fun s => match m s with
           | (Ok a, s') => k a s'
           | (Throw w, s') => (Throw w, s')
           end.

Definition lift {S A} (r : res A) : ST S A := fun s => (r, s).
Definition modify {S} (f : S -> S) : ST S unit := fun s => (Ok tt, f s).
Definition gets {S A} (f : S -> A) : ST S A := fun s => (Ok (f s), s).
Definition when {S} (b : bool) (m : ST S unit) : ST S unit := if b then m else ret tt.

(** [try { m } catch (const std::exception&) { handler }] *)
Definition catch {S A} (m : ST S A) (handler : string -> ST S A) : ST S A :=
  fun s => match m s with
           | (Ok a, s') => (Ok a, s')
           | (Throw w, s') => handler w s'
           end.

Declare Scope st_scope.
Delimit Scope st_scope with st.
Notation "x <- m ;; k" := (bind m (fun x => k))
  (at level 62, m at next level, right associativity) : st_scope.
Notation "m ;;; k" := (bind m (fun _ => k))
  (at level 62, right associativity) : st_scope.

(** ** nlohmann::json, as far as the service uses it

    Numbers are integers here (the service reads no fractional field).
    An object is a key/value list; a key is looked up from the front. *)
Module Json.

#[local] Set Warnings "-register-all".

Inductive json : Type :=
| JNull
| JBool (b : bool)
| JNum (n : Z)
| JStr (s : string)
| JArr (items : list json)
| JObj (fields : list (string * json)).

Fixpoint assoc (key : string) (fields : list (string * json)) : option json :=
  match fields with
  | [] => None
  | (k, v) :: rest => if String.eqb k key then Some v else assoc key rest
  end.

(** [j.find(key)] on an object; [None] stands for [end()]. *)
Definition find (j : json) (key : string) : option json :=
  match j with
  | JObj fields => assoc key fields
  | _ => None
  end.

(** [j.contains(key)]: false on anything that is not an object. *)
Definition contains (j : json) (key : string) : bool :=
  match find j key with Some _ => true | None => false end.

Definition type_error_306 : string := "cannot use value() with this type".
Definition type_error_302 : string := "type must match the requested type".

(** [get<std::string>()], [get<bool>()], [get<int>()]. *)
Definition get_string (j : json) : res string :=
  match j with JStr s => Ok s | _ => Throw type_error_302 end.

Definition get_bool (j : json) : res bool :=
  match j with JBool b => Ok b | _ => Throw type_error_302 end.

Definition get_int (j : json) : res Z :=
  match j with
  | JNum n => Ok n
  | JBool b => Ok (if b then 1 else 0)%Z
  | _ => Throw type_error_302
  end.

(** [j.value(key, default)]: the member converted to the type of the
    default when the key is present, the default when it is absent, and
    type_error 306 when [j] is not an object. *)
Definition value {A} (get : json -> res A) (j : json) (key : string) (dflt : A) : res A :=
  match j with
  | JObj fields =>
      match assoc key fields with
      | Some v => get v
      | None => Ok dflt
      end
  | _ => Throw type_error_306
  end.

Definition value_string := value get_string.
Definition value_bool := value get_bool.
Definition value_int := value get_int.
Definition value_json := value (fun v : json => Ok v).

(** Nesting depth, the measure under which [tools/call] unfolds. *)
Fixpoint height (j : json) : nat :=
  match j with
  | JArr items => S (list_max (List.map height items))
  | JObj fields => S (list_max (List.map (fun kv => height (snd kv)) fields))
  | _ => O
  end.

End Json.
Export Json.

(** ** Fixed-width integers of the C++ code *)
Module Cints.
Local Open Scope Z_scope.

(** [static_cast<uint8_t>], [uint64_t] arithmetic, [static_cast<int>]. *)
Definition to_uint8 (z : Z) : Z := z mod 256.
Definition to_uint64 (z : Z) : Z := z mod 2 ^ 64.
Definition to_int (z : Z) : Z := (z + 2 ^ 31) mod 2 ^ 32 - 2 ^ 31.

(** A [char] of a [std::string] seen as [uint8_t], and back. *)
Definition byte_of_char (c : ascii) : Z := Z.of_N (N_of_ascii c).
Definition char_of_byte (b : Z) : ascii := ascii_of_N (Z.to_N (to_uint8 b)).

Fixpoint bytes_of_string (s : string) : list Z :=
  match s with
  | EmptyString => []
  | String c rest => byte_of_char c :: bytes_of_string rest
  end.

Definition string_length (s : string) : Z := Z.of_nat (String.length s).

(** Big-endian bytes of a value, [n] of them. *)
Fixpoint be_bytes (n : nat) (z : Z) : list Z :=
  match n with
  | O => []
  | S n' => Z.land (Z.shiftr z (8 * Z.of_nat n')) 0xFF :: be_bytes n' z
  end.

(** ["0123456789abcdef"[d]] *)
Definition hex_digit (d : Z) : ascii :=
  match d with
  | 0 => "0" | 1 => "1" | 2 => "2" | 3 => "3" | 4 => "4" | 5 => "5"
  | 6 => "6" | 7 => "7" | 8 => "8" | 9 => "9" | 10 => "a" | 11 => "b"
  | 12 => "c" | 13 => "d" | 14 => "e" | _ => "f"
  end%char.

Fixpoint hex_string (digits : list Z) : string :=
  match digits with
  | [] => EmptyString
  | d :: rest => String (hex_digit d) (hex_string rest)
  end.

End Cints.
Export Cints.

(** ** control_server/websocket_client.cpp: frames on the wire *)
Module Framing.
Local Open Scope Z_scope.

(** Four draws of [std::uniform_int_distribution<>(0, 255)]. *)
Record MaskDraw : Type := { draw0 : Z; draw1 : Z; draw2 : Z; draw3 : Z }.

(** [uint8_t mask[4]] after [mask[i] = static_cast<uint8_t>(dist(gen))]. *)
Definition mask_bytes (rnd : MaskDraw) : list Z :=
  [to_uint8 (draw0 rnd); to_uint8 (draw1 rnd); to_uint8 (draw2 rnd); to_uint8 (draw3 rnd)].

(** [mask[i % 4]] *)
Definition mask_at (rnd : MaskDraw) (i : nat) : Z :=
  nth (i mod 4)%nat (mask_bytes rnd) 0.

(** The bytes pushed after [0x81]: mask bit and payload length. *)
Definition lengthBytes (len : Z) : list Z :=
  if len <=? 125 then
    [Z.lor 0x80 (to_uint8 len)]
  else if len <=? 65535 then
    [Z.lor 0x80 126; Z.land (Z.shiftr len 8) 0xFF; Z.land len 0xFF]
  else
    Z.lor 0x80 127 ::
    List.map (fun i => Z.land (Z.shiftr len (i * 8)) 0xFF) [7; 6; 5; 4; 3; 2; 1; 0].

(** [payload[i] ^ mask[i % 4]] for [i] from the given index on. *)
Fixpoint maskedPayload (rnd : MaskDraw) (i : nat) (payload : string) : list Z :=
  match payload with
  | EmptyString => []
  | String c rest =>
      Z.lxor (byte_of_char c) (mask_at rnd i) :: maskedPayload rnd (S i) rest
  end.

(** The [frame] vector that [sendWebSocketFrame] hands to [sslWrite]. *)
Definition webSocketFrame (rnd : MaskDraw) (payload : string) : list Z :=
  0x81 :: lengthBytes (string_length payload)
       ++ mask_bytes rnd
       ++ maskedPayload rnd 0 payload.

(** [sendWebSocketFrame]: the frame written and [written > 0], where
    [written] is what [sslWrite] returned. *)
Definition sendWebSocketFrame (rnd : MaskDraw) (written : Z) (payload : string)
  : list Z * bool :=
  (webSocketFrame rnd payload, 0 <? written).

(** *** receiveLoop *)

Definition BUFFER_SIZE : Z := 16384.

(** What one call of [sslRead] into the 16384-byte buffer gives. *)
Inductive ReadResult : Type :=
| ReadBytes (data : list Z)   (* bytesRead = length data, at most 16384 *)
| ReadWantRetry               (* <= 0 with SSL_ERROR_WANT_READ / WANT_WRITE *)
| ReadSyscallEAGAIN           (* <= 0 with SSL_ERROR_SYSCALL and errno EAGAIN *)
| ReadClosed.                 (* <= 0, anything else *)

Inductive RecvEvent : Type :=
| EvHandleMessage (payload : string)
| EvSslWrite (bytes : list Z)
| EvConnectionCallback (connected : bool).

Inductive FrameOutcome : Type :=
| FrameContinue (evs : list RecvEvent)   (* falls through to the next read *)
| FrameBreak                             (* close frame: leaves the loop *)
| FrameFault.                            (* indexes past the end of [buffer] *)

Definition byteAt (buffer : list Z) (i : nat) : Z := nth i buffer 0.

(** The [for] loop that fills [payload]; [n] bytes are still to copy and
    [i] is the loop index. *)
Fixpoint readPayload (buffer : list Z) (headerLen maskOffset : nat) (masked : bool)
    (n i : nat) : string :=
  match n with
  | O => EmptyString
  | S n' =>
      let byte := byteAt buffer (headerLen + i) in
      let byte := if masked
                  then Z.lxor byte (byteAt buffer (maskOffset + i mod 4))
                  else byte in
      String (char_of_byte byte) (readPayload buffer headerLen maskOffset masked n' (S i))
  end.

(** The 64-bit length loop: [payloadLen = (payloadLen << 8) | buffer[2 + i]]. *)
Definition extendedLength64 (buffer : list Z) : Z :=
  fold_left (fun acc i => Z.lor (to_uint64 (Z.shiftl acc 8)) (byteAt buffer (2 + i)))
            (seq 0 8) 0.

(** Header fields as the loop computes them: [Some (payloadLen, headerLen)],
    or [None] where the loop says [continue] for lack of header bytes. *)
Definition frameHeader (buffer : list Z) (bytesRead : Z) : option (Z * Z) :=
  let payloadLen := Z.land (byteAt buffer 1) 0x7F in
  if payloadLen =? 126 then
    if bytesRead <? 4 then None
    else Some (Z.lor (Z.shiftl (byteAt buffer 2) 8) (byteAt buffer 3), 4)
  else if payloadLen =? 127 then
    if bytesRead <? 10 then None
    else Some (extendedLength64 buffer, 10)
  else Some (payloadLen, 2).

(** Body of one iteration after a successful read of [bytesRead] bytes;
    [rnd] is the masking key a pong would draw. *)
Definition parseFrame (buffer : list Z) (bytesRead : Z) (rnd : MaskDraw) : FrameOutcome :=
  if bytesRead <? 2 then FrameContinue []
  else
    let opcode := Z.land (byteAt buffer 0) 0x0F in
    let masked := negb (Z.land (byteAt buffer 1) 0x80 =? 0) in
    match frameHeader buffer bytesRead with
    | None => FrameContinue []
    | Some (payloadLen, maskOffset) =>
        let headerLen := if masked then maskOffset + 4 else maskOffset in
        if bytesRead <? to_int (to_uint64 (headerLen + payloadLen)) then FrameContinue []
        else if (0 <? payloadLen) && (BUFFER_SIZE <? headerLen + payloadLen) then FrameFault
        else
          let payload := readPayload buffer (Z.to_nat headerLen) (Z.to_nat maskOffset)
                                     masked (Z.to_nat payloadLen) 0 in
          if opcode =? 0x01 then FrameContinue [EvHandleMessage payload]
          else if opcode =? 0x08 then FrameBreak
          else if opcode =? 0x09 then
            FrameContinue [EvSslWrite (0x8A :: 0x80 :: mask_bytes rnd)]
          else FrameContinue []
    end.

(** [sslRead] stores the bytes it got at the front of [buffer]; the rest of
    the vector keeps what earlier reads left there. *)
Definition storeRead (buffer data : list Z) : list Z :=
  data ++ skipn (length data) buffer.

(** One passage through the [while] loop. *)
Record Iteration : Type := {
  it_running : bool;        (* m_running && m_connected at the loop head *)
  it_read : ReadResult;
  it_running_after : bool;  (* m_running when the read came back <= 0 *)
  it_rnd : MaskDraw
}.

Record LoopState : Type := {
  buffer : list Z;
  consecutiveErrors : Z;
  events : list RecvEvent
}.

Definition maxConsecutiveErrors : Z := 3.

Inductive LoopStep : Type :=
| StepContinue (st : LoopState)
| StepBreak (st : LoopState)
| StepFault (st : LoopState).

Definition loopIteration (it : Iteration) (st : LoopState) : LoopStep :=
  if negb (it_running it) then StepBreak st
  else
    match it_read it with
    | ReadBytes [] => StepBreak st        (* bytesRead = 0: the peer closed *)
    | ReadBytes data =>
        let buf := storeRead (buffer st) data in
        let st1 := {| buffer := buf; consecutiveErrors := 0; events := events st |} in
        match parseFrame buf (Z.of_nat (length data)) (it_rnd it) with
        | FrameContinue evs =>
            StepContinue {| buffer := buf; consecutiveErrors := 0;
                            events := events st ++ evs |}
        | FrameBreak => StepBreak st1
        | FrameFault => StepFault st1
        end
    | ReadWantRetry =>
        if negb (it_running_after it) then StepBreak st
        else StepContinue {| buffer := buffer st; consecutiveErrors := 0;
                             events := events st |}
    | ReadSyscallEAGAIN =>
        if negb (it_running_after it) then StepBreak st
        else
          let n := consecutiveErrors st + 1 in
          let st1 := {| buffer := buffer st; consecutiveErrors := n; events := events st |} in
          if n <? maxConsecutiveErrors then StepContinue st1 else StepBreak st1
    | ReadClosed => StepBreak st
    end.

(** After the loop: [m_connected = false] and the connection callback. *)
Definition loopExit (hasConnectionCallback : bool) (st : LoopState) : LoopState :=
  {| buffer := buffer st; consecutiveErrors := consecutiveErrors st;
     events := events st ++
               (if hasConnectionCallback then [EvConnectionCallback false] else []) |}.

Inductive LoopResult : Type :=
| LoopWaiting (st : LoopState)    (* still inside the loop, blocked in sslRead *)
| LoopFinished (st : LoopState)
| LoopFault (st : LoopState).

(** The loop run over the reads the socket delivers, in order. *)
Fixpoint receiveLoopFrom (hasConnectionCallback : bool) (its : list Iteration)
    (st : LoopState) : LoopResult :=
  match its with
  | [] => LoopWaiting st
  | it :: rest =>
      match loopIteration it st with
      | StepContinue st' => receiveLoopFrom hasConnectionCallback rest st'
      | StepBreak st' => LoopFinished (loopExit hasConnectionCallback st')
      | StepFault st' => LoopFault st'
      end
  end.

(** [std::vector<uint8_t> buffer(16384)]: zero-filled. *)
Definition initialLoopState : LoopState :=
  {| buffer := repeat 0 (Z.to_nat BUFFER_SIZE); consecutiveErrors := 0; events := [] |}.

Definition receiveLoop (hasConnectionCallback : bool) (its : list Iteration) : LoopResult :=
  receiveLoopFrom hasConnectionCallback its initialLoopState.

Definition loopEvents (r : LoopResult) : list RecvEvent :=
  match r with
  | LoopWaiting st | LoopFinished st | LoopFault st => events st
  end.

End Framing.
Export Framing.

(** ** control_server/websocket_client.cpp: protocol handlers *)
Module WebSocketClient.
Local Open Scope Z_scope.

(** A completion handler given to [relayCommand]: who it is, and whether a
    call of it throws. *)
Record RelayCallback : Type := { cb_id : nat; cb_throws : bool }.

Inductive ClientEvent : Type :=
| EvStatusCallback (agentId licenseStatus : string)
| EvHeartbeatCallback (updateFlag : Z)
| EvPermissionsCallback (masterMode fileTransfer localSettingsLocked : bool)
| EvConfigSave (defaultBrowser : string)
| EvRelayCallback (cb : nat) (result : json)
| EvSendMessage (message : json)           (* sendWebSocketFrame(message.dump()) *)
| EvConnection (connected : bool)
| EvJoinHeartbeatThread
| EvJoinReceiveThread
| EvSslDisconnect.

Record Client : Type := {
  m_socket : Z;
  m_connected : bool;
  m_running : bool;
  m_stopHeartbeat : bool;
  m_agentId : string;
  m_licenseStatus : string;
  m_masterModeEnabled : bool;
  m_fileTransferEnabled : bool;
  m_localSettingsLocked : bool;
  m_relayCallbacks : gmap string RelayCallback;
  m_statusCallback : bool;        (* is a callback registered? *)
  m_heartbeatCallback : bool;
  m_permissionsCallback : bool;
  m_connectionCallback : bool;
  cfg_defaultBrowser : string;    (* Config::getInstance().getDefaultBrowser() *)
  trace : list ClientEvent
}.

(** Field updates. *)
Definition emit (e : ClientEvent) (c : Client) : Client :=
  {| m_socket := m_socket c; m_connected := m_connected c; m_running := m_running c;
     m_stopHeartbeat := m_stopHeartbeat c; m_agentId := m_agentId c;
     m_licenseStatus := m_licenseStatus c;
     m_masterModeEnabled := m_masterModeEnabled c;
     m_fileTransferEnabled := m_fileTransferEnabled c;
     m_localSettingsLocked := m_localSettingsLocked c;
     m_relayCallbacks := m_relayCallbacks c;
     m_statusCallback := m_statusCallback c; m_heartbeatCallback := m_heartbeatCallback c;
     m_permissionsCallback := m_permissionsCallback c;
     m_connectionCallback := m_connectionCallback c;
     cfg_defaultBrowser := cfg_defaultBrowser c;
     trace := trace c ++ [e] |}.

Definition set_licenseStatus (s : string) (c : Client) : Client :=
  {| m_socket := m_socket c; m_connected := m_connected c; m_running := m_running c;
     m_stopHeartbeat := m_stopHeartbeat c; m_agentId := m_agentId c;
     m_licenseStatus := s;
     m_masterModeEnabled := m_masterModeEnabled c;
     m_fileTransferEnabled := m_fileTransferEnabled c;
     m_localSettingsLocked := m_localSettingsLocked c;
     m_relayCallbacks := m_relayCallbacks c;
     m_statusCallback := m_statusCallback c; m_heartbeatCallback := m_heartbeatCallback c;
     m_permissionsCallback := m_permissionsCallback c;
     m_connectionCallback := m_connectionCallback c;
     cfg_defaultBrowser := cfg_defaultBrowser c;
     trace := trace c |}.

Definition set_defaultBrowser (s : string) (c : Client) : Client :=
  {| m_socket := m_socket c; m_connected := m_connected c; m_running := m_running c;
     m_stopHeartbeat := m_stopHeartbeat c; m_agentId := m_agentId c;
     m_licenseStatus := m_licenseStatus c;
     m_masterModeEnabled := m_masterModeEnabled c;
     m_fileTransferEnabled := m_fileTransferEnabled c;
     m_localSettingsLocked := m_localSettingsLocked c;
     m_relayCallbacks := m_relayCallbacks c;
     m_statusCallback := m_statusCallback c; m_heartbeatCallback := m_heartbeatCallback c;
     m_permissionsCallback := m_permissionsCallback c;
     m_connectionCallback := m_connectionCallback c;
     cfg_defaultBrowser := s;
     trace := trace c |}.

Definition set_permissions (mm ft lsl : bool) (c : Client) : Client :=
  {| m_socket := m_socket c; m_connected := m_connected c; m_running := m_running c;
     m_stopHeartbeat := m_stopHeartbeat c; m_agentId := m_agentId c;
     m_licenseStatus := m_licenseStatus c;
     m_masterModeEnabled := mm;
     m_fileTransferEnabled := ft;
     m_localSettingsLocked := lsl;
     m_relayCallbacks := m_relayCallbacks c;
     m_statusCallback := m_statusCallback c; m_heartbeatCallback := m_heartbeatCallback c;
     m_permissionsCallback := m_permissionsCallback c;
     m_connectionCallback := m_connectionCallback c;
     cfg_defaultBrowser := cfg_defaultBrowser c;
     trace := trace c |}.

Definition set_relayCallbacks (m : gmap string RelayCallback) (c : Client) : Client :=
  {| m_socket := m_socket c; m_connected := m_connected c; m_running := m_running c;
     m_stopHeartbeat := m_stopHeartbeat c; m_agentId := m_agentId c;
     m_licenseStatus := m_licenseStatus c;
     m_masterModeEnabled := m_masterModeEnabled c;
     m_fileTransferEnabled := m_fileTransferEnabled c;
     m_localSettingsLocked := m_localSettingsLocked c;
     m_relayCallbacks := m;
     m_statusCallback := m_statusCallback c; m_heartbeatCallback := m_heartbeatCallback c;
     m_permissionsCallback := m_permissionsCallback c;
     m_connectionCallback := m_connectionCallback c;
     cfg_defaultBrowser := cfg_defaultBrowser c;
     trace := trace c |}.

(** [m_running = false; m_connected = false; m_stopHeartbeat = true] and the
    socket closed, as [disconnect] leaves them. *)
Definition set_disconnected (c : Client) : Client :=
  {| m_socket := -1; m_connected := false; m_running := false;
     m_stopHeartbeat := true; m_agentId := m_agentId c;
     m_licenseStatus := m_licenseStatus c;
     m_masterModeEnabled := m_masterModeEnabled c;
     m_fileTransferEnabled := m_fileTransferEnabled c;
     m_localSettingsLocked := m_localSettingsLocked c;
     m_relayCallbacks := m_relayCallbacks c;
     m_statusCallback := m_statusCallback c; m_heartbeatCallback := m_heartbeatCallback c;
     m_permissionsCallback := m_permissionsCallback c;
     m_connectionCallback := m_connectionCallback c;
     cfg_defaultBrowser := cfg_defaultBrowser c;
     trace := trace c |}.

Definition M : Type -> Type := ST Client.
Local Open Scope st_scope.

(** [handleHeartbeatAck], in the four parts it is written in. *)
Definition ackLicenseStatus (j : json) : M unit :=
  license <- lift (value_string j "licenseStatus" "unknown") ;;
  modify (set_licenseStatus license) ;;;
  hasStatus <- gets m_statusCallback ;;
  agentId <- gets m_agentId ;;
  when hasStatus (modify (emit (EvStatusCallback agentId license))).

Definition ackUpdateFlag (j : json) : M unit :=
  flagDefault <- lift (value_int j "updateFlag" 0) ;;
  updateFlag <- lift (value_int j "u" (to_int flagDefault)) ;;
  hasHeartbeat <- gets m_heartbeatCallback ;;
  when hasHeartbeat (modify (emit (EvHeartbeatCallback (to_int updateFlag)))).

Definition ackDefaultBrowser (j : json) : M unit :=
  match find j "defaultBrowser" with
  | Some b =>
      browser <- lift (get_string b) ;;
      current <- gets cfg_defaultBrowser ;;
      when (negb (String.eqb browser "") && negb (String.eqb current browser))
           (modify (set_defaultBrowser browser) ;;;
            modify (emit (EvConfigSave browser)))
  | None => ret tt
  end.

Definition ackPermissions (j : json) : M unit :=
  match find j "permissions" with
  | Some perms =>
      masterMode <- lift (value_bool perms "masterMode" false) ;;
      fileTransfer <- lift (value_bool perms "fileTransfer" false) ;;
      localSettingsLocked <- lift (value_bool perms "localSettingsLocked" false) ;;
      mm <- gets m_masterModeEnabled ;;
      ft <- gets m_fileTransferEnabled ;;
      lsl <- gets m_localSettingsLocked ;;
      when (negb (Bool.eqb masterMode mm) || negb (Bool.eqb fileTransfer ft)
            || negb (Bool.eqb localSettingsLocked lsl))
           (modify (set_permissions masterMode fileTransfer localSettingsLocked) ;;;
            hasPerm <- gets m_permissionsCallback ;;
            when hasPerm (modify (emit (EvPermissionsCallback masterMode fileTransfer
                                                               localSettingsLocked))))
  | None => ret tt
  end.

Definition handleHeartbeatAck (j : json) : M unit :=
  ackLicenseStatus j ;;;
  ackUpdateFlag j ;;;
  ackDefaultBrowser j ;;;
  ackPermissions j.

(** [relayCommand]; [digits] are the sixteen draws of
    [std::uniform_int_distribution<>(0, 15)]. *)
Definition relayRequestId (digits : list Z) : string :=
  String.append "relay_" (hex_string (firstn 16 digits)).

Definition relayCommand (digits : list Z) (targetAgentId method : string) (params : json)
    (callback : RelayCallback) : M unit :=
  let requestId := relayRequestId digits in
  callbacks <- gets m_relayCallbacks ;;
  modify (set_relayCallbacks (<[requestId := callback]> callbacks)) ;;;
  modify (emit (EvSendMessage (JObj [("type", JStr "relay"); ("id", JStr requestId);
                                     ("targetAgentId", JStr targetAgentId);
                                     ("method", JStr method); ("params", params)]))).

(** [handleRelayResponse] *)
Definition handleRelayResponse (j : json) : M unit :=
  requestId <- lift (value_string j "id" "") ;;
  callbacks <- gets m_relayCallbacks ;;
  match callbacks !! requestId with
  | Some cb =>
      result <- lift (value_json j "result" (JObj [])) ;;
      modify (emit (EvRelayCallback (cb_id cb) result)) ;;;
      (if cb_throws cb then lift (Throw "relay callback") else ret tt) ;;;
      modify (set_relayCallbacks (delete requestId callbacks))
  | None => ret tt
  end.

(** [disconnect] (POSIX branch) *)
Definition disconnect (c : Client) : Client :=
  if negb (m_connected c) && (m_socket c <? 0) then c
  else
    let c1 := emit EvJoinHeartbeatThread (set_disconnected c) in
    let c2 := emit EvSslDisconnect (emit EvJoinReceiveThread c1) in
    if m_connectionCallback c2 then emit (EvConnection false) c2 else c2.

(** [handleMessage] for the message types whose handlers are modelled here;
    the [catch] at its end turns a throw into a log line.  The branches left
    out (registered, request, error, ping, config) read and write neither
    the permissions nor [m_relayCallbacks]. *)
Definition handleMessage (j : json) : M unit :=
  catch (type <- lift (value_string j "type" "") ;;
         if String.eqb type "heartbeat_ack" then handleHeartbeatAck j
         else if String.eqb type "relay_response" then handleRelayResponse j
         else ret tt)
        (fun _ => ret tt).

End WebSocketClient.

(** ** control_server/command_dispatcher.cpp *)
Module CommandDispatcher.
Local Open Scope Z_scope.

(** Methods that require the GUI proxy (forwarded to the tray app). *)
Definition GUI_METHODS : list string :=
  ["screenshot"; "screenshot_app"; "screenshot_grid"; "desktop_screenshot"; "click";
   "click_absolute"; "click_relative"; "click_grid"; "mouse_click"; "doubleClick";
   "clickElement"; "moveMouse"; "mouse_move"; "scroll"; "scrollMouse"; "mouse_scroll";
   "drag"; "mouse_drag"; "typeText"; "keyboard_type"; "pressKey"; "keyboard_press";
   "keyboard_shortcut"; "getClickableElements"; "getUIElements"; "getMousePosition";
   "analyzeWithOCR"; "listApplications"; "focusApplication"; "launchApplication";
   "app_launch"; "closeApp"; "app_quit"; "window_list"; "window_focus"; "window_move";
   "window_resize"; "checkPermissions"; "wait"; "browser_listConnected";
   "browser_setDefaultBrowser"; "browser_getTabs"; "browser_getActiveTab";
   "browser_focusTab"; "browser_createTab"; "browser_closeTab"; "browser_getPageInfo";
   "browser_inspectCurrentPage"; "browser_getInteractiveElements";
   "browser_getPageContext"; "browser_clickElement"; "browser_fillElement";
   "browser_fillFormField"; "browser_fillWithFallback"; "browser_fillFormNative";
   "browser_scrollTo"; "browser_executeScript"; "browser_getFormData";
   "browser_setWatchMode"; "browser_getVisibleText"; "browser_searchVisibleText";
   "browser_getUIElements"; "browser_waitForSelector"; "browser_waitForPageLoad";
   "browser_selectOption"; "browser_isElementVisible"; "browser_getConsoleLogs";
   "browser_getNetworkRequests"; "browser_getLocalStorage"; "browser_getCookies";
   "browser_clickByText"; "browser_clickMultiple"; "browser_getFormStructure";
   "browser_answerQuestions"; "browser_getDropdownOptions";
   "browser_openDropdownNative"; "browser_listInteractiveElements";
   "browser_clickElementWithDebug"; "browser_findElementWithDebug";
   "browser_findTabByUrl"; "browser_navigate"; "browser_screenshot"; "browser_go_back";
   "browser_go_forward"; "browser_get_visible_html"; "browser_hover"; "browser_drag";
   "browser_press_key"; "browser_upload_file"; "browser_save_as_pdf"].

(** The handlers behind the dispatcher.  Their bodies live in other files
    (FilesystemTools, ShellTools, SystemTools, the platform's lock and
    unlock code), so a call of one is an event and its answer is looked up
    in the [Handlers] the dispatcher is run with. *)
Inductive LocalCall : Type :=
| CallFilesystemTool (tool : string)
| CallShellTool (tool : string)
| CallSystemTool (tool : string)
| CallMachineUnlock
| CallMachineLock
| CallMachineInfo
| CallToolsList
| CallSleep (ms : Z).

Inductive DispatchEvent : Type :=
| EvGuiProxy (method : string) (params : json)
| EvLocal (call : LocalCall) (params : json).

Record Handlers : Type := {
  m_guiProxy : option (string -> json -> res json);
  localHandler : LocalCall -> json -> res json
}.

Definition errorResponse (message : string) : json :=
  JObj [("error", JStr message)].

(** Code that records calls and may throw. *)
Definition D (A : Type) : Type := list DispatchEvent * res A.

Definition retD {A} (a : A) : D A := ([], Ok a).

Definition bindD {A B} (m : D A) (k : A -> D B) : D B :=
  match m with
  | (evs, Ok a) => let (evs', r) := k a in (evs ++ evs', r)
  | (evs, Throw w) => (evs, Throw w)
  end.

Definition liftD {A} (r : res A) : D A := ([], r).

Declare Scope dispatch_scope.
Notation "x <- m ;; k" := (bindD m (fun x => k))
  (at level 62, m at next level, right associativity) : dispatch_scope.
Local Open Scope dispatch_scope.

Definition callLocal (h : Handlers) (call : LocalCall) (params : json) : D json :=
  ([EvLocal call params], localHandler h call params).

Definition callGuiProxy (proxy : string -> json -> res json) (method : string)
    (params : json) : D json :=
  ([EvGuiProxy method params], proxy method params).

Definition isGuiMethod (method : string) : bool :=
  existsb (String.eqb method) GUI_METHODS.

Definition methodIs (method name : string) : bool := String.eqb method name.

(** The [try] block of [dispatch].  [recurse] is [dispatch] itself, for
    [tools/call]. *)
Definition dispatchTry (h : Handlers) (recurse : string -> json -> option (D json))
    (method : string) (params : json) : option (D json) :=
  if isGuiMethod method then
    match m_guiProxy h with
    | Some proxy => Some (callGuiProxy proxy method params)
    | None => Some (retD (errorResponse "GUI operations unavailable - tray app not connected"))
    end
  else if methodIs method "fs_list" || methodIs method "listDirectory" then
    Some (callLocal h (CallFilesystemTool "list") params)
  else if methodIs method "fs_read" || methodIs method "readFile" then
    Some (callLocal h (CallFilesystemTool "read") params)
  else if methodIs method "fs_read_range" then
    Some (callLocal h (CallFilesystemTool "read_range") params)
  else if methodIs method "fs_write" || methodIs method "writeFile" then
    Some (callLocal h (CallFilesystemTool "write") params)
  else if methodIs method "fs_delete" || methodIs method "deleteFile" then
    Some (callLocal h (CallFilesystemTool "delete") params)
  else if methodIs method "fs_move" || methodIs method "moveFile" then
    Some (callLocal h (CallFilesystemTool "move") params)
  else if methodIs method "fs_search" then
    Some (callLocal h (CallFilesystemTool "search") params)
  else if methodIs method "fs_grep" then
    Some (callLocal h (CallFilesystemTool "grep") params)
  else if methodIs method "fs_patch" then
    Some (callLocal h (CallFilesystemTool "patch") params)
  else if methodIs method "shell_exec" || methodIs method "executeCommand" then
    Some (callLocal h (CallShellTool "exec") params)
  else if methodIs method "shell_start_session" then
    Some (callLocal h (CallShellTool "start_session") params)
  else if methodIs method "shell_send_input" then
    Some (callLocal h (CallShellTool "send_input") params)
  else if methodIs method "shell_stop_session" then
    Some (callLocal h (CallShellTool "stop_session") params)
  else if methodIs method "shell_read_output" then
    Some (callLocal h (CallShellTool "read_output") params)
  else if methodIs method "terminal_start" then
    Some (shell <- liftD (value_string params "shell" "/bin/bash") ;;
          cwd <- liftD (value_string params "cwd" "") ;;
          result <- callLocal h (CallShellTool "start_session")
                      (JObj [("command", JStr shell); ("cwd", JStr cwd)]) ;;
          success <- liftD (value_bool result "success" false) ;;
          if success : bool then
            sessionId <- liftD (value_string result "session_id" "") ;;
            pid <- liftD (value_int result "pid" 0) ;;
            retD (JObj [("success", JBool true); ("sessionId", JStr sessionId);
                        ("pid", JNum (to_int pid))])
          else retD result)
  else if methodIs method "terminal_input" then
    Some (sessionId <- liftD (value_string params "sessionId" "") ;;
          data <- liftD (value_string params "data" "") ;;
          callLocal h (CallShellTool "send_input")
            (JObj [("session_id", JStr sessionId); ("input", JStr data)]))
  else if methodIs method "terminal_output" then
    Some (sessionId <- liftD (value_string params "sessionId" "") ;;
          result <- callLocal h (CallShellTool "read_output")
                      (JObj [("session_id", JStr sessionId)]) ;;
          success <- liftD (value_bool result "success" false) ;;
          if success : bool then
            output <- liftD (value_string result "stdout" "") ;;
            error <- liftD (value_string result "stderr" "") ;;
            retD (JObj [("success", JBool true); ("sessionId", JStr sessionId);
                        ("data", JStr (String.append output error))])
          else retD result)
  else if methodIs method "terminal_stop" then
    Some (sessionId <- liftD (value_string params "sessionId" "") ;;
          callLocal h (CallShellTool "stop_session")
            (JObj [("session_id", JStr sessionId)]))
  else if methodIs method "terminal_resize" then
    Some (retD (JObj [("success", JBool true)]))
  else if methodIs method "system_info" then
    Some (callLocal h (CallSystemTool "info") params)
  else if methodIs method "clipboard_read" then
    Some (callLocal h (CallSystemTool "clipboard_read") params)
  else if methodIs method "clipboard_write" then
    Some (callLocal h (CallSystemTool "clipboard_write") params)
  else if methodIs method "machine_unlock" || methodIs method "unlockMachine" then
    Some (callLocal h CallMachineUnlock params)
  else if methodIs method "machine_lock" || methodIs method "lockMachine" then
    Some (callLocal h CallMachineLock params)
  else if methodIs method "machine_info" || methodIs method "getMachineInfo" then
    Some (callLocal h CallMachineInfo params)
  else if methodIs method "wait" then
    Some (ms <- liftD (value_int params "milliseconds" 0) ;;
          let ms := to_int ms in
          _ <- (if 0 <? ms then callLocal h (CallSleep ms) params else retD JNull) ;;
          retD (JObj [("success", JBool true); ("waited_ms", JNum ms)]))
  else if methodIs method "tools/list" then
    Some (callLocal h CallToolsList params)
  else if methodIs method "tools/call" then
    match value_string params "name" "" with
    | Throw w => Some (liftD (Throw w))
    | Ok toolName =>
        match value_json params "arguments" (JObj []) with
        | Throw w => Some (liftD (Throw w))
        | Ok arguments =>
            if String.eqb toolName "" then
              Some (retD (errorResponse "Missing 'name' in tools/call params"))
            else recurse toolName arguments
        end
    end
  else if methodIs method "health" || methodIs method "ping" then
    Some (retD (JObj [("status", JStr "ok"); ("service", JBool true)]))
  else
    Some (retD (errorResponse (String.append "Unknown method: " method))).

(** The [catch]: an exception becomes [errorResponse(e.what())]. *)
Definition catchAll (m : D json) : list DispatchEvent * json :=
  match m with
  | (evs, Ok r) => (evs, r)
  | (evs, Throw w) => (evs, errorResponse w)
  end.

(** [dispatch], unfolded at most [fuel] times; [None] when that is too few. *)
Fixpoint dispatchFuel (fuel : nat) (h : Handlers) (method : string) (params : json)
  : option (list DispatchEvent * json) :=
  match fuel with
  | O => None
  | S fuel' =>
      let recurse toolName arguments :=
        match dispatchFuel fuel' h toolName arguments with
        | Some (evs, r) => Some (evs, Ok r)
        | None => None
        end in
      match dispatchTry h recurse method params with
      | Some m => Some (catchAll m)
      | None => None
      end
  end.

(** A [tools/call] nests no deeper than its params, which bounds the
    unfolding (see [dispatch_returns] below). *)
Definition dispatch (h : Handlers) (method : string) (params : json)
  : option (list DispatchEvent * json) :=
  dispatchFuel (height params + 2) h method params.

End CommandDispatcher.

(** ** tools/shell_tools.cpp (POSIX branch) *)
Module ShellTools.
Local Open Scope Z_scope.

(** What [security::CommandFilter::checkCommand] answers.  The filter is
    declared in security.h; the functions below take it as an argument. *)
Record CheckResult : Type := { allowed : bool; reason : string }.

Record ShellSession : Type := {
  pid : Z;
  stdinFd : Z;
  stdoutFd : Z;
  stderrFd : Z;
  ptyMasterFd : Z;
  isPty : bool
}.

Inductive SysEvent : Type :=
| EvCheckCommand (command : string)
| EvLogBlockedCommand (command why : string)
| EvPipe
| EvFork (command cwd : string)       (* the child runs /bin/sh -c command *)
| EvForkpty (command cwd : string)    (* the child runs the interactive shell *)
| EvKill (target sig : Z)
| EvWaitpid (target : Z)
| EvClose (fd : Z)
| EvWrite (fd : Z) (data : string)
| EvRead (fd : Z).

Record World : Type := {
  g_sessions : gmap string ShellSession;
  exited : gset Z;                 (* children that have terminated *)
  syscalls : list SysEvent
}.

Definition sys (evs : list SysEvent) (w : World) : World :=
  {| g_sessions := g_sessions w; exited := exited w; syscalls := syscalls w ++ evs |}.

Definition set_sessions (m : gmap string ShellSession) (w : World) : World :=
  {| g_sessions := m; exited := exited w; syscalls := syscalls w |}.

Definition SIGHUP : Z := 1.
Definition SIGINT : Z := 2.
Definition SIGKILL : Z := 9.
Definition SIGTERM : Z := 15.

(** [CommandSecurity::isBlocked] *)
Definition isBlocked (checkCommand : string -> CheckResult) (command : string)
    (w : World) : bool * World :=
  let result := checkCommand command in
  if negb (allowed result)
  then (true, sys [EvCheckCommand command; EvLogBlockedCommand command (reason result)] w)
  else (false, sys [EvCheckCommand command] w).

(** [CommandSecurity::detectsExfiltration] *)
Definition detectsExfiltration (command : string) : bool := false.

(** [generateSessionId]; [digits] are sixteen draws from 0..15. *)
Definition generateSessionId (digits : list Z) : string :=
  String.append "session_" (hex_string (firstn 16 digits)).

(** [buffer[n] = '\0'; str += buffer]: the chunk up to its first NUL. *)
Fixpoint c_str (chunk : string) : string :=
  match chunk with
  | EmptyString => EmptyString
  | String c rest => if Ascii.eqb c zero then EmptyString else String c (c_str rest)
  end.

Definition appendChunks (acc : string) (chunks : list string) : string :=
  fold_left (fun s chunk => String.append s (c_str chunk)) chunks acc.

(** What one pass of the wait loop of [exec] sees: the chunks [read] got from
    the pipes that [select] reported, and, when [waitpid] returned the pid,
    the exit code ([None] unless WIFEXITED) with the chunks drained after. *)
Record Tick : Type := {
  tick_stdout : list string;
  tick_stderr : list string;
  tick_exit : option (option Z * list string * list string)
}.

Record ExecRun : Type := {
  pipes_ok : bool;        (* both pipe() calls succeeded *)
  fork_pid : Z;           (* fork() as seen by the parent *)
  ticks : nat -> Tick
}.

(** The [while (elapsed < timeout * 1000)] loop; [limit] is the product, an
    [int], and [n] bounds the passes.  Every pass adds 100 to [elapsed],
    whether or not [select] waited its 100 ms.  [elapsed] is an [int] too:
    the sum stays within [int] as long as [limit] is at most 2147483600, and
    [elapsed] is written here without a wrap. *)
Fixpoint waitLoop (ticks : nat -> Tick) (n k : nat) (elapsed limit : Z)
    (out err : string) : Z * option (option Z) * string * string :=
  match n with
  | O => (elapsed, None, out, err)
  | S n' =>
      if elapsed <? limit then
        let t := ticks k in
        let out := appendChunks out (tick_stdout t) in
        let err := appendChunks err (tick_stderr t) in
        match tick_exit t with
        | Some (code, restOut, restErr) =>
            (elapsed, Some code, appendChunks out restOut, appendChunks err restErr)
        | None => waitLoop ticks n' (S k) (elapsed + 100) limit out err
        end
      else (elapsed, None, out, err)
  end.

(** [ShellTools::exec] *)
Definition exec (checkCommand : string -> CheckResult) (run : ExecRun)
    (command cwd : string) (timeout : Z) (w : World) : json * World :=
  let (blocked, w) := isBlocked checkCommand command w in
  if blocked then
    (JObj [("success", JBool false); ("error", JStr "Command blocked by security policy")], w)
  else if detectsExfiltration command then
    (JObj [("success", JBool false);
           ("error", JStr "Command blocked: potential data exfiltration")], w)
  else if negb (pipes_ok run) then
    (JObj [("success", JBool false); ("error", JStr "Failed to create pipes")],
     sys [EvPipe] w)
  else if fork_pid run <? 0 then
    (JObj [("success", JBool false); ("error", JStr "Failed to fork")],
     sys [EvPipe; EvFork command cwd] w)
  else
    let w := sys [EvPipe; EvFork command cwd] w in
    let limit := to_int (timeout * 1000) in
    let '(elapsed, status, out, err) :=
      waitLoop (ticks run) (Z.to_nat (limit / 100 + 1)) 0 0 limit EmptyString EmptyString in
    if limit <=? elapsed then
      (JObj [("success", JBool false); ("error", JStr "Command timed out");
             ("timeout", JNum timeout); ("stdout", JStr out); ("stderr", JStr err)],
       sys [EvKill (fork_pid run) SIGKILL; EvWaitpid (fork_pid run)] w)
    else
      let exitCode := match status with Some (Some code) => code | _ => -1 end in
      (JObj [("success", JBool true); ("stdout", JStr out); ("stderr", JStr err);
             ("exit_code", JNum exitCode); ("command", JStr command)], w).

(** The shell the child of [startSession] execs, given which paths
    [access(path, X_OK)] accepts. *)
Definition findShell (executable : string -> bool) (paths : list string) : option string :=
  List.find executable paths.

Definition shellPath (executable : string -> bool) (command : string) : string :=
  let shell := if String.eqb command "" then "bash"%string else command in
  if String.eqb shell "/bin/bash" || String.eqb shell "bash" then
    default "/bin/bash"%string (findShell executable ["/bin/bash"; "/usr/bin/bash"]%string)
  else if String.eqb shell "/bin/sh" || String.eqb shell "sh" then
    default "/bin/sh"%string (findShell executable ["/bin/sh"; "/usr/bin/sh"]%string)
  else if String.eqb shell "/bin/zsh" || String.eqb shell "zsh" then
    default "/bin/zsh"%string (findShell executable ["/bin/zsh"; "/usr/bin/zsh"]%string)
  else shell.

(** What [forkpty] and the random device give to [startSession]. *)
Record StartRun : Type := {
  forkpty_pid : Z;        (* forkpty() as seen by the parent *)
  masterFd : Z;
  forkpty_error : string; (* strerror(errno) *)
  id_digits : list Z
}.

(** [ShellTools::startSession] *)
Definition startSession (run : StartRun) (command cwd : string) (w : World)
  : json * World :=
  let w := sys [EvForkpty command cwd] w in
  if forkpty_pid run <? 0 then
    (JObj [("success", JBool false);
           ("error", JStr (String.append "Failed to create PTY: " (forkpty_error run)))], w)
  else
    let sessionId := generateSessionId (id_digits run) in
    let session := {| pid := forkpty_pid run; stdinFd := -1; stdoutFd := -1;
                      stderrFd := -1; ptyMasterFd := masterFd run; isPty := true |} in
    (JObj [("success", JBool true); ("session_id", JStr sessionId);
           ("pid", JNum (to_int (forkpty_pid run)))],
     set_sessions (<[sessionId := session]> (g_sessions w)) w).

Definition sessionNotFound (sessionId : string) : json :=
  JObj [("success", JBool false);
        ("error", JStr (String.append "Session not found: " sessionId))].

(** [ShellTools::sendInput]; [written] and [errtext] are what [write] and
    [strerror(errno)] return. *)
Definition sendInput (written : Z) (errtext : string) (sessionId input : string)
    (w : World) : json * World :=
  match g_sessions w !! sessionId with
  | None => (sessionNotFound sessionId, w)
  | Some s =>
      let fd := if isPty s then ptyMasterFd s else stdinFd s in
      let w := sys [EvWrite fd input] w in
      if written <? 0 then
        (JObj [("success", JBool false);
               ("error", JStr (String.append "Failed to write to session: " errtext))], w)
      else
        (JObj [("success", JBool true); ("session_id", JStr sessionId);
               ("bytes_written", JNum (to_int written))], w)
  end.

Definition signalNumber (signal : string) : Z :=
  if String.eqb signal "KILL" || String.eqb signal "9" then SIGKILL
  else if String.eqb signal "INT" || String.eqb signal "2" then SIGINT
  else if String.eqb signal "HUP" || String.eqb signal "1" then SIGHUP
  else SIGTERM.

(** [ShellTools::stopSession] *)
Definition stopSession (sessionId signal : string) (w : World) : json * World :=
  match g_sessions w !! sessionId with
  | None => (sessionNotFound sessionId, w)
  | Some s =>
      let closes := if isPty s then [EvClose (ptyMasterFd s)]
                    else [EvClose (stdinFd s); EvClose (stdoutFd s); EvClose (stderrFd s)] in
      let w := sys ([EvKill (pid s) (signalNumber signal); EvWaitpid (pid s)] ++ closes) w in
      (JObj [("success", JBool true); ("session_id", JStr sessionId);
             ("signal", JStr signal)],
       set_sessions (delete sessionId (g_sessions w)) w)
  end.

(** [ShellTools::readOutput]; the chunks are what the non-blocking [read]s
    return before the first one that gives nothing. *)
Definition readOutput (chunksOut chunksErr : list string) (sessionId : string)
    (w : World) : json * World :=
  match g_sessions w !! sessionId with
  | None => (sessionNotFound sessionId, w)
  | Some s =>
      let '(out, err, evs) :=
        if isPty s then
          (appendChunks EmptyString chunksOut, EmptyString, [EvRead (ptyMasterFd s)])
        else
          (appendChunks EmptyString chunksOut, appendChunks EmptyString chunksErr,
           [EvRead (stdoutFd s); EvRead (stderrFd s)]) in
      (JObj [("success", JBool true); ("session_id", JStr sessionId);
             ("stdout", JStr out); ("stderr", JStr err)],
       sys evs w)
  end.

(** [ShellTools::listSessions] *)
Definition sessionEntry (kv : string * ShellSession) : json :=
  JObj [("session_id", JStr (fst kv)); ("pid", JNum (to_int (pid (snd kv))))].

(** [g_sessions] is a [std::map]: the loop visits its entries by ascending
    key, the keys compared as strings of bytes. *)
Definition idOrder (a b : string * ShellSession) : Prop :=
  String.leb (fst a) (fst b) = true.

#[global] Instance idOrder_dec : RelDecision idOrder :=
  fun a b => bool_eq_dec (String.leb (fst a) (fst b)) true.

Definition inOrder (sessions : gmap string ShellSession)
    : list (string * ShellSession) :=
  merge_sort idOrder (map_to_list sessions).

Definition listSessions (w : World) : json :=
  let sessions := List.map sessionEntry (inOrder (g_sessions w)) in
  JObj [("success", JBool true); ("sessions", JArr sessions);
        ("count", JNum (Z.of_nat (length sessions)))].

(** The ids a [listSessions] answer carries. *)
Definition entryId (entry : json) : list string :=
  match find entry "session_id" with
  | Some (JStr id) => [id]
  | _ => []
  end.

Definition listedIds (answer : json) : list string :=
  match find answer "sessions" with
  | Some (JArr entries) => flat_map entryId entries
  | _ => []
  end.

(** *** Histories of the session table *)

Inductive Op : Type :=
| OpStartSession (run : StartRun) (command cwd : string)
| OpSendInput (written : Z) (errtext : string) (sessionId input : string)
| OpReadOutput (chunksOut chunksErr : list string) (sessionId : string)
| OpStopSession (sessionId signal : string)
| OpListSessions
| OpExec (run : ExecRun) (command cwd : string) (timeout : Z)
| OpChildExit (child : Z).       (* a child process terminates on its own *)

Definition step (checkCommand : string -> CheckResult) (op : Op) (w : World)
  : json * World :=
  match op with
  | OpStartSession run command cwd => startSession run command cwd w
  | OpSendInput written errtext sessionId input => sendInput written errtext sessionId input w
  | OpReadOutput chunksOut chunksErr sessionId => readOutput chunksOut chunksErr sessionId w
  | OpStopSession sessionId signal => stopSession sessionId signal w
  | OpListSessions => (listSessions w, w)
  | OpExec run command cwd timeout => exec checkCommand run command cwd timeout w
  | OpChildExit child =>
      (JNull, {| g_sessions := g_sessions w; exited := {[child]} ∪ exited w;
                 syscalls := syscalls w |})
  end.

Fixpoint runOps (checkCommand : string -> CheckResult) (ops : list Op) (w : World) : World :=
  match ops with
  | [] => w
  | op :: rest => runOps checkCommand rest (snd (step checkCommand op w))
  end.

(** The id an operation mints, if it starts a session. *)
Definition mintedId (op : Op) : option string :=
  match op with
  | OpStartSession run _ _ =>
      if forkpty_pid run <? 0 then None else Some (generateSessionId (id_digits run))
  | _ => None
  end.

Definition initialWorld : World :=
  {| g_sessions := ∅; exited := ∅; syscalls := [] |}.

End ShellTools.

(** ** SHA-256 (FIPS 180-4), the digest behind [SHA256_Init/Update/Final]

    [verifyChecksum] feeds the file to OpenSSL in 8192-byte pieces; the
    digest of the pieces is the digest of the file, which is what is
    computed here. *)
Module Sha256.
Local Open Scope Z_scope.

Definition w32 (z : Z) : Z := z mod 2 ^ 32.
Definition add32 (a b : Z) : Z := w32 (a + b).
Definition rotr (n x : Z) : Z := Z.lor (Z.shiftr x n) (w32 (Z.shiftl x (32 - n))).
Definition not32 (x : Z) : Z := Z.lxor x 0xFFFFFFFF.

Definition Ch (x y z : Z) : Z := Z.lxor (Z.land x y) (Z.land (not32 x) z).
Definition Maj (x y z : Z) : Z :=
  Z.lxor (Z.lxor (Z.land x y) (Z.land x z)) (Z.land y z).
Definition Sigma0 (x : Z) : Z := Z.lxor (Z.lxor (rotr 2 x) (rotr 13 x)) (rotr 22 x).
Definition Sigma1 (x : Z) : Z := Z.lxor (Z.lxor (rotr 6 x) (rotr 11 x)) (rotr 25 x).
Definition sigma0 (x : Z) : Z := Z.lxor (Z.lxor (rotr 7 x) (rotr 18 x)) (Z.shiftr x 3).
Definition sigma1 (x : Z) : Z := Z.lxor (Z.lxor (rotr 17 x) (rotr 19 x)) (Z.shiftr x 10).

(** The round constants are the first 32 bits of the fractional parts of
    the cube roots of the first 64 primes, and the initial hash value the
    same of the square roots of the first 8 primes. *)
Definition is_prime (n : Z) : bool :=
  (1 <? n) && forallb (fun d => negb (n mod Z.of_nat d =? 0)) (seq 2 (Z.to_nat n - 2)).

Definition primes : list Z :=
  List.filter is_prime (List.map Z.of_nat (seq 2 310)).

(** Integer cube root, bit by bit from [2 ^ bits] down. *)
Fixpoint cube_root_from (bits : nat) (n r : Z) : Z :=
  match bits with
  | O => r
  | S bits' =>
      let r' := r + 2 ^ Z.of_nat bits' in
      cube_root_from bits' n (if r' * r' * r' <=? n then r' else r)
  end.

Definition K : list Z :=
  Eval vm_compute in
    List.map (fun p => w32 (cube_root_from 40 (p * 2 ^ 96) 0)) primes.

Definition H0 : list Z :=
  Eval vm_compute in
    List.map (fun p => w32 (Z.sqrt (p * 2 ^ 64))) (firstn 8 primes).

Definition pad (msg : list Z) : list Z :=
  let len := Z.of_nat (length msg) in
  msg ++ [0x80] ++ repeat 0 (Z.to_nat ((55 - len) mod 64)) ++ be_bytes 8 (8 * len).

Fixpoint words (n : nat) (bytes : list Z) : list Z :=
  match n, bytes with
  | S n', b0 :: b1 :: b2 :: b3 :: rest =>
      (((b0 * 256 + b1) * 256 + b2) * 256 + b3) :: words n' rest
  | _, _ => []
  end.

(** Message schedule: [n] more words appended to [ws]. *)
Fixpoint schedule (n : nat) (ws : list Z) : list Z :=
  match n with
  | O => ws
  | S n' =>
      let t := length ws in
      let w := add32 (add32 (sigma1 (nth (t - 2) ws 0)) (nth (t - 7) ws 0))
                     (add32 (sigma0 (nth (t - 15) ws 0)) (nth (t - 16) ws 0)) in
      schedule n' (ws ++ [w])
  end.

Definition round (st : list Z) (kw : Z * Z) : list Z :=
  match st with
  | [a; b; c; d; e; f; g; h] =>
      let t1 := add32 (add32 (add32 h (Sigma1 e)) (add32 (Ch e f g) (fst kw))) (snd kw) in
      let t2 := add32 (Sigma0 a) (Maj a b c) in
      [add32 t1 t2; a; b; c; add32 d t1; e; f; g]
  | _ => st
  end.

Definition compress (h : list Z) (block : list Z) : list Z :=
  let ws := schedule 48 (words 16 block) in
  let st := fold_left round (combine K ws) h in
  List.map (fun p => add32 (fst p) (snd p)) (combine h st).

Fixpoint blocks (n : nat) (h : list Z) (bytes : list Z) : list Z :=
  match n with
  | O => h
  | S n' => blocks n' (compress h (firstn 64 bytes)) (skipn 64 bytes)
  end.

(** The 32 bytes that [SHA256_Final] stores. *)
Definition digest (msg : list Z) : list Z :=
  let padded := pad msg in
  flat_map (be_bytes 4) (blocks (length padded / 64) H0 padded).

(** [ss << std::hex << std::setw(2) << std::setfill('0') << int(hash[i])] *)
Definition hex_of_bytes (bytes : list Z) : string :=
  hex_string (flat_map (fun b => [b / 16; b mod 16]) bytes).

End Sha256.

(** ** update/update_manager.cpp

    The worker thread that [checkForUpdate] and [downloadUpdate] start is
    run in line, at the point where it is started. *)
Module UpdateManager.
Local Open Scope Z_scope.
Local Open Scope st_scope.

Inductive UpdateStatus : Type :=
| IDLE | CHECKING | AVAILABLE | DOWNLOADING | DOWNLOADED | INSTALLING | FAILED | UP_TO_DATE.

Definition status_eqb (a b : UpdateStatus) : bool :=
  match a, b with
  | IDLE, IDLE | CHECKING, CHECKING | AVAILABLE, AVAILABLE | DOWNLOADING, DOWNLOADING
  | DOWNLOADED, DOWNLOADED | INSTALLING, INSTALLING | FAILED, FAILED
  | UP_TO_DATE, UP_TO_DATE => true
  | _, _ => false
  end.

Record UpdateConfig : Type := {
  serverUrl : string;
  machineId : string;
  currentVersion : string;
  platform : string;
  arch : string;
  channel : string;
  autoDownload : bool;
  autoInstall : bool;
  checkIntervalHeartbeats : Z;
  failedRetryTimeoutSeconds : Z
}.

Record UpdateInfo : Type := {
  version : string;
  info_channel : string;
  size : Z;
  sha256 : string;
  filename : string;
  releaseNotes : string;
  downloadUrl : string;
  isForced : bool
}.

Inductive UpdateEvent : Type :=
| EvStatus (status : UpdateStatus) (message : string)   (* m_statusCallback *)
| EvHttpGet (url : string)
| EvHttpDownload (url destPath : string)
| EvHashFile (filepath : string)      (* the file is opened and digested *)
| EvInstall (archive : string).       (* applyUpdate<Platform>() on m_downloadPath *)

Record Manager : Type := {
  m_config : UpdateConfig;
  m_heartbeatCount : Z;
  m_status : UpdateStatus;
  m_failedTimestamp : Z;
  m_updateInfo : UpdateInfo;
  m_downloadPath : string;
  m_cancelDownload : bool;
  m_statusCallback : bool;      (* is a callback registered? *)
  trace : list UpdateEvent
}.

Definition emit (e : UpdateEvent) (m : Manager) : Manager :=
  {| m_config := m_config m; m_heartbeatCount := m_heartbeatCount m;
     m_status := m_status m; m_failedTimestamp := m_failedTimestamp m;
     m_updateInfo := m_updateInfo m; m_downloadPath := m_downloadPath m;
     m_cancelDownload := m_cancelDownload m; m_statusCallback := m_statusCallback m;
     trace := trace m ++ [e] |}.

Definition set_status (s : UpdateStatus) (m : Manager) : Manager :=
  {| m_config := m_config m; m_heartbeatCount := m_heartbeatCount m;
     m_status := s; m_failedTimestamp := m_failedTimestamp m;
     m_updateInfo := m_updateInfo m; m_downloadPath := m_downloadPath m;
     m_cancelDownload := m_cancelDownload m; m_statusCallback := m_statusCallback m;
     trace := trace m |}.

Definition set_failedTimestamp (t : Z) (m : Manager) : Manager :=
  {| m_config := m_config m; m_heartbeatCount := m_heartbeatCount m;
     m_status := m_status m; m_failedTimestamp := t;
     m_updateInfo := m_updateInfo m; m_downloadPath := m_downloadPath m;
     m_cancelDownload := m_cancelDownload m; m_statusCallback := m_statusCallback m;
     trace := trace m |}.

Definition set_heartbeatCount (n : Z) (m : Manager) : Manager :=
  {| m_config := m_config m; m_heartbeatCount := n;
     m_status := m_status m; m_failedTimestamp := m_failedTimestamp m;
     m_updateInfo := m_updateInfo m; m_downloadPath := m_downloadPath m;
     m_cancelDownload := m_cancelDownload m; m_statusCallback := m_statusCallback m;
     trace := trace m |}.

Definition set_updateInfo (i : UpdateInfo) (m : Manager) : Manager :=
  {| m_config := m_config m; m_heartbeatCount := m_heartbeatCount m;
     m_status := m_status m; m_failedTimestamp := m_failedTimestamp m;
     m_updateInfo := i; m_downloadPath := m_downloadPath m;
     m_cancelDownload := m_cancelDownload m; m_statusCallback := m_statusCallback m;
     trace := trace m |}.

Definition set_downloadPath (p : string) (m : Manager) : Manager :=
  {| m_config := m_config m; m_heartbeatCount := m_heartbeatCount m;
     m_status := m_status m; m_failedTimestamp := m_failedTimestamp m;
     m_updateInfo := m_updateInfo m; m_downloadPath := p;
     m_cancelDownload := m_cancelDownload m; m_statusCallback := m_statusCallback m;
     trace := trace m |}.

Definition set_cancelDownload (b : bool) (m : Manager) : Manager :=
  {| m_config := m_config m; m_heartbeatCount := m_heartbeatCount m;
     m_status := m_status m; m_failedTimestamp := m_failedTimestamp m;
     m_updateInfo := m_updateInfo m; m_downloadPath := m_downloadPath m;
     m_cancelDownload := b; m_statusCallback := m_statusCallback m;
     trace := trace m |}.

(** [if (m_statusCallback) m_statusCallback(m_status, message);] *)
Definition notify (message : string) (m : Manager) : Manager :=
  if m_statusCallback m then emit (EvStatus (m_status m) message) m else m.

(** [m_status = FAILED; m_failedTimestamp = now;] and the callback. *)
Definition fail (now : Z) (message : string) (m : Manager) : Manager :=
  notify message (set_failedTimestamp now (set_status FAILED m)).

(** [verifyChecksum]: [file] is the content found at [filepath], [None]
    when the file cannot be opened.  The result comes with the events. *)
Definition verifyChecksum (filepath : string) (file : option (list Z))
    (expectedSha256 : string) : bool * list UpdateEvent :=
  if String.eqb expectedSha256 "" then (true, [])
  else
    match file with
    | None => (false, [])
    | Some content =>
        let calculatedHash := Sha256.hex_of_bytes (Sha256.digest content) in
        (String.eqb calculatedHash expectedSha256, [EvHashFile filepath])
    end.

(** What the world gives to one run of the download worker. *)
Record DownloadRun : Type := {
  dl_success : bool;              (* httpDownload returned true *)
  dl_cancelled : bool;            (* m_cancelDownload when the download is over *)
  dl_file : option (list Z);      (* the file at m_downloadPath afterwards *)
  install_ok : bool;              (* the platform installer returned true *)
  dl_now : Z                      (* steady_clock::now(), in seconds *)
}.

(** [applyUpdate]; after a successful installer the process exits, which
    leaves [INSTALLING] as the last status. *)
Definition applyUpdate (install_ok : bool) (now : Z) (m : Manager) : Manager :=
  if negb (status_eqb (m_status m) DOWNLOADED) then m
  else
    let ver := version (m_updateInfo m) in
    let m := notify (String.append "Installing v" (String.append ver "..."))
                    (set_status INSTALLING m) in
    let m := emit (EvInstall (m_downloadPath m)) m in
    if negb install_ok then fail now "Installation failed" m else m.

Definition getDownloadDir : string := "/tmp/ScreenControl-update".

(** The worker of [downloadUpdate], in its three stretches: up to the end of
    [httpDownload], the checksum, and what follows a verified download. *)
Definition beginDownload (m : Manager) : Manager :=
  let info := m_updateInfo m in
  let m := notify (String.append "Downloading v" (String.append (version info) "..."))
                  (set_status DOWNLOADING m) in
  let m := set_downloadPath
             (String.append getDownloadDir (String.append "/" (filename info))) m in
  let url := String.append (serverUrl (m_config m)) (downloadUrl info) in
  emit (EvHttpDownload url (m_downloadPath m)) m.

Definition checkDownload (run : DownloadRun) (m : Manager) : bool * Manager :=
  let (verified, evs) :=
    verifyChecksum (m_downloadPath m) (dl_file run) (sha256 (m_updateInfo m)) in
  (verified, fold_left (fun m e => emit e m) evs m).

Definition finishDownload (run : DownloadRun) (m : Manager) : Manager :=
  let m := notify (String.append "Update v"
                     (String.append (version (m_updateInfo m)) " ready to install"))
                  (set_status DOWNLOADED m) in
  if autoInstall (m_config m) || isForced (m_updateInfo m)
  then applyUpdate (install_ok run) (dl_now run) m
  else m.

Definition downloadWorker (run : DownloadRun) (m : Manager) : Manager :=
  let m := beginDownload m in
  if negb (dl_success run) || dl_cancelled run then
    fail (dl_now run)
         (if dl_cancelled run then "Download cancelled" else "Download failed") m
  else
    let (verified, m) := checkDownload run m in
    if negb verified then fail (dl_now run) "Checksum verification failed" m
    else finishDownload run m.

(** [downloadUpdate] *)
Definition downloadUpdate (run : DownloadRun) (m : Manager) : Manager :=
  if negb (status_eqb (m_status m) AVAILABLE) then m
  else downloadWorker run (set_cancelDownload false m).

(** [get<uint64_t>()] for [j.value("size", 0ULL)] *)
Definition get_uint64 (j : json) : res Z :=
  match j with
  | JNum n => Ok (to_uint64 n)
  | _ => Throw type_error_302
  end.

Definition with_version (s : string) (i : UpdateInfo) : UpdateInfo :=
  {| version := s; info_channel := info_channel i; size := size i; sha256 := sha256 i;
     filename := filename i; releaseNotes := releaseNotes i;
     downloadUrl := downloadUrl i; isForced := isForced i |}.
Definition with_channel (s : string) (i : UpdateInfo) : UpdateInfo :=
  {| version := version i; info_channel := s; size := size i; sha256 := sha256 i;
     filename := filename i; releaseNotes := releaseNotes i;
     downloadUrl := downloadUrl i; isForced := isForced i |}.
Definition with_size (n : Z) (i : UpdateInfo) : UpdateInfo :=
  {| version := version i; info_channel := info_channel i; size := n; sha256 := sha256 i;
     filename := filename i; releaseNotes := releaseNotes i;
     downloadUrl := downloadUrl i; isForced := isForced i |}.
Definition with_sha256 (s : string) (i : UpdateInfo) : UpdateInfo :=
  {| version := version i; info_channel := info_channel i; size := size i; sha256 := s;
     filename := filename i; releaseNotes := releaseNotes i;
     downloadUrl := downloadUrl i; isForced := isForced i |}.
Definition with_filename (s : string) (i : UpdateInfo) : UpdateInfo :=
  {| version := version i; info_channel := info_channel i; size := size i;
     sha256 := sha256 i; filename := s; releaseNotes := releaseNotes i;
     downloadUrl := downloadUrl i; isForced := isForced i |}.
Definition with_releaseNotes (s : string) (i : UpdateInfo) : UpdateInfo :=
  {| version := version i; info_channel := info_channel i; size := size i;
     sha256 := sha256 i; filename := filename i; releaseNotes := s;
     downloadUrl := downloadUrl i; isForced := isForced i |}.
Definition with_downloadUrl (s : string) (i : UpdateInfo) : UpdateInfo :=
  {| version := version i; info_channel := info_channel i; size := size i;
     sha256 := sha256 i; filename := filename i; releaseNotes := releaseNotes i;
     downloadUrl := s; isForced := isForced i |}.
Definition with_isForced (b : bool) (i : UpdateInfo) : UpdateInfo :=
  {| version := version i; info_channel := info_channel i; size := size i;
     sha256 := sha256 i; filename := filename i; releaseNotes := releaseNotes i;
     downloadUrl := downloadUrl i; isForced := b |}.

(** [m_updateInfo.field = j.value(key, default);] *)
Definition assign {A} (get : json -> res A) (j : json) (key : string) (dflt : A)
    (store : A -> UpdateInfo -> UpdateInfo) : ST Manager unit :=
  v <- lift (value get j key dflt) ;;
  modify (fun m => set_updateInfo (store v (m_updateInfo m)) m).

(** "Parse update info" in [checkForUpdate]. *)
Definition parseUpdateInfo (j : json) : ST Manager unit :=
  assign get_string j "version" "" with_version ;;;
  assign get_string j "channel" "STABLE" with_channel ;;;
  assign get_uint64 j "size" 0 with_size ;;;
  assign get_string j "sha256" "" with_sha256 ;;;
  assign get_string j "filename" "" with_filename ;;;
  assign get_string j "releaseNotes" "" with_releaseNotes ;;;
  assign get_string j "downloadUrl" "" with_downloadUrl ;;;
  assign get_bool j "isForced" false with_isForced.

(** What the world gives to one run of the check worker. *)
Record CheckRun : Type := {
  response : option (res json);   (* [None]: httpGet failed; else json::parse *)
  self_join : res unit;           (* m_workerThread.join() called by the worker *)
  check_now : Z;
  download : DownloadRun
}.

Definition checkUrl (c : UpdateConfig) : string :=
  String.append (serverUrl c)
   (String.append "/api/updates/check?platform="
   (String.append (platform c)
   (String.append "&arch="
   (String.append (arch c)
   (String.append "&currentVersion="
   (String.append (currentVersion c)
   (String.append "&channel="
   (String.append (channel c)
     (if String.eqb (machineId c) "" then ""
      else String.append "&machineId=" (machineId c)))))))))).

(** The worker of [checkForUpdate]. *)
Definition checkWorker (run : CheckRun) (m : Manager) : Manager :=
  let m := notify "Checking for updates..." (set_status CHECKING m) in
  let m := emit (EvHttpGet (checkUrl (m_config m))) m in
  match response run with
  | None => fail (check_now run) "Failed to check for updates" m
  | Some parsed =>
      snd (catch
             (j <- lift parsed ;;
              updateAvailable <- lift (value_bool j "updateAvailable" false) ;;
              if negb updateAvailable then
                _ <- lift (value_string j "reason" "up to date") ;;
                modify (fun m => notify "Already up to date" (set_status UP_TO_DATE m))
              else
                parseUpdateInfo j ;;;
                modify (fun m =>
                  notify (String.append "Update v"
                            (String.append (version (m_updateInfo m)) " available"))
                         (set_status AVAILABLE m)) ;;;
                auto <- gets (fun m => autoDownload (m_config m)) ;;
                if auto : bool then
                  (* downloadUpdate(), called on the worker thread itself *)
                  lift (self_join run) ;;;
                  modify (fun m => downloadWorker (download run) (set_cancelDownload false m))
                else ret tt)
             (fun _ => modify (fail (check_now run) "Failed to parse update info"))
             m)
  end.

(** [checkForUpdate] *)
Definition checkForUpdate (run : CheckRun) (m : Manager) : Manager :=
  if status_eqb (m_status m) CHECKING || status_eqb (m_status m) DOWNLOADING then m
  else checkWorker run m.

(** [onHeartbeat]; [now] is the steady clock in seconds. *)
Definition onHeartbeat (run : CheckRun) (updateFlag : Z) (m : Manager) : Manager :=
  let m := set_heartbeatCount (m_heartbeatCount m + 1) m in
  if m_heartbeatCount m <? checkIntervalHeartbeats (m_config m) then m
  else
    let m := set_heartbeatCount 0 m in
    let m := if status_eqb (m_status m) FAILED
                && (failedRetryTimeoutSeconds (m_config m)
                      <=? check_now run - m_failedTimestamp m)
             then set_status IDLE m else m in
    if 0 <? updateFlag then
      if (updateFlag =? 2) && status_eqb (m_status m) DOWNLOADED then
        applyUpdate (install_ok (download run)) (check_now run) m
      else if status_eqb (m_status m) IDLE || status_eqb (m_status m) UP_TO_DATE then
        checkForUpdate run m
      else m
    else m.

End UpdateManager.

(** ** RFC 6455, section 5.2: reading one frame

    The reference decoder that the frames the client writes are checked
    against.  It follows the RFC: FIN and opcode in the first byte, MASK and
    the 7-bit length in the second, then the 16-bit or 64-bit extended
    length in network byte order (the shortest form is required, and the
    top bit of the 64-bit form is zero), then the masking key when MASK is
    set, then the payload, each octet of which is the XOR of the transmitted
    octet with octet [i mod 4] of the key. *)
Module Rfc6455.
Local Open Scope Z_scope.

Record Frame : Type := {
  fin : bool;
  opcode : Z;
  mask : bool;
  maskingKey : list Z;
  lengthBits : Z;          (* 7, 16 or 64 *)
  payloadData : string
}.

Definition be_value (bytes : list Z) : Z :=
  fold_left (fun acc b => acc * 256 + b) bytes 0.

Fixpoint unmask (key : list Z) (i : nat) (data : list Z) : string :=
  match data with
  | [] => EmptyString
  | d :: rest =>
      String (char_of_byte (Z.lxor d (nth (i mod 4) key 0))) (unmask key (S i) rest)
  end.

Fixpoint string_of_bytes (data : list Z) : string :=
  match data with
  | [] => EmptyString
  | d :: rest => String (char_of_byte d) (string_of_bytes rest)
  end.

(** Payload length, the width of its encoding, and the bytes after it. *)
Definition payloadLength (len7 : Z) (rest : list Z) : option (Z * Z * list Z) :=
  if len7 =? 126 then
    match rest with
    | hi :: lo :: rest' =>
        let len := be_value [hi; lo] in
        if 126 <=? len then Some (len, 16, rest') else None
    | _ => None
    end
  else if len7 =? 127 then
    let len := be_value (firstn 8 rest) in
    if (8 <=? length rest)%nat && (65535 <? len) && (len <? 2 ^ 63)
    then Some (len, 64, skipn 8 rest) else None
  else Some (len7, 7, rest).

Definition maskingKeyOf (masked : bool) (rest : list Z) : option (list Z * list Z) :=
  if masked then
    match rest with
    | k0 :: k1 :: k2 :: k3 :: data => Some ([k0; k1; k2; k3], data)
    | _ => None
    end
  else Some ([], rest).

Definition parse (bytes : list Z) : option Frame :=
  match bytes with
  | b0 :: b1 :: rest =>
      match payloadLength (Z.land b1 0x7F) rest with
      | Some (len, bits, rest1) =>
          match maskingKeyOf (Z.testbit b1 7) rest1 with
          | Some (key, data) =>
              if Z.of_nat (length data) =? len then
                Some {| fin := Z.testbit b0 7; opcode := Z.land b0 0x0F;
                        mask := Z.testbit b1 7; maskingKey := key; lengthBits := bits;
                        payloadData := if Z.testbit b1 7 then unmask key 0 data
                                       else string_of_bytes data |}
              else None
          | None => None
          end
      | None => None
      end
  | _ => None
  end.

(** The width RFC 6455 prescribes for a payload of [len] bytes. *)
Definition prescribedLengthBits (len : Z) : Z :=
  if len <=? 125 then 7 else if len <=? 65535 then 16 else 64.

End Rfc6455.

(** ** Vocabulary of the properties *)
Module Incoming.
Local Open Scope Z_scope.

(** An unmasked text frame as a server sends it (RFC 6455, section 5.2). *)
Definition serverLengthBytes (len : Z) : list Z :=
  if len <=? 125 then [len]
  else if len <=? 65535 then [126; len / 256; len mod 256]
  else 127 :: be_bytes 8 len.

Definition serverFrame (opcode : Z) (payload : string) : list Z :=
  (0x80 + opcode) :: serverLengthBytes (string_length payload) ++ bytes_of_string payload.




(** A passage of the loop in which [sslRead] returns [data]. *)
Definition readOf (rnd : MaskDraw) (data : list Z) : Iteration :=
  {| it_running := true; it_read := ReadBytes data; it_running_after := true;
     it_rnd := rnd |}.

Definition someMask : MaskDraw := {| draw0 := 17; draw1 := 250; draw2 := 3; draw3 := 96 |}.

End Incoming.

(** Sample traffic. *)
Module Samples.
Local Open Scope Z_scope.
Import Incoming.

(** A ping whose payload is 125 times the letter p. *)
Definition pingPayload : string := Rfc6455.string_of_bytes (repeat 0x70 125).
Definition ping125 : list Z := serverFrame 0x9 pingPayload.

(** The text frame "hi", whole and cut after its third byte. *)
Definition hiFrame : list Z := serverFrame 0x1 "hi".

End Samples.

(** Heartbeat acknowledgements as the protocol table types them. *)
Module Acks.
Import WebSocketClient.









Definition sampleClient : Client :=
  {| m_socket := 5; m_connected := true; m_running := true; m_stopHeartbeat := false;
     m_agentId := "A1"; m_licenseStatus := "valid";
     m_masterModeEnabled := false; m_fileTransferEnabled := false;
     m_localSettingsLocked := false; m_relayCallbacks := ∅;
     m_statusCallback := true; m_heartbeatCallback := true;
     m_permissionsCallback := true; m_connectionCallback := true;
     cfg_defaultBrowser := "firefox"; trace := [] |}.

Definition samplePermissions : json :=
  JObj [("masterMode", JBool true); ("fileTransfer", JBool false)].

Definition sampleAck : json :=
  JObj [("type", JStr "heartbeat_ack"); ("licenseStatus", JStr "valid"); ("u", JNum 0);
        ("permissions", samplePermissions)].


End Acks.

(** Sample relay traffic. *)
Module Relays.
Import WebSocketClient.
Local Open Scope Z_scope.

Definition sampleDigits : list Z := [0; 1; 2; 3; 4; 5; 6; 7; 8; 9; 10; 11; 12; 13; 14; 15].
Definition sampleCallback : RelayCallback := {| cb_id := 7; cb_throws := false |}.

(** The client after one [relayCommand], still connected. *)
Definition relaying : Client :=
  snd (relayCommand sampleDigits "agent-2" "system_info" (JObj []) sampleCallback
         Acks.sampleClient).

Definition sampleRelayResponse : json :=
  JObj [("type", JStr "relay_response"); ("id", JStr "relay_0123456789abcdef");
        ("result", JObj [("platform", JStr "linux")])].

End Relays.

(** Histories of the client: commands relayed, messages of the server,
    disconnects. *)
Module Clients.
Import WebSocketClient.
Local Open Scope Z_scope.

Inductive ClientOp : Type :=
| OpRelayCommand (digits : list Z) (targetAgentId method : string) (params : json)
                 (callback : RelayCallback)
| OpMessage (j : json)      (* a message of the server, parsed, in [handleMessage] *)
| OpDisconnect.

Definition clientStep (op : ClientOp) (c : Client) : Client :=
  match op with
  | OpRelayCommand digits targetAgentId method params callback =>
      snd (relayCommand digits targetAgentId method params callback c)
  | OpMessage j => snd (handleMessage j c)
  | OpDisconnect => disconnect c
  end.

Definition runClient (ops : list ClientOp) (c : Client) : Client :=
  fold_left (fun c op => clientStep op c) ops c.

(** Is [op] a relay_response for [id]? *)
Definition answers (id : string) (op : ClientOp) : bool :=
  match op with
  | OpMessage j =>
      match value_string j "type" "", value_string j "id" "" with
      | Ok type, Ok requestId => String.eqb type "relay_response" && String.eqb requestId id
      | _, _ => false
      end
  | _ => false
  end.

(** Does [op] register a handler under [id]? *)
Definition remints (id : string) (op : ClientOp) : bool :=
  match op with
  | OpRelayCommand digits _ _ _ _ => String.eqb (relayRequestId digits) id
  | _ => false
  end.

(** Operations that neither answer [id] nor register a handler under it. *)
Definition elsewhere (id : string) (ops : list ClientOp) : bool :=
  forallb (fun op => negb (answers id op) && negb (remints id op)) ops.

(** Operations that register no handler under [id]. *)
Definition noRemint (id : string) (ops : list ClientOp) : bool :=
  forallb (fun op => negb (remints id op)) ops.

(** A computation that leaves the table of relay handlers as it is. *)
Definition keepsRelay {A} (m : M A) : Prop :=
  forall c, m_relayCallbacks (snd (m c)) = m_relayCallbacks c.

(** Another relayed command and its answer, a heartbeat acknowledgement and
    a disconnect. *)
Definition otherDigits : list Z := [15; 14; 13; 12; 11; 10; 9; 8; 7; 6; 5; 4; 3; 2; 1; 0].
Definition otherCallback : RelayCallback := {| cb_id := 8; cb_throws := false |}.

Definition otherResponse : json :=
  JObj [("type", JStr "relay_response"); ("id", JStr "relay_fedcba9876543210");
        ("result", JObj [])].

Definition meanwhile : list ClientOp :=
  [OpRelayCommand otherDigits "agent-3" "fs_list" (JObj []) otherCallback;
   OpMessage Acks.sampleAck;
   OpMessage otherResponse;
   OpDisconnect].

End Clients.

(** A dispatcher with no GUI proxy registered, whose local handlers answer
    with an empty object. *)
Module Dispatchers.
Import CommandDispatcher.

Definition noProxy : Handlers :=
  {| m_guiProxy := None; localHandler := fun _ _ => Ok (JObj []) |}.

(** A proxy that echoes what it is called with. *)
Definition echoProxy : Handlers :=
  {| m_guiProxy := Some (fun method params =>
                           Ok (JObj [("method", JStr method); ("params", params)]));
     localHandler := fun _ _ => Ok (JObj []) |}.

End Dispatchers.

(** Vocabulary and sample runs for the session table. *)
Module Sessions.
Import ShellTools.
Local Open Scope Z_scope.

(** Is [op] a [stop_session] on [id]? *)
Definition stopsSession (id : string) (op : Op) : bool :=
  match op with
  | OpStopSession sessionId _ => String.eqb sessionId id
  | _ => false
  end.

(** Does [op] mint [id] for a new session? *)
Definition mints (id : string) (op : Op) : bool :=
  match mintedId op with
  | Some minted => String.eqb minted id
  | None => false
  end.

Definition succeeded (answer : json) : bool :=
  match find answer "success" with
  | Some (JBool true) => true
  | _ => false
  end.

(** A filter that rejects one command. *)
Definition denyRmRf (command : string) : CheckResult :=
  if String.eqb command "rm -rf /"
  then {| allowed := false; reason := "blocklist" |}
  else {| allowed := true; reason := "" |}.

Definition sampleStart : StartRun :=
  {| forkpty_pid := 4242; masterFd := 9; forkpty_error := "";
     id_digits := [10; 11; 12; 13; 0; 1; 2; 3; 4; 5; 6; 7; 8; 9; 14; 15] |}.

Definition sampleId : string := "session_abcd0123456789ef".

(** The world after [start_session("sh", "/tmp")]. *)
Definition started : World := snd (startSession sampleStart "sh" "/tmp" initialWorld).

(** The child dies, then the session is written to, read and listed. *)
Definition busy : list Op :=
  [OpChildExit 4242;
   OpSendInput (-1) "Input/output error" sampleId "echo hello";
   OpReadOutput [] [] sampleId;
   OpListSessions].

Definition sampleExec : ExecRun :=
  {| pipes_ok := true; fork_pid := 4300;
     ticks := fun _ => {| tick_stdout := []; tick_stderr := [];
                          tick_exit := Some (Some 0, [], []) |} |}.

End Sessions.

(** Vocabulary and sample runs for the update pipeline. *)
Module Updates.
Import UpdateManager.
Local Open Scope Z_scope.

(** The digest [verifyChecksum] computes for a file, as lowercase hex. *)
Definition fileDigest (content : list Z) : string :=
  Sha256.hex_of_bytes (Sha256.digest content).

(** Equality of hex digests without regard to case, as the specification
    words the comparison. *)
Definition lower (c : ascii) : ascii :=
  let n := N_of_ascii c in
  if (65 <=? n)%N && (n <=? 90)%N then ascii_of_N (n + 32) else c.

Fixpoint eq_nocase (a b : string) : bool :=
  match a, b with
  | EmptyString, EmptyString => true
  | String x a', String y b' => Ascii.eqb (lower x) (lower y) && eq_nocase a' b'
  | _, _ => false
  end.

Definition isInstall (e : UpdateEvent) : bool :=
  match e with EvInstall _ => true | _ => false end.

Definition isHashFile (e : UpdateEvent) : bool :=
  match e with EvHashFile _ => true | _ => false end.

(** Has the platform installer been run? *)
Definition installAttempted (m : Manager) : bool := existsb isInstall (trace m).

(** Has a file been digested? *)
Definition fileHashed (m : Manager) : bool := existsb isHashFile (trace m).

(** What a stretch of the worker leaves as it found it. *)
Definition keepsSettings (m m' : Manager) : Prop :=
  m_config m' = m_config m /\ m_updateInfo m' = m_updateInfo m.

Definition sampleConfig : UpdateConfig :=
  {| serverUrl := "https://updates.example"; machineId := "m-1";
     currentVersion := "1.0.0"; platform := "linux"; arch := "x64"; channel := "STABLE";
     autoDownload := false; autoInstall := true;
     checkIntervalHeartbeats := 60; failedRetryTimeoutSeconds := 600 |}.

Definition noInfo : UpdateInfo :=
  {| version := ""; info_channel := ""; size := 0; sha256 := ""; filename := "";
     releaseNotes := ""; downloadUrl := ""; isForced := false |}.

Definition idle : Manager :=
  {| m_config := sampleConfig; m_heartbeatCount := 0; m_status := IDLE;
     m_failedTimestamp := 0; m_updateInfo := noInfo; m_downloadPath := "";
     m_cancelDownload := false; m_statusCallback := true; trace := [] |}.

(** An update whose manifest declared digest [d], not yet downloaded. *)
Definition available (d : string) : Manager :=
  set_status AVAILABLE
    (set_updateInfo {| version := "1.1.0"; info_channel := "STABLE"; size := 3;
                       sha256 := d; filename := "agent.tar.gz"; releaseNotes := "";
                       downloadUrl := "/api/updates/download/1.1.0";
                       isForced := false |} idle).

(** A download that succeeds and leaves [content] on disk. *)
Definition downloaded (content : list Z) : DownloadRun :=
  {| dl_success := true; dl_cancelled := false; dl_file := Some content;
     install_ok := true; dl_now := 1000 |}.

Definition abc : list Z := bytes_of_string "abc".
Definition abcDigest : string :=
  "ba7816bf8f01cfea414140de5dae2223b00361a396177a9cb410ff61f20015ad".
Definition abcDigestUpper : string :=
  "BA7816BF8F01CFEA414140DE5DAE2223B00361A396177A9CB410FF61F20015AD".

(** A manifest without a sha256 field. *)
Definition manifestNoDigest : json :=
  JObj [("updateAvailable", JBool true); ("version", JStr "1.1.0");
        ("channel", JStr "STABLE"); ("size", JNum 3); ("filename", JStr "agent.tar.gz");
        ("downloadUrl", JStr "/api/updates/download/1.1.0"); ("isForced", JBool false)].

End Updates.

(** * Further parts of the service

    - [StdString]   what the URL parser uses of std::string and std::stoi;
    - [Connection]  control_server/websocket_client.cpp: [parseUrl] and the
                    connection file;
    - [Requests]    the same file: requests of the control server and the
                    responses to them;
    - [Service]     platform/linux/main_linux.cpp: the GUI proxy, the command
                    callback and the reconnection delays;
    - [Progress]    update/update_manager.cpp: the download progress;
    - [Tools]       control_server/command_dispatcher.cpp: the names that
                    [handleToolsList] lists and [dispatch] compares with. *)

(** ** std::string operations the URL parser uses *)
Module StdString.

(** [s.find(c)]: the position of the first [c], [None] for [npos]. *)
Fixpoint find_char (c : ascii) (s : string) : option nat :=
  match s with
  | EmptyString => None
  | String x rest =>
      if Ascii.eqb x c then Some O
      else match find_char c rest with
           | Some n => Some (S n)
           | None => None
           end
  end.

(** [s.substr(0, n)] and [s.substr(n)], for [n] within the string. *)
Fixpoint take (n : nat) (s : string) : string :=
  match n, s with
  | S n', String x rest => String x (take n' rest)
  | _, _ => EmptyString
  end.

Fixpoint drop (n : nat) (s : string) : string :=
  match n, s with
  | S n', String _ rest => drop n' rest
  | _, _ => s
  end.

Fixpoint has_char (c : ascii) (s : string) : bool :=
  match s with
  | EmptyString => false
  | String x rest => Ascii.eqb x c || has_char c rest
  end.

(** [isspace] and [isdigit] in the C locale. *)
Definition is_space (c : ascii) : bool :=
  let n := N_of_ascii c in
  (n =? 32)%N || ((9 <=? n)%N && (n <=? 13)%N).

Definition digit_of (c : ascii) : option Z :=
  let n := N_of_ascii c in
  if (48 <=? n)%N && (n <=? 57)%N then Some (Z.of_N n - 48)%Z else None.

Fixpoint skip_spaces (s : string) : string :=
  match s with
  | String c rest => if is_space c then skip_spaces rest else s
  | EmptyString => s
  end.

(** The longest run of digits at the front of [s], read in base ten after
    the digits already read into [acc]; [None] when [s] starts with none. *)
Fixpoint leading_digits (acc : Z) (seen : bool) (s : string) : option Z :=
  match s with
  | String c rest =>
      match digit_of c with
      | Some d => leading_digits (acc * 10 + d) true rest
      | None => if seen then Some acc else None
      end
  | EmptyString => if seen then Some acc else None
  end.

Definition INT_MAX : Z := 2147483647.
Definition INT_MIN : Z := -2147483648.

(** [std::stoi(s)]: white space, an optional sign, digits; what follows the
    digits is ignored.  No digits is std::invalid_argument, a value outside
    [int] is std::out_of_range. *)
Definition stoi (s : string) : res Z :=
  let s := skip_spaces s in
  let (negative, s) :=
    match s with
    | String "-" rest => (true, rest)
    | String "+" rest => (false, rest)
    | _ => (false, s)
    end in
  match leading_digits 0 false s with
  | None => Throw "stoi: invalid argument"
  | Some v =>
      let v := if negative then (- v)%Z else v in
      if (INT_MIN <=? v)%Z && (v <=? INT_MAX)%Z then Ok v
      else Throw "stoi: out of range"
  end.

(** The decimal digits of a string of digit values. *)
Fixpoint digits_string (ds : list Z) : string :=
  match ds with
  | [] => EmptyString
  | d :: rest => String (ascii_of_N (Z.to_N (48 + d))) (digits_string rest)
  end.

Definition digits_value (ds : list Z) : Z :=
  fold_left (fun acc d => acc * 10 + d)%Z ds 0%Z.

Definition is_digit_value (d : Z) : bool := (0 <=? d)%Z && (d <=? 9)%Z.

End StdString.
Export StdString.

(** ** control_server/websocket_client.cpp: URL and connection file *)
Module Connection.
Local Open Scope Z_scope.
Local Open Scope st_scope.

Record ParsedUrl : Type := {
  url_host : string;
  url_path : string;
  url_port : Z;
  url_useSSL : bool
}.

(** [parseUrl]: [Ok None] is [return false]; an exception is the one
    [std::stoi] raises on the port text. *)
Definition parseUrl (url : string) : res (option ParsedUrl) :=
  let scheme :=
    if String.prefix "wss://" url then Some (drop 6 url, true, 443)
    else if String.prefix "ws://" url then Some (drop 5 url, false, 80)
    else None in
  match scheme with
  | None => Ok None
  | Some (remaining, useSSL, port) =>
      let (host, path) :=
        match find_char "/" remaining with
        | Some pathPos => (take pathPos remaining, drop pathPos remaining)
        | None => (remaining, "/"%string)
        end in
      match find_char ":" host with
      | Some portPos =>
          match stoi (drop (portPos + 1) host) with
          | Ok p => Ok (Some {| url_host := take portPos host; url_path := path;
                                url_port := p; url_useSSL := useSSL |})
          | Throw w => Throw w
          end
      | None => Ok (Some {| url_host := host; url_path := path;
                            url_port := port; url_useSSL := useSSL |})
      end
  end.

Record ConnectionConfig : Type := {
  serverUrl : string;
  endpointUuid : string;
  customerId : string;
  agentName : string;
  connectOnStartup : bool
}.

(** [ConnectionConfig::save]: the object that is dumped to the file. *)
Definition saved (c : ConnectionConfig) : json :=
  JObj [("serverUrl", JStr (serverUrl c)); ("endpointUuid", JStr (endpointUuid c));
        ("customerId", JStr (customerId c)); ("agentName", JStr (agentName c));
        ("connectOnStartup", JBool (connectOnStartup c))].

Definition save (fileOpens : bool) (c : ConnectionConfig) : bool * option json :=
  if fileOpens then (true, Some (saved c)) else (false, None).

Definition with_serverUrl (s : string) (c : ConnectionConfig) : ConnectionConfig :=
  {| serverUrl := s; endpointUuid := endpointUuid c; customerId := customerId c;
     agentName := agentName c; connectOnStartup := connectOnStartup c |}.
Definition with_endpointUuid (s : string) (c : ConnectionConfig) : ConnectionConfig :=
  {| serverUrl := serverUrl c; endpointUuid := s; customerId := customerId c;
     agentName := agentName c; connectOnStartup := connectOnStartup c |}.
Definition with_customerId (s : string) (c : ConnectionConfig) : ConnectionConfig :=
  {| serverUrl := serverUrl c; endpointUuid := endpointUuid c; customerId := s;
     agentName := agentName c; connectOnStartup := connectOnStartup c |}.
Definition with_agentName (s : string) (c : ConnectionConfig) : ConnectionConfig :=
  {| serverUrl := serverUrl c; endpointUuid := endpointUuid c; customerId := customerId c;
     agentName := s; connectOnStartup := connectOnStartup c |}.
Definition with_connectOnStartup (b : bool) (c : ConnectionConfig) : ConnectionConfig :=
  {| serverUrl := serverUrl c; endpointUuid := endpointUuid c; customerId := customerId c;
     agentName := agentName c; connectOnStartup := b |}.

(** [if (j.contains(key)) field = j[key];] *)
Definition loadField {A} (get : json -> res A) (j : json) (key : string)
    (store : A -> ConnectionConfig -> ConnectionConfig) : ST ConnectionConfig unit :=
  match find j key with
  | Some v => a <- lift (get v) ;; modify (store a)
  | None => ret tt
  end.

(** The [try] block of [ConnectionConfig::load], on the parsed file. *)
Definition loadFields (j : json) : ST ConnectionConfig unit :=
  loadField get_string j "serverUrl" with_serverUrl ;;;
  loadField get_string j "endpointUuid" with_endpointUuid ;;;
  loadField get_string j "customerId" with_customerId ;;;
  loadField get_string j "agentName" with_agentName ;;;
  loadField get_bool j "connectOnStartup" with_connectOnStartup.

(** [ConnectionConfig::load]; [file] is [None] when the file cannot be
    opened, else what [file >> j] gives.  The result is the returned bool
    and the fields as the call leaves them. *)
Definition load (file : option (res json)) (c : ConnectionConfig)
  : bool * ConnectionConfig :=
  match file with
  | None => (false, c)
  | Some parsed =>
      match (j <- lift parsed ;; loadFields j) c with
      | (Ok _, c') => (true, c')
      | (Throw _, c') => (false, c')
      end
  end.

End Connection.

(** ** control_server/websocket_client.cpp: requests

    A message is sent as [sendWebSocketFrame(message.dump())].  [dump] is
    nlohmann's serialiser; it raises type_error.316 when a string of the
    message is not UTF-8, which is before anything is sent.  The functions
    below take it as an argument: [Ok] with the text, or [Throw] with the
    exception's [what()]. *)
Module Requests.
Import WebSocketClient.
Local Open Scope st_scope.

Definition responseMessage (requestId : string) (result : json) : json :=
  JObj [("type", JStr "response"); ("id", JStr requestId); ("result", result)].

Definition errorMessage (requestId error : string) : json :=
  JObj [("type", JStr "response"); ("id", JStr requestId); ("error", JStr error)].

(** [sendWebSocketFrame(message.dump())] *)
Definition sendMessage (dump : json -> res string) (message : json) : M unit :=
  _ <- lift (dump message) ;;
  modify (emit (EvSendMessage message)).

(** [sendResponse] and [sendError] *)
Definition sendResponse (dump : json -> res string) (requestId : string) (result : json)
  : M unit :=
  sendMessage dump (responseMessage requestId result).

Definition sendError (dump : json -> res string) (requestId error : string) : M unit :=
  sendMessage dump (errorMessage requestId error).

(** [handleRequest]; [commandCallback] is [m_commandCallback], [None] when
    none is registered.  The [try] holds the call of the callback and
    [sendResponse]; its [catch] calls [sendError] with [e.what()]. *)
Definition handleRequest (dump : json -> res string)
    (commandCallback : option (string -> json -> res json)) (j : json) : M unit :=
  requestId <- lift (value_string j "id" "") ;;
  method <- lift (value_string j "method" "") ;;
  params <- lift (value_json j "params" (JObj [])) ;;
  match commandCallback with
  | Some callback =>
      catch (result <- lift (callback method params) ;;
             sendResponse dump requestId result)
            (fun what => sendError dump requestId what)
  | None => sendError dump requestId "No command handler registered"
  end.

(** The [request] branch of [handleMessage], inside its [try]: an
    exception is logged. *)
Definition handleRequestMessage (dump : json -> res string)
    (commandCallback : option (string -> json -> res json)) (j : json) : M unit :=
  catch (handleRequest dump commandCallback j) (fun _ => ret tt).

End Requests.

(** ** platform/linux/main_linux.cpp: how the parts are wired *)
Module Service.
Import CommandDispatcher.
Local Open Scope Z_scope.

(** The GUI proxy that [main] registers with the dispatcher.  [post] is
    [cli.Post("/tool", request.dump(), ...)]: [None] when there is no
    response, else the status and what [json::parse] makes of the body. *)
Definition guiProxy (post : json -> option (Z * res json)) (method : string)
    (params : json) : res json :=
  match post (JObj [("method", JStr method); ("params", params)]) with
  | Some (status, body) =>
      if status =? 200 then
        match body with
        | Ok answer => Ok answer
        | Throw _ => Ok (JObj [("error", JStr "Invalid response from tray app")])
        end
      else Ok (JObj [("error", JStr "Tray app unavailable")])
  | None => Ok (JObj [("error", JStr "Tray app unavailable")])
  end.

(** The dispatcher as [main] sets it up. *)
Definition wired (post : json -> option (Z * res json))
    (localHandler : LocalCall -> json -> res json) : Handlers :=
  {| m_guiProxy := Some (guiProxy post); localHandler := localHandler |}.

(** The command callback [main] gives to the WebSocket client:
    [dispatcher.dispatch(method, params)]. *)
Definition commandCallback (h : Handlers) (method : string) (params : json) : res json :=
  match dispatch h method params with
  | Some (_, answer) => Ok answer
  | None => Throw "dispatch"
  end.

(** [std::min(5 * (1 << reconnectAttempts), maxReconnectDelay)] on [int]. *)
Definition maxReconnectDelay : Z := 60.

Definition backoffDelay (reconnectAttempts : Z) : Z :=
  Z.min (to_int (5 * to_int (Z.shiftl 1 reconnectAttempts))) maxReconnectDelay.

(** One passage of the main loop after its one-second sleep: the new
    [reconnectAttempts] and the delay slept before a reconnect, if any. *)
Definition superviseStep (configured connected running reconnected : bool)
    (reconnectAttempts : Z) : Z * option Z :=
  if configured then
    if negb connected then
      let delay := backoffDelay reconnectAttempts in
      if running && reconnected then (0, Some delay)
      else (reconnectAttempts + 1, Some delay)
    else (0, None)
  else (reconnectAttempts, None).

(** Consecutive failed reconnects, starting from [reconnectAttempts]: the
    delays slept. *)
Fixpoint outage (n : nat) (reconnectAttempts : Z) : list Z :=
  match n with
  | O => []
  | S n' =>
      match superviseStep true false true false reconnectAttempts with
      | (attempts, Some delay) => delay :: outage n' attempts
      | (attempts, None) => outage n' attempts
      end
  end.

End Service.

(** ** update/update_manager.cpp: progress *)
Module Progress.
Local Open Scope Z_scope.

(** [getDownloadProgress] on [m_downloaded] and [m_totalSize] (uint64_t). *)
Definition getDownloadProgress (m_downloaded m_totalSize : Z) : Z :=
  if m_totalSize =? 0 then 0
  else to_int (to_uint64 (m_downloaded * 100) / m_totalSize).

End Progress.

(** ** control_server/command_dispatcher.cpp: the names of the tools *)
Module Tools.
Import CommandDispatcher.

(** The names [handleToolsList] passes to [addTool], in order: those always
    listed, with [machine_lock] and [machine_unlock] among them on Windows
    only ([#if PLATFORM_WINDOWS]), and those listed when
    [checkBrowserBridgeAvailable()] holds.  The three screenshot tools are
    commented out in the source and are not listed. *)
Definition listedTools (windows : bool) : list string :=
  ["listApplications"; "focusApplication"; "launchApplication"; "closeApp"; "click";
   "click_absolute"; "click_relative"; "click_grid"; "doubleClick"; "clickElement";
   "moveMouse"; "scroll"; "scrollMouse"; "drag"; "getClickableElements"; "getUIElements";
   "getMousePosition"; "typeText"; "pressKey"; "checkPermissions"; "wait"; "system_info";
   "window_list"; "clipboard_read"; "clipboard_write"]
  ++ (if windows then ["machine_lock"; "machine_unlock"] else [])
  ++ ["fs_list"; "fs_read"; "fs_read_range"; "fs_write"; "fs_delete"; "fs_move"; "fs_search";
   "fs_grep"; "fs_patch"; "shell_exec"; "shell_start_session"; "shell_send_input";
   "shell_read_output"; "shell_stop_session"].

Definition listedBrowserTools : list string :=
  ["browser_listConnected"; "browser_setDefaultBrowser"; "browser_getTabs";
   "browser_getActiveTab"; "browser_focusTab"; "browser_createTab"; "browser_closeTab";
   "browser_getPageInfo"; "browser_inspectCurrentPage"; "browser_getInteractiveElements";
   "browser_getPageContext"; "browser_clickElement"; "browser_fillElement";
   "browser_fillFormField"; "browser_fillWithFallback"; "browser_fillFormNative";
   "browser_scrollTo"; "browser_executeScript"; "browser_getFormData";
   "browser_setWatchMode"; "browser_getVisibleText"; "browser_searchVisibleText";
   "browser_getUIElements"; "browser_waitForSelector"; "browser_waitForPageLoad";
   "browser_selectOption"; "browser_isElementVisible"; "browser_getConsoleLogs";
   "browser_getNetworkRequests"; "browser_getLocalStorage"; "browser_getCookies";
   "browser_clickByText"; "browser_clickMultiple"; "browser_getFormStructure";
   "browser_answerQuestions"; "browser_getDropdownOptions"; "browser_openDropdownNative";
   "browser_listInteractiveElements"; "browser_clickElementWithDebug";
   "browser_findElementWithDebug"; "browser_findTabByUrl"; "browser_navigate";
   "browser_screenshot"; "browser_go_back"; "browser_go_forward";
   "browser_get_visible_html"; "browser_hover"; "browser_drag"; "browser_press_key";
   "browser_upload_file"; "browser_save_as_pdf"].

Definition toolNames (windows browserAvailable : bool) : list string :=
  listedTools windows ++ (if browserAvailable then listedBrowserTools else []).

(** The names the branches of [dispatch] after the GUI test compare the
    method with, in the order of the branches. *)
Definition LOCAL_METHODS : list string :=
  ["fs_list"; "listDirectory"; "fs_read"; "readFile"; "fs_read_range"; "fs_write";
   "writeFile"; "fs_delete"; "deleteFile"; "fs_move"; "moveFile"; "fs_search"; "fs_grep";
   "fs_patch"; "shell_exec"; "executeCommand"; "shell_start_session"; "shell_send_input";
   "shell_stop_session"; "shell_read_output"; "terminal_start"; "terminal_input";
   "terminal_output"; "terminal_stop"; "terminal_resize"; "system_info"; "clipboard_read";
   "clipboard_write"; "machine_unlock"; "unlockMachine"; "machine_lock"; "lockMachine";
   "machine_info"; "getMachineInfo"; "wait"; "tools/list"; "tools/call"; "health"; "ping"].

(** A call of a handler that sleeps. *)
Definition isSleep (ev : DispatchEvent) : bool :=
  match ev with
  | EvLocal (CallSleep _) _ => true
  | _ => false
  end.

End Tools.

(** Vocabulary for the statements about URLs and the connection file. *)
Module Urls.
Import Connection.
Local Open Scope Z_scope.

Definition scheme (ssl : bool) : string := if ssl then "wss://" else "ws://".

Definition defaultPort (ssl : bool) : Z := if ssl then 443 else 80.

(** A path is empty or starts with a slash. *)
Definition isPath (path : string) : bool :=
  match path with
  | EmptyString => true
  | String c _ => Ascii.eqb c "/"
  end.

Definition pathOrRoot (path : string) : string :=
  match path with
  | EmptyString => "/"%string
  | _ => path
  end.

(** A host name has neither a colon nor a slash. *)
Definition isHost (host : string) : bool :=
  negb (has_char ":" host) && negb (has_char "/" host).

(** A URL written out: scheme, host, optional port text, path. *)
Definition written (ssl : bool) (host : string) (port : option string) (path : string)
  : string :=
  String.append (scheme ssl)
    (String.append host
       (String.append (match port with
                       | Some text => String ":" text
                       | None => EmptyString
                       end) path)).

Definition sampleConnection : ConnectionConfig :=
  {| serverUrl := "wss://control.example/ws"; endpointUuid := "e-1";
     customerId := "c-1"; agentName := "agent"; connectOnStartup := true |}.

End Urls.

(** Vocabulary and sample runs for [exec] and the session output. *)
Module Execs.
Import ShellTools.
Local Open Scope Z_scope.

(** The chunks that passes [k], [k+1], ..., [k+n-1] of the wait loop read
    from one of the pipes. *)
Definition chunksRead (ticks : nat -> Tick) (pipe : Tick -> list string) (k n : nat)
  : list string :=
  concat (List.map (fun i => pipe (ticks i)) (seq k n)).

(** The deadline of [exec]: [timeout * 1000], a product of [int]s. *)
Definition deadline (timeout : Z) : Z := to_int (timeout * 1000).

(** The passes of the wait loop before the deadline: each pass counts for
    100, so there are as many as it takes to reach [deadline timeout], and
    none when that is zero or less. *)
Definition passesWithin (timeout : Z) : nat := Z.to_nat ((deadline timeout + 99) / 100).

(** The largest deadline for which [elapsed += 100] stays within [int]. *)
Definition maxDeadline : Z := 2147483600.

Definition allowAll (command : string) : CheckResult :=
  {| allowed := true; reason := "" |}.

(** A child that prints a dot on every pass and never exits. *)
Definition hangs : ExecRun :=
  {| pipes_ok := true; fork_pid := 4300;
     ticks := fun _ => {| tick_stdout := ["."%string]; tick_stderr := [];
                          tick_exit := None |} |}.

(** A child that prints on the first pass and exits with code 3 on the
    third, leaving a last line in the pipe. *)
Definition exitsThird : ExecRun :=
  {| pipes_ok := true; fork_pid := 4301;
     ticks := fun k =>
       match k with
       | O => {| tick_stdout := ["one"%string]; tick_stderr := []; tick_exit := None |}
       | S O => {| tick_stdout := []; tick_stderr := []; tick_exit := None |}
       | _ => {| tick_stdout := []; tick_stderr := ["warn"%string];
                 tick_exit := Some (Some 3, ["two"%string], []) |}
       end |}.

Definition ptySession : ShellSession :=
  {| pid := 4242; stdinFd := -1; stdoutFd := -1; stderrFd := -1; ptyMasterFd := 9;
     isPty := true |}.

End Execs.

(** Vocabulary and sample runs for the heartbeat-driven checks. *)
Module Heartbeats.
Import UpdateManager Updates.
Local Open Scope Z_scope.

(** Does the next heartbeat reach the check interval? *)
Definition due (m : Manager) : bool :=
  checkIntervalHeartbeats (m_config m) <=? m_heartbeatCount m + 1.

(** One heartbeat ack, with what the world gives and the flag it carries. *)
Definition beat (m : Manager) (b : CheckRun * Z) : Manager :=
  onHeartbeat (fst b) (snd b) m.

Definition isDownload (e : UpdateEvent) : bool :=
  match e with EvHttpDownload _ _ => true | _ => false end.

(** Has a download been requested? *)
Definition downloadRequested (m : Manager) : bool := existsb isDownload (trace m).

(** Is a check or a download under way? *)
Definition inProgress (m : Manager) : bool :=
  status_eqb (m_status m) CHECKING || status_eqb (m_status m) DOWNLOADING.

(** Did the check get an answer that parses and whose [updateAvailable]
    can be read as a bool? *)
Definition readable (answer : option (res json)) : bool :=
  match answer with
  | Some (Ok j) =>
      match value_bool j "updateAvailable" false with
      | Ok _ => true
      | Throw _ => false
      end
  | _ => false
  end.

(** A computation that changes nothing of the manager but the update
    info. *)
Definition only_info {A} (c : ST Manager A) : Prop :=
  forall m, exists i, snd (c m) = set_updateInfo i m.

(** A check at time [now] that gets [answer], in a worker whose join of
    itself raises. *)
Definition checkAt (now : Z) (answer : option (res json)) : CheckRun :=
  {| response := answer; self_join := Throw "Resource deadlock avoided";
     check_now := now; download := downloaded abc |}.

(** The manager one heartbeat before a check is due. *)
Definition lastBeat (status : UpdateStatus) (failedAt : Z) (m : Manager) : Manager :=
  set_failedTimestamp failedAt (set_status status (set_heartbeatCount 59 m)).

Definition autoDownloading : Manager :=
  {| m_config :=
       {| serverUrl := "https://updates.example"; machineId := "m-1";
          currentVersion := "1.0.0"; platform := "linux"; arch := "x64";
          channel := "STABLE"; autoDownload := true; autoInstall := true;
          checkIntervalHeartbeats := 60; failedRetryTimeoutSeconds := 600 |};
     m_heartbeatCount := 0; m_status := IDLE; m_failedTimestamp := 0;
     m_updateInfo := noInfo; m_downloadPath := ""; m_cancelDownload := false;
     m_statusCallback := true; trace := [] |}.

End Heartbeats.

(** A serialiser for the sample requests: it accepts every message,
    as for messages that are all UTF-8. *)
Module Dumps.

Definition dumpsAll (message : json) : res string := Ok "{}"%string.

End Dumps.

(** Vocabulary for the reads of the receive loop. *)
Module Arrivals.
Import Incoming.
Local Open Scope Z_scope.

(** What the loop does with a whole frame, by opcode. *)
Definition whenWhole (opcode : Z) (payload : string) (rnd : MaskDraw) : FrameOutcome :=
  if opcode =? 0x01 then FrameContinue [EvHandleMessage payload]
  else if opcode =? 0x08 then FrameBreak
  else if opcode =? 0x09 then FrameContinue [EvSslWrite (0x8A :: 0x80 :: mask_bytes rnd)]
  else FrameContinue [].

(** The state after a read of [data] that delivered [evs]. *)
Definition afterRead (st : LoopState) (data : list Z) (evs : list RecvEvent) : LoopState :=
  {| buffer := storeRead (buffer st) data; consecutiveErrors := 0;
     events := events st ++ evs |}.

(** Did the iteration index past the end of the buffer? *)
Definition faults (outcome : FrameOutcome) : bool :=
  match outcome with
  | FrameFault => true
  | _ => false
  end.

End Arrivals.

(** * Properties *)

(** ** Bytes and characters *)

Section Bytes.
Local Open Scope Z_scope.

Lemma char_of_byte_of_char (c : ascii) : char_of_byte (byte_of_char c) = c.
Proof.
  unfold char_of_byte, byte_of_char, to_uint8.
  pose proof (N_ascii_bounded c) as Hb.
  rewrite Z.mod_small by lia.
  rewrite N2Z.id. apply ascii_N_embedding.
Qed.

Lemma lxor_twice (a m : Z) : Z.lxor (Z.lxor a m) m = a.
Proof. rewrite Z.lxor_assoc, Z.lxor_nilpotent. apply Z.lxor_0_r. Qed.

Lemma string_of_bytes_of_string (s : string) :
  Rfc6455.string_of_bytes (bytes_of_string s) = s.
Proof.
  induction s as [|c s IH]; simpl; [reflexivity|].
  now rewrite char_of_byte_of_char, IH.
Qed.

Lemma length_bytes_of_string (s : string) :
  length (bytes_of_string s) = String.length s.
Proof. induction s; simpl; congruence. Qed.

End Bytes.

(** ** Frames written by the client (C4) *)

Section FramesOut.
Local Open Scope Z_scope.
Variable rnd : MaskDraw.

Lemma length_maskedPayload (payload : string) (i : nat) :
  length (maskedPayload rnd i payload) = String.length payload.
Proof.
  revert i. induction payload as [|c s IH]; intros i; simpl; [reflexivity|].
  now rewrite IH.
Qed.

Lemma unmask_maskedPayload (payload : string) (i : nat) :
  Rfc6455.unmask (mask_bytes rnd) i (maskedPayload rnd i payload) = payload.
Proof.
  revert i. induction payload as [|c s IH]; intros i; simpl; [reflexivity|].
  unfold mask_at. rewrite lxor_twice, char_of_byte_of_char, IH. reflexivity.
Qed.

Lemma maskingKeyOf_mask (body : list Z) :
  Rfc6455.maskingKeyOf true (mask_bytes rnd ++ body) = Some (mask_bytes rnd, body).
Proof. reflexivity. Qed.

End FramesOut.

Section LengthField.
Local Open Scope Z_scope.

(** The second byte of a short frame: mask bit over the 7-bit length. *)
Lemma short_length_byte (len : Z) :
  0 <= len <= 125 ->
  Z.lor 0x80 (to_uint8 len) = 128 + len /\
  Z.land (128 + len) 0x7F = len /\
  Z.testbit (128 + len) 7 = true.
Proof.
  intros Hlen. unfold to_uint8. rewrite Z.mod_small by lia.
  assert (Hall : forallb (fun n => let l := Z.of_nat n in
                   (Z.lor 0x80 l =? 128 + l) && (Z.land (128 + l) 0x7F =? l)
                   && Z.testbit (128 + l) 7) (seq 0 126) = true) by (vm_compute; reflexivity).
  rewrite forallb_forall in Hall.
  specialize (Hall (Z.to_nat len)).
  rewrite Z2Nat.id in Hall by lia.
  assert (Hin : In (Z.to_nat len) (seq 0 126)) by (apply in_seq; lia).
  apply Hall in Hin. cbv zeta in Hin.
  apply andb_prop in Hin as [Hin H3]. apply andb_prop in Hin as [H1 H2].
  apply Z.eqb_eq in H1, H2. auto.
Qed.

Lemma byte_of_shift (len k : Z) :
  0 <= k -> Z.land (Z.shiftr len k) 0xFF = (len / 2 ^ k) mod 256.
Proof.
  intros Hk. change 0xFF with (Z.ones 8).
  rewrite Z.land_ones by lia. rewrite Z.shiftr_div_pow2 by lia. reflexivity.
Qed.

Lemma medium_length_bytes (len : Z) :
  0 <= len <= 65535 ->
  Rfc6455.be_value [Z.land (Z.shiftr len 8) 0xFF; Z.land len 0xFF] = len.
Proof.
  intros Hlen. unfold Rfc6455.be_value. simpl fold_left.
  rewrite byte_of_shift by lia.
  change 0xFF with (Z.ones 8). rewrite Z.land_ones by lia.
  change (2 ^ 8) with 256.
  pose proof (Z.div_mod len 256 ltac:(lia)).
  assert (0 <= len / 256 < 256) by (split; [apply Z.div_pos; lia | apply Z.div_lt_upper_bound; lia]).
  rewrite (Z.mod_small (len / 256)) by lia. lia.
Qed.

Lemma long_length_bytes (len : Z) :
  0 <= len < 2 ^ 64 ->
  Rfc6455.be_value
    (List.map (fun i => Z.land (Z.shiftr len (i * 8)) 0xFF) [7; 6; 5; 4; 3; 2; 1; 0]) = len.
Proof.
  intros Hlen. unfold Rfc6455.be_value. cbn [List.map fold_left].
  rewrite !byte_of_shift by lia.
  change (7 * 8) with 56. change (6 * 8) with 48. change (5 * 8) with 40.
  change (4 * 8) with 32. change (3 * 8) with 24. change (2 * 8) with 16.
  change (1 * 8) with 8. change (0 * 8) with 0.
  change (2 ^ 0) with 1. rewrite Z.div_1_r.
  replace (len / 2 ^ 56) with (len / 2 ^ 48 / 256)
    by (rewrite Z.div_div by lia; reflexivity).
  replace (len / 2 ^ 48) with (len / 2 ^ 40 / 256)
    by (rewrite Z.div_div by lia; reflexivity).
  replace (len / 2 ^ 40) with (len / 2 ^ 32 / 256)
    by (rewrite Z.div_div by lia; reflexivity).
  replace (len / 2 ^ 32) with (len / 2 ^ 24 / 256)
    by (rewrite Z.div_div by lia; reflexivity).
  replace (len / 2 ^ 24) with (len / 2 ^ 16 / 256)
    by (rewrite Z.div_div by lia; reflexivity).
  replace (len / 2 ^ 16) with (len / 2 ^ 8 / 256)
    by (rewrite Z.div_div by lia; reflexivity).
  change (2 ^ 8) with 256.
  change (2 ^ 64) with 18446744073709551616 in Hlen.
  Z.div_mod_to_equations. lia.
Qed.

End LengthField.

Section FrameRoundTrip.
Local Open Scope Z_scope.

Lemma parse_masked_body (b0 b1 len bits : Z) (rnd : MaskDraw) (payload : string) :
  Z.testbit b1 7 = true ->
  string_length payload = len ->
  forall rest,
    Rfc6455.payloadLength (Z.land b1 0x7F) rest
      = Some (len, bits, mask_bytes rnd ++ maskedPayload rnd 0 payload) ->
    Rfc6455.parse (b0 :: b1 :: rest)
      = Some {| Rfc6455.fin := Z.testbit b0 7; Rfc6455.opcode := Z.land b0 0x0F;
                Rfc6455.mask := true; Rfc6455.maskingKey := mask_bytes rnd;
                Rfc6455.lengthBits := bits; Rfc6455.payloadData := payload |}.
Proof.
  intros Hbit Hlen rest Hpl. unfold Rfc6455.parse.
  rewrite Hpl, Hbit, maskingKeyOf_mask, length_maskedPayload.
  unfold string_length in Hlen. rewrite Hlen, Z.eqb_refl.
  now rewrite unmask_maskedPayload.
Qed.

(** C4.  For every payload string (of a size a std::string can have), the
    frame produced by sendWebSocketFrame reads back under RFC 6455 as a
    frame with FIN set, text opcode 0x1, the mask bit set, the 4-byte
    masking key that was drawn, the payload length in the form the RFC
    prescribes (7-bit up to 125, 16-bit up to 65535, 64-bit above), and a
    body that unmasks to the original payload. *)
Theorem sendWebSocketFrame_rfc6455 (rnd : MaskDraw) (written : Z) (payload : string) :
  string_length payload < 2 ^ 63 ->
  Rfc6455.parse (fst (sendWebSocketFrame rnd written payload))
    = Some {| Rfc6455.fin := true; Rfc6455.opcode := 0x1; Rfc6455.mask := true;
              Rfc6455.maskingKey := mask_bytes rnd;
              Rfc6455.lengthBits := Rfc6455.prescribedLengthBits (string_length payload);
              Rfc6455.payloadData := payload |}
  /\ length (mask_bytes rnd) = 4%nat.
Proof.
  intros Hsize. split; [|reflexivity].
  assert (Hnn : 0 <= string_length payload) by (unfold string_length; lia).
  unfold sendWebSocketFrame, webSocketFrame, lengthBytes, Rfc6455.prescribedLengthBits.
  cbn [fst].
  destruct (Z.leb_spec (string_length payload) 125) as [Hs|Hs].
  - (* 7-bit length *)
    destruct (short_length_byte (string_length payload) ltac:(lia)) as (Hb & Hl & Ht).
    rewrite Hb. cbn [app].
    apply (parse_masked_body 0x81 _ (string_length payload) 7 rnd payload Ht eq_refl).
    rewrite Hl. unfold Rfc6455.payloadLength.
    destruct (Z.eqb_spec (string_length payload) 126) as [E|_]; [lia|].
    destruct (Z.eqb_spec (string_length payload) 127) as [E|_]; [lia|].
    reflexivity.
  - destruct (Z.leb_spec (string_length payload) 65535) as [Hm|Hm].
    + (* 16-bit extended length *)
      cbn [app].
      apply (parse_masked_body 0x81 (Z.lor 128 126) (string_length payload) 16 rnd payload
               eq_refl eq_refl).
      change (Z.land (Z.lor 128 126) 127) with 126.
      unfold Rfc6455.payloadLength. rewrite Z.eqb_refl.
      rewrite medium_length_bytes by lia.
      destruct (Z.leb_spec 126 (string_length payload)); [reflexivity|lia].
    + (* 64-bit extended length *)
      cbn [app].
      apply (parse_masked_body 0x81 (Z.lor 128 127) (string_length payload) 64 rnd payload
               eq_refl eq_refl).
      change (Z.land (Z.lor 128 127) 127) with 127.
      unfold Rfc6455.payloadLength.
      change (127 =? 126) with false. change (127 =? 127) with true. cbv iota.
      set (ext := List.map _ _).
      assert (Hext : length ext = 8%nat) by reflexivity.
      rewrite length_app, Hext.
      rewrite firstn_app, Hext, Nat.sub_diag, firstn_O, app_nil_r.
      rewrite (firstn_all2 (n := 8) ext) by (rewrite Hext; lia).
      rewrite skipn_app, Hext, Nat.sub_diag, skipn_O.
      rewrite (skipn_all2 (n := 8) ext) by (rewrite Hext; lia).
      unfold ext. rewrite long_length_bytes by lia.
      cbn [app].
      destruct (Z.ltb_spec 65535 (string_length payload)); [|lia].
      destruct (Z.ltb_spec (string_length payload) (2 ^ 63)); [|lia].
      reflexivity.
Qed.

Lemma sendWebSocketFrame_rfc6455_witness :
  string_length "hello" < 2 ^ 63 /\
  Rfc6455.parse (fst (sendWebSocketFrame
                        {| draw0 := 17; draw1 := 250; draw2 := 3; draw3 := 96 |} 11 "hello"))
    = Some {| Rfc6455.fin := true; Rfc6455.opcode := 0x1; Rfc6455.mask := true;
              Rfc6455.maskingKey := [17; 250; 3; 96]; Rfc6455.lengthBits := 7;
              Rfc6455.payloadData := "hello" |}.
Proof.
  split; [vm_compute; reflexivity|].
  exact (proj1 (sendWebSocketFrame_rfc6455
                  {| draw0 := 17; draw1 := 250; draw2 := 3; draw3 := 96 |} 11 "hello"
                  ltac:(vm_compute; reflexivity))).
Defined.

End FrameRoundTrip.

(** ** The receive loop (C5, C6) *)

Section ReceiveLoop.
Local Open Scope Z_scope.
Import Incoming.






Lemma to_int_small (z : Z) : 0 <= z <= 16384 -> to_int (to_uint64 z) = z.
Proof.
  intros Hz. unfold to_int, to_uint64.
  rewrite (Z.mod_small z) by (split; [lia|]; apply Z.le_lt_trans with 16384; [lia|reflexivity]).
  rewrite Z.mod_small; [lia|].
  change (2 ^ 31) with 2147483648. change (2 ^ 32) with 4294967296. lia.
Qed.


(** A pong the loop writes never carries a payload. *)
Lemma pong_has_no_payload (buf : list Z) (bytesRead : Z) (rnd : MaskDraw)
    (evs : list RecvEvent) (bytes : list Z) :
  parseFrame buf bytesRead rnd = FrameContinue evs ->
  In (EvSslWrite bytes) evs ->
  bytes = 0x8A :: 0x80 :: mask_bytes rnd.
Proof.
  unfold parseFrame. intros H Hin.
  repeat match type of H with
         | (if ?c then _ else _) = _ => destruct c
         | match ?o with Some _ => _ | None => _ end = _ => destruct o as [[? ?]|]
         end;
    inversion H; subst evs; simpl in Hin;
    repeat match type of Hin with
           | _ \/ _ => destruct Hin as [Hin|Hin]
           | False => contradiction
           end;
    try discriminate; now inversion Hin.
Qed.

End ReceiveLoop.

Section WholeFrames.
Local Open Scope Z_scope.
Import Incoming.

Lemma below_126 (P : Z -> bool) :
  forallb (fun n => P (Z.of_nat n)) (seq 0 126) = true ->
  forall len, 0 <= len <= 125 -> P len = true.
Proof.
  intros Hall len Hlen. rewrite forallb_forall in Hall.
  specialize (Hall (Z.to_nat len)). rewrite Z2Nat.id in Hall by lia.
  apply Hall. apply in_seq. lia.
Qed.

Lemma unmasked_short_length (len : Z) :
  0 <= len <= 125 -> Z.land len 0x80 = 0 /\ Z.land len 0x7F = len.
Proof.
  intros Hlen.
  pose proof (below_126 (fun l => (Z.land l 0x80 =? 0) && (Z.land l 0x7F =? l))
                ltac:(vm_compute; reflexivity) len Hlen) as H.
  apply andb_prop in H as [H1 H2]. apply Z.eqb_eq in H1, H2. auto.
Qed.

Lemma lor_shiftl_8 (hi lo : Z) :
  0 <= hi -> 0 <= lo < 256 -> Z.lor (Z.shiftl hi 8) lo = hi * 256 + lo.
Proof.
  intros Hhi Hlo.
  rewrite Z.shiftl_mul_pow2 by lia. change (2 ^ 8) with 256.
  rewrite <- Z.lxor_lor, <- Z.add_nocarry_lxor; [reflexivity| |];
    (apply Z.bits_inj'; intros n Hn; rewrite Z.land_spec, Z.bits_0;
     destruct (Z.ltb_spec n 8) as [Hlt|Hge];
     [ replace (hi * 256) with (hi * 2 ^ 8) by reflexivity;
       rewrite Z.mul_pow2_bits_low by lia; reflexivity
     | replace lo with (lo mod 2 ^ 8) by (apply Z.mod_small; simpl; lia);
       rewrite Z.mod_pow2_bits_high by lia; apply andb_false_r ]).
Qed.

Lemma skipn_nth_cons (l : list Z) (k : nat) :
  (k < length l)%nat -> skipn k l = nth k l 0 :: skipn (S k) l.
Proof.
  revert k. induction l as [|x l IH]; intros k Hk; simpl in Hk; [lia|].
  destruct k as [|k]; [reflexivity|]. simpl. apply IH. lia.
Qed.

Lemma byteAt_0 (a : Z) (l : list Z) : byteAt (a :: l) 0 = a.
Proof. reflexivity. Qed.
Lemma byteAt_1 (a b : Z) (l : list Z) : byteAt (a :: b :: l) 1 = b.
Proof. reflexivity. Qed.
Lemma byteAt_2 (a b c : Z) (l : list Z) : byteAt (a :: b :: c :: l) 2 = c.
Proof. reflexivity. Qed.
Lemma byteAt_3 (a b c d : Z) (l : list Z) : byteAt (a :: b :: c :: d :: l) 3 = d.
Proof. reflexivity. Qed.

Lemma readPayload_unmasked (buf : list Z) (h mo : nat) :
  forall n i, (h + i + n <= length buf)%nat ->
    readPayload buf h mo false n i
    = Rfc6455.string_of_bytes (firstn n (skipn (h + i) buf)).
Proof.
  induction n as [|n IH]; intros i Hb; [reflexivity|].
  cbn [readPayload]. rewrite (skipn_nth_cons buf (h + i)) by lia.
  cbn [firstn Rfc6455.string_of_bytes]. unfold byteAt at 1.
  rewrite IH by lia. now replace (h + S i)%nat with (S (h + i)) by lia.
Qed.

Lemma readPayload_whole (hdr tail : list Z) (payload : string) (mo : nat) :
  readPayload (hdr ++ bytes_of_string payload ++ tail) (length hdr) mo false
              (String.length payload) 0 = payload.
Proof.
  rewrite readPayload_unmasked
    by (rewrite !length_app, length_bytes_of_string; lia).
  rewrite Nat.add_0_r, skipn_app, Nat.sub_diag, skipn_all, skipn_O. cbn [app].
  rewrite firstn_app, length_bytes_of_string, Nat.sub_diag, firstn_O, app_nil_r.
  rewrite firstn_all2 by (rewrite length_bytes_of_string; lia).
  apply string_of_bytes_of_string.
Qed.




End WholeFrames.

Section ReceiveLoopClaims.
Local Open Scope Z_scope.
Import Incoming Samples.

(** C5 (the code departs from the claim).  A ping with a 125-byte payload
    is answered with a masked pong frame, but the pong is the fixed header
    [0x8A 0x80] and the masking key: under RFC 6455 it has an empty payload,
    not the 125 bytes of the ping. *)
Theorem ping_125_answered_with_empty_pong :
  Rfc6455.payloadData <$> Rfc6455.parse ping125 = Some pingPayload /\
  loopEvents (receiveLoop false [readOf someMask ping125])
    = [EvSslWrite (0x8A :: 0x80 :: mask_bytes someMask)] /\
  Rfc6455.parse (0x8A :: 0x80 :: mask_bytes someMask)
    = Some {| Rfc6455.fin := true; Rfc6455.opcode := 0xA; Rfc6455.mask := true;
              Rfc6455.maskingKey := mask_bytes someMask; Rfc6455.lengthBits := 7;
              Rfc6455.payloadData := EmptyString |}.
Proof. repeat split; vm_compute; reflexivity. Qed.




End ReceiveLoopClaims.

(** ** Permission latching (C8) *)

Section HeartbeatAck.
Import WebSocketClient Acks.
Local Open Scope Z_scope.
















End HeartbeatAck.

(** ** Relay completion handlers (C3) *)

Section Relay.
Import WebSocketClient Relays Clients.
Local Open Scope Z_scope.

Lemma disconnect_keeps_relayCallbacks (c : Client) :
  m_relayCallbacks (disconnect c) = m_relayCallbacks c.
Proof.
  unfold disconnect.
  destruct (negb (m_connected c) && (m_socket c <? 0)); [reflexivity|].
  cbn [emit set_disconnected m_connectionCallback].
  destruct (m_connectionCallback c); reflexivity.
Qed.

(** C3, as claimed, fails: a handler registered by relayCommand is still in
    the table after the client has disconnected. *)
Lemma relay_handler_survives_disconnect :
  m_connected relaying = true /\
  m_connected (disconnect relaying) = false /\
  m_relayCallbacks (disconnect relaying) !! "relay_0123456789abcdef" = Some sampleCallback.
Proof.
  split; [reflexivity|]. split; [reflexivity|].
  rewrite disconnect_keeps_relayCallbacks. unfold relaying.
  cbn [relayCommand]. apply lookup_insert_eq.
Qed.

Lemma keepsRelay_bind {A B} (m : M A) (k : A -> M B) :
  keepsRelay m -> (forall a, keepsRelay (k a)) -> keepsRelay (bind m k).
Proof.
  intros Hm Hk c. unfold bind. specialize (Hm c).
  destruct (m c) as [[a|what] c1]; cbn [snd] in *; [|exact Hm].
  now rewrite Hk.
Qed.

Lemma keepsRelay_when (b : bool) (m : M unit) : keepsRelay m -> keepsRelay (when b m).
Proof. intros Hm. destruct b; [exact Hm|]. now intros c. Qed.

Ltac keeps_relay :=
  repeat first
    [ apply keepsRelay_bind; [|intros ?]
    | apply keepsRelay_when
    | intros ?; reflexivity ].

Lemma handleHeartbeatAck_keepsRelay (j : json) : keepsRelay (handleHeartbeatAck j).
Proof.
  unfold handleHeartbeatAck, ackLicenseStatus, ackUpdateFlag, ackDefaultBrowser,
    ackPermissions.
  destruct (find j "defaultBrowser"), (find j "permissions"); keeps_relay.
Qed.

(** What [handleRelayResponse] does to the handler under [id] when the
    response is for another id, or has none that can be read. *)
Lemma handleRelayResponse_other (j : json) (c : Client) (id : string) :
  value_string j "id" "" <> Ok id ->
  m_relayCallbacks (snd (handleRelayResponse j c)) !! id = m_relayCallbacks c !! id.
Proof.
  intros Hother. unfold handleRelayResponse, bind, lift, gets, modify, ret.
  destruct (value_string j "id" "") as [requestId|what]; [|reflexivity].
  destruct (m_relayCallbacks c !! requestId) as [cb|]; [|reflexivity].
  destruct (value_json j "result" (JObj [])) as [result|what]; [|reflexivity].
  destruct (cb_throws cb); [reflexivity|].
  cbn [snd set_relayCallbacks emit m_relayCallbacks].
  apply lookup_delete_ne. congruence.
Qed.

(** A response for an id that has no handler changes nothing. *)
Lemma handleMessage_unknown_id (j : json) (c : Client) (id : string) :
  value_string j "type" "" = Ok "relay_response"%string ->
  value_string j "id" "" = Ok id ->
  m_relayCallbacks c !! id = None ->
  handleMessage j c = (Ok tt, c).
Proof.
  intros Htype Hid Hnone.
  unfold handleMessage, catch, bind, lift. rewrite Htype. cbn [String.eqb Ascii.eqb Bool.eqb].
  unfold handleRelayResponse, bind, lift, gets, ret. now rewrite Hid, Hnone.
Qed.

Lemma handleMessage_elsewhere (j : json) (c : Client) (id : string) :
  answers id (OpMessage j) = false ->
  m_relayCallbacks (snd (handleMessage j c)) !! id = m_relayCallbacks c !! id.
Proof.
  unfold answers, handleMessage, catch, bind, lift, ret.
  destruct (value_string j "type" "") as [type|what]; [|reflexivity].
  destruct (String.eqb type "heartbeat_ack").
  - intros _. pose proof (handleHeartbeatAck_keepsRelay j c) as Hkeep.
    destruct (handleHeartbeatAck j c) as [[[]|what] c1]; cbn [snd] in *; now rewrite Hkeep.
  - destruct (String.eqb type "relay_response"); [|reflexivity].
    intros Hother.
    assert (Hid : value_string j "id" "" <> Ok id).
    { destruct (value_string j "id" "") as [requestId|what]; [|discriminate].
      cbn [andb] in Hother. apply String.eqb_neq in Hother. congruence. }
    pose proof (handleRelayResponse_other j c id Hid) as Hkeep.
    destruct (handleRelayResponse j c) as [[[]|what] c1]; cbn [snd] in *; exact Hkeep.
Qed.

Lemma clientStep_elsewhere (op : ClientOp) (c : Client) (id : string) :
  answers id op = false -> remints id op = false ->
  m_relayCallbacks (clientStep op c) !! id = m_relayCallbacks c !! id.
Proof.
  destruct op as [digits target method params callback|j|]; cbn [clientStep remints].
  - intros _ Hother. unfold relayCommand, bind, gets, modify.
    cbn [snd emit set_relayCallbacks m_relayCallbacks].
    apply lookup_insert_ne. now apply String.eqb_neq in Hother.
  - intros Hother _. now apply handleMessage_elsewhere.
  - intros _ _. now rewrite disconnect_keeps_relayCallbacks.
Qed.

Lemma clientStep_absent (op : ClientOp) (c : Client) (id : string) :
  remints id op = false ->
  m_relayCallbacks c !! id = None ->
  m_relayCallbacks (clientStep op c) !! id = None.
Proof.
  intros Hmint Hnone. destruct (answers id op) eqn:Hans.
  - destruct op as [| j |]; try discriminate. cbn [answers] in Hans. cbn [clientStep].
    destruct (value_string j "type" "") as [type|] eqn:Htype; [|discriminate].
    destruct (value_string j "id" "") as [requestId|] eqn:Hid; [|discriminate].
    apply andb_prop in Hans as [->%String.eqb_eq ->%String.eqb_eq].
    now rewrite (handleMessage_unknown_id j c id Htype Hid Hnone).
  - now rewrite clientStep_elsewhere.
Qed.

Lemma runClient_elsewhere (ops : list ClientOp) (c : Client) (id : string) :
  elsewhere id ops = true ->
  m_relayCallbacks (runClient ops c) !! id = m_relayCallbacks c !! id.
Proof.
  revert c. induction ops as [|op ops IH]; intros c; [reflexivity|].
  cbn [elsewhere forallb]. intros [[Hans Hmint]%andb_prop Hrest]%andb_prop.
  apply negb_true_iff in Hans, Hmint.
  unfold runClient. cbn [fold_left]. fold (runClient ops (clientStep op c)).
  rewrite (IH _ Hrest). now apply clientStep_elsewhere.
Qed.

Lemma runClient_absent (ops : list ClientOp) (c : Client) (id : string) :
  noRemint id ops = true ->
  m_relayCallbacks c !! id = None ->
  m_relayCallbacks (runClient ops c) !! id = None.
Proof.
  revert c. induction ops as [|op ops IH]; intros c; [intros _ H; exact H|].
  cbn [noRemint forallb]. intros [Hmint%negb_true_iff Hrest]%andb_prop Hnone.
  unfold runClient. cbn [fold_left]. fold (runClient ops (clientStep op c)).
  apply (IH _ Hrest). now apply clientStep_absent.
Qed.

(** C3, amended.  A completion handler registered by relayCommand is stored
    under the minted relay_<hex16> id and stays there, pending, through
    whatever else the client does: other relayed commands, responses for
    other ids, heartbeat acknowledgements and disconnects.  When the
    matching relay_response arrives the handler is invoked once with the
    result and removed (the handler returning normally); the handlers under
    other ids are left alone; from then on the id has no handler, so that a
    repeated response for it invokes nothing.  A disconnect does not drop
    the pending handlers. *)
Theorem relay_handler_released_by_response (c : Client) (digits : list Z)
    (target method : string) (params : json) (cb : RelayCallback)
    (ops : list ClientOp) (j result : json) :
  let id := relayRequestId digits in
  let c1 := snd (relayCommand digits target method params cb c) in
  let c2 := runClient ops c1 in
  cb_throws cb = false ->
  elsewhere id ops = true ->
  value_string j "type" "" = Ok "relay_response"%string ->
  value_string j "id" "" = Ok id ->
  value_json j "result" (JObj []) = Ok result ->
  m_relayCallbacks c2 !! id = Some cb
  /\ m_relayCallbacks (disconnect c2) !! id = Some cb
  /\ exists c3,
       handleMessage j c2 = (Ok tt, c3)
       /\ trace c3 = trace c2 ++ [EvRelayCallback (cb_id cb) result]
       /\ m_relayCallbacks c3 = delete id (m_relayCallbacks c2)
       /\ forall later,
            noRemint id later = true ->
            m_relayCallbacks (runClient later c3) !! id = None
            /\ handleMessage j (runClient later c3) = (Ok tt, runClient later c3).
Proof.
  intros id c1 c2 Hthrows Hops Htype Hid Hresult.
  assert (Hreg : m_relayCallbacks c1 !! id = Some cb) by apply lookup_insert_eq.
  assert (Hpending : m_relayCallbacks c2 !! id = Some cb).
  { subst c2. now rewrite (runClient_elsewhere ops c1 id Hops). }
  split; [exact Hpending|].
  split; [now rewrite disconnect_keeps_relayCallbacks|].
  assert (Hrun : handleMessage j c2
                 = (Ok tt, set_relayCallbacks (delete id (m_relayCallbacks c2))
                             (emit (EvRelayCallback (cb_id cb) result) c2))).
  { unfold handleMessage, catch, bind, lift. rewrite Htype.
    cbn [String.eqb Ascii.eqb Bool.eqb].
    unfold handleRelayResponse, bind, lift, gets, modify, ret.
    now rewrite Hid, Hpending, Hresult, Hthrows. }
  eexists. split; [exact Hrun|]. split; [reflexivity|]. split; [reflexivity|].
  intros later Hlater.
  match goal with
  | |- m_relayCallbacks (runClient later ?c3) !! id = None /\ _ =>
      assert (Hgone : m_relayCallbacks (runClient later c3) !! id = None)
  end.
  { apply (runClient_absent later _ id Hlater).
    cbn [set_relayCallbacks emit m_relayCallbacks]. apply lookup_delete_eq. }
  split; [exact Hgone|].
  exact (handleMessage_unknown_id j _ id Htype Hid Hgone).
Qed.

Lemma relay_handler_released_by_response_witness :
  let c2 := runClient meanwhile relaying in
  m_relayCallbacks c2 !! relayRequestId sampleDigits = Some sampleCallback
  /\ m_relayCallbacks (disconnect c2) !! relayRequestId sampleDigits = Some sampleCallback
  /\ exists c3,
       handleMessage sampleRelayResponse c2 = (Ok tt, c3)
       /\ trace c3 = trace c2 ++ [EvRelayCallback (cb_id sampleCallback)
                                     (JObj [("platform", JStr "linux")])]
       /\ m_relayCallbacks c3 = delete (relayRequestId sampleDigits) (m_relayCallbacks c2)
       /\ forall later,
            noRemint (relayRequestId sampleDigits) later = true ->
            m_relayCallbacks (runClient later c3) !! relayRequestId sampleDigits = None
            /\ handleMessage sampleRelayResponse (runClient later c3)
               = (Ok tt, runClient later c3).
Proof.
  apply (relay_handler_released_by_response Acks.sampleClient sampleDigits
           "agent-2" "system_info" (JObj []) sampleCallback meanwhile sampleRelayResponse
           (JObj [("platform", JStr "linux")])); reflexivity.
Defined.

End Relay.

(** ** Routing of GUI methods (C7) *)

Section Dispatch.
Import CommandDispatcher Dispatchers.

Lemma isGuiMethod_In (method : string) :
  In method GUI_METHODS -> isGuiMethod method = true.
Proof.
  intros Hin. apply existsb_exists. exists method. split; [exact Hin|].
  apply String.eqb_refl.
Qed.

Lemma assoc_height (key : string) (fields : list (string * json)) (v : json) :
  assoc key fields = Some v -> (height v < height (JObj fields))%nat.
Proof.
  cbn [height]. induction fields as [|[k x] rest IH]; [discriminate|].
  cbn [assoc List.map list_max fold_right snd].
  destruct (String.eqb k key).
  - intros [= ->]. apply Nat.lt_succ_r, Nat.le_max_l.
  - intros H. specialize (IH H). cbn [list_max] in IH.
    apply Nat.lt_succ_r. apply (proj1 (Nat.lt_succ_r _ _)) in IH.
    etransitivity; [exact IH|apply Nat.le_max_r].
Qed.

(** The [try] block answers whenever the nested [dispatch] of a
    [tools/call] does. *)
Lemma dispatchTry_returns (h : Handlers) (recurse : string -> json -> option (D json))
    (method : string) (params : json) :
  (forall toolName arguments,
      value_json params "arguments" (JObj []) = Ok arguments ->
      value_string params "name" "" = Ok toolName ->
      toolName <> EmptyString ->
      is_Some (recurse toolName arguments)) ->
  is_Some (dispatchTry h recurse method params).
Proof.
  intros Hrec. unfold dispatchTry.
  destruct (isGuiMethod method); [destruct (m_guiProxy h); eauto|].
  repeat match goal with
         | |- is_Some (if ?b then _ else _) => destruct b; [solve [eauto]|]
         end.
  destruct (methodIs method "tools/call").
  - destruct (value_string params "name" "") as [toolName|] eqn:Hname; [|eauto].
    destruct (value_json params "arguments" (JObj [])) as [arguments|] eqn:Hargs; [|eauto].
    destruct (String.eqb_spec toolName ""); [eauto|].
    now apply Hrec.
  - repeat match goal with
           | |- is_Some (if ?b then _ else _) => destruct b; [solve [eauto]|]
           end.
    eauto.
Qed.

Lemma dispatchFuel_returns (h : Handlers) (fuel : nat) :
  forall method params,
    (height params + 2 <= fuel)%nat \/ (params = JObj [] /\ (1 <= fuel)%nat) ->
    is_Some (dispatchFuel fuel h method params).
Proof.
  induction fuel as [|fuel IH]; intros method params Hfuel; [lia|].
  cbn [dispatchFuel]. cbv zeta.
  match goal with
  | |- is_Some (match ?t with _ => _ end) => assert (Hsome : is_Some t)
  end.
  - apply dispatchTry_returns. intros toolName arguments Hargs Hname Hne.
    assert (Hsome : is_Some (dispatchFuel fuel h toolName arguments)).
    { apply IH. destruct Hfuel as [Hfuel|[-> _]].
      - destruct params; try discriminate. unfold value_json, value in Hargs.
        destruct (assoc "arguments" fields) as [v|] eqn:Hv.
        + injection Hargs as <-. apply assoc_height in Hv. left. lia.
        + injection Hargs as <-. right. split; [reflexivity|lia].
      - now injection Hname as <-. }
    destruct Hsome as [[evs r] ->]. eauto.
  - destruct Hsome as [m ->]. eauto.
Qed.

(** [dispatch] always answers: the bound on the unfolding is enough. *)
Lemma dispatch_returns (h : Handlers) (method : string) (params : json) :
  is_Some (dispatch h method params).
Proof. apply dispatchFuel_returns. left. lia. Qed.

(** C7.  For every method of the fixed GUI-capability set, dispatch hands
    the method and its params unchanged to the registered GUI proxy and
    returns what the proxy returns (an exception of the proxy comes back as
    its error response); if no proxy is registered, dispatch returns the
    error "GUI operations unavailable - tray app not connected".  In both
    cases no local handler runs. *)
Theorem gui_methods_go_to_proxy (h : Handlers) (method : string) (params : json) :
  In method GUI_METHODS ->
  dispatch h method params
  = Some match m_guiProxy h with
         | Some proxy =>
             ([EvGuiProxy method params],
              match proxy method params with
              | Ok r => r
              | Throw w => errorResponse w
              end)
         | None =>
             ([], errorResponse "GUI operations unavailable - tray app not connected")
         end.
Proof.
  intros Hin. unfold dispatch.
  replace (height params + 2)%nat with (S (S (height params))) by lia.
  cbn [dispatchFuel]. unfold dispatchTry.
  rewrite (isGuiMethod_In method Hin).
  destruct (m_guiProxy h) as [proxy|]; [|reflexivity].
  unfold callGuiProxy, catchAll. now destruct (proxy method params).
Qed.

Lemma gui_methods_go_to_proxy_witness :
  In "screenshot"%string GUI_METHODS /\
  dispatch noProxy "screenshot" (JObj [])
  = Some ([], JObj [("error"%string,
                     JStr "GUI operations unavailable - tray app not connected")]).
Proof.
  split; [left; reflexivity|].
  exact (gui_methods_go_to_proxy noProxy "screenshot" (JObj []) (or_introl eq_refl)).
Defined.

End Dispatch.

(** ** The session table (C9) *)

Section SessionTable.
Import ShellTools Sessions.
Local Open Scope Z_scope.
Variable checkCommand : string -> CheckResult.

Lemma entryId_sessionEntry (kv : string * ShellSession) :
  entryId (sessionEntry kv) = [fst kv].
Proof. reflexivity. Qed.

Lemma listedIds_listSessions (w : World) :
  listedIds (listSessions w) = List.map fst (inOrder (g_sessions w)).
Proof.
  unfold listSessions, listedIds. cbn [find assoc String.eqb Ascii.eqb Bool.eqb].
  induction (inOrder (g_sessions w)) as [|kv l IH]; [reflexivity|].
  cbn [List.map flat_map]. rewrite entryId_sessionEntry, IH. reflexivity.
Qed.

Lemma inOrder_Permutation (sessions : gmap string ShellSession) :
  Permutation (inOrder sessions) (map_to_list sessions).
Proof. apply merge_sort_Permutation. Qed.

(** The ids that [listSessions] reports are the keys of [g_sessions]. *)
Lemma listed_iff (w : World) (id : string) :
  In id (listedIds (listSessions w)) <-> is_Some (g_sessions w !! id).
Proof.
  rewrite listedIds_listSessions, in_map_iff. split.
  - intros ([k s] & <- & Hin). exists s.
    apply list_elem_of_In in Hin. rewrite inOrder_Permutation in Hin.
    now apply elem_of_map_to_list in Hin.
  - intros [s Hs]. exists (id, s). split; [reflexivity|].
    apply list_elem_of_In. rewrite inOrder_Permutation.
    now apply elem_of_map_to_list.
Qed.

Lemma exec_sessions (run : ExecRun) (command cwd : string) (timeout : Z) (w : World) :
  g_sessions (snd (exec checkCommand run command cwd timeout w)) = g_sessions w.
Proof.
  unfold exec, isBlocked.
  destruct (negb (allowed (checkCommand command))); [reflexivity|].
  cbn [detectsExfiltration].
  destruct (negb (pipes_ok run)); [reflexivity|].
  destruct (fork_pid run <? 0); [reflexivity|].
  destruct (waitLoop _ _ _ _ _ _ _) as [[[elapsed status] out] err].
  destruct (to_int (timeout * 1000) <=? elapsed); reflexivity.
Qed.

Lemma step_keeps_session (op : Op) (w : World) (id : string) :
  stopsSession id op = false ->
  is_Some (g_sessions w !! id) ->
  is_Some (g_sessions (snd (step checkCommand op w)) !! id).
Proof.
  intros Hstop Hin. destruct op; cbn [step]; try exact Hin.
  - unfold startSession. destruct (forkpty_pid run <? 0); [exact Hin|].
    cbn [snd set_sessions g_sessions sys]. rewrite lookup_insert.
    case_decide; [eauto|exact Hin].
  - unfold sendInput. destruct (g_sessions w !! sessionId); [|exact Hin].
    destruct (written <? 0); exact Hin.
  - unfold readOutput. destruct (g_sessions w !! sessionId) as [s|]; [|exact Hin].
    destruct (isPty s); exact Hin.
  - unfold stopSession. destruct (g_sessions w !! sessionId) as [s|]; [|exact Hin].
    cbn [snd set_sessions g_sessions sys]. cbn [stopsSession] in Hstop.
    rewrite lookup_delete_ne; [exact Hin|].
    intros ->. now rewrite String.eqb_refl in Hstop.
  - now rewrite exec_sessions.
Qed.

Lemma step_keeps_absent (op : Op) (w : World) (id : string) :
  mints id op = false ->
  g_sessions w !! id = None ->
  g_sessions (snd (step checkCommand op w)) !! id = None.
Proof.
  intros Hmint Hout. destruct op; cbn [step]; try exact Hout.
  - unfold startSession. unfold mints, mintedId in Hmint.
    destruct (forkpty_pid run <? 0); [exact Hout|].
    cbn [snd set_sessions g_sessions sys]. rewrite lookup_insert_ne; [exact Hout|].
    intros E. now rewrite E, String.eqb_refl in Hmint.
  - unfold sendInput. destruct (g_sessions w !! sessionId); [|exact Hout].
    destruct (written <? 0); exact Hout.
  - unfold readOutput. destruct (g_sessions w !! sessionId) as [s|]; [|exact Hout].
    destruct (isPty s); exact Hout.
  - unfold stopSession. destruct (g_sessions w !! sessionId) as [s|]; [|exact Hout].
    cbn [snd set_sessions g_sessions sys]. rewrite lookup_delete. now case_decide.
  - now rewrite exec_sessions.
Qed.

Lemma runOps_keeps_session (ops : list Op) (w : World) (id : string) :
  (forall op, In op ops -> stopsSession id op = false) ->
  is_Some (g_sessions w !! id) ->
  is_Some (g_sessions (runOps checkCommand ops w) !! id).
Proof.
  revert w. induction ops as [|op ops IH]; intros w Hops Hin; [exact Hin|].
  cbn [runOps]. apply IH; [intros o Ho; apply Hops; now right|].
  apply step_keeps_session; [apply Hops; now left|exact Hin].
Qed.

Lemma runOps_keeps_absent (ops : list Op) (w : World) (id : string) :
  (forall op, In op ops -> mints id op = false) ->
  g_sessions w !! id = None ->
  g_sessions (runOps checkCommand ops w) !! id = None.
Proof.
  revert w. induction ops as [|op ops IH]; intros w Hops Hout; [exact Hout|].
  cbn [runOps]. apply IH; [intros o Ho; apply Hops; now right|].
  apply step_keeps_absent; [apply Hops; now left|exact Hout].
Qed.

Lemma stopSession_removes (id signal : string) (w w' : World) (answer : json) :
  stopSession id signal w = (answer, w') ->
  succeeded answer = true ->
  g_sessions w' !! id = None.
Proof.
  unfold stopSession. destruct (g_sessions w !! id) as [s|].
  - intros [= <- <-] _. apply lookup_delete_eq.
  - intros [= <- <-]. discriminate.
Qed.

Lemma absent_session_not_found (id : string) (w : World) :
  g_sessions w !! id = None ->
  (forall written errtext input,
      sendInput written errtext id input w = (sessionNotFound id, w)) /\
  (forall chunksOut chunksErr, readOutput chunksOut chunksErr id w = (sessionNotFound id, w)) /\
  (forall signal, stopSession id signal w = (sessionNotFound id, w)).
Proof.
  intros Hout. unfold sendInput, readOutput, stopSession. rewrite Hout. auto.
Qed.

(** C9.  A session that was started is in the answer of list_sessions, and
    stays there through any operations and any death of child processes
    until a stop_session on its id; once stop_session on the id has
    returned success, the id is in no later list_sessions answer, and every
    later send_input, read_output and stop_session on it returns the
    Session-not-found error (the ids minted for later sessions being other
    ids). *)
Theorem session_listed_until_stopped (w : World) (id : string) :
  (forall run command cwd answer w',
      startSession run command cwd w = (answer, w') ->
      find answer "session_id" = Some (JStr id) ->
      In id (listedIds (listSessions w')))
  /\ (In id (listedIds (listSessions w)) ->
      forall ops,
        (forall op, In op ops -> stopsSession id op = false) ->
        In id (listedIds (listSessions (runOps checkCommand ops w))))
  /\ (forall signal answer w',
        stopSession id signal w = (answer, w') ->
        succeeded answer = true ->
        forall ops,
          (forall op, In op ops -> mints id op = false) ->
          let w'' := runOps checkCommand ops w' in
          ~ In id (listedIds (listSessions w''))
          /\ (forall written errtext input,
                 sendInput written errtext id input w'' = (sessionNotFound id, w''))
          /\ (forall chunksOut chunksErr,
                 readOutput chunksOut chunksErr id w'' = (sessionNotFound id, w''))
          /\ (forall signal', stopSession id signal' w'' = (sessionNotFound id, w''))).
Proof.
  split; [|split].
  - intros run command cwd answer w'. unfold startSession.
    destruct (forkpty_pid run <? 0).
    + intros [= <- <-]. discriminate.
    + intros [= <- <-]. cbn [find assoc String.eqb Ascii.eqb Bool.eqb].
      intros [= <-]. apply listed_iff.
      cbn [set_sessions g_sessions sys]. rewrite lookup_insert_eq. eauto.
  - intros Hin ops Hops. apply listed_iff. apply runOps_keeps_session; [exact Hops|].
    now apply listed_iff.
  - intros signal answer w' Hstop Hok ops Hops w''.
    assert (Hout : g_sessions w'' !! id = None).
    { apply runOps_keeps_absent; [exact Hops|].
      exact (stopSession_removes _ _ _ _ _ Hstop Hok). }
    split; [|now apply absent_session_not_found].
    rewrite listed_iff, Hout. now intros [? ?].
Qed.

End SessionTable.

Section SessionTableWitness.
Import ShellTools Sessions.
Local Open Scope Z_scope.

Lemma session_listed_until_stopped_witness :
  In sampleId (listedIds (listSessions started)) /\
  In sampleId (listedIds (listSessions (runOps denyRmRf busy started))) /\
  let stopped := snd (stopSession sampleId "TERM" (runOps denyRmRf busy started)) in
  let later := runOps denyRmRf [OpListSessions; OpChildExit 4242] stopped in
  ~ In sampleId (listedIds (listSessions later)) /\
  readOutput [] [] sampleId later = (sessionNotFound sampleId, later).
Proof.
  assert (Hlisted : In sampleId (listedIds (listSessions started))).
  { apply (proj1 (session_listed_until_stopped denyRmRf initialWorld sampleId)
             sampleStart "sh"%string "/tmp"%string
             (fst (startSession sampleStart "sh" "/tmp" initialWorld)) started);
      reflexivity. }
  assert (Hbusy : In sampleId (listedIds (listSessions (runOps denyRmRf busy started)))).
  { apply (proj1 (proj2 (session_listed_until_stopped denyRmRf started sampleId)) Hlisted).
    intros op Hop. repeat destruct Hop as [<-|Hop]; try reflexivity. contradiction. }
  split; [exact Hlisted|]. split; [exact Hbusy|].
  intros stopped later.
  destruct (proj2 (proj2 (session_listed_until_stopped denyRmRf
                            (runOps denyRmRf busy started) sampleId))
              "TERM"%string
              (fst (stopSession sampleId "TERM" (runOps denyRmRf busy started)))
              stopped) with (ops := [OpListSessions; OpChildExit 4242])
    as (Hgone & _ & Hread & _).
  - apply surjective_pairing.
  - vm_compute. reflexivity.
  - intros op Hop. repeat destruct Hop as [<-|Hop]; try reflexivity. contradiction.
  - split; [exact Hgone|apply Hread].
Defined.

End SessionTableWitness.

(** ** The command filter (C2) *)

Section CommandFilter.
Import ShellTools Sessions.
Local Open Scope Z_scope.

(** [exec] asks the filter first and, when the filter rejects the command,
    returns the error without creating pipes or a process. *)
Lemma exec_blocked_spawns_nothing (checkCommand : string -> CheckResult) (run : ExecRun)
    (command cwd : string) (timeout : Z) (w : World) :
  allowed (checkCommand command) = false ->
  exec checkCommand run command cwd timeout w
  = (JObj [("success", JBool false); ("error", JStr "Command blocked by security policy")],
     sys [EvCheckCommand command;
          EvLogBlockedCommand command (reason (checkCommand command))] w).
Proof. intros Hno. unfold exec, isBlocked. now rewrite Hno. Qed.

(** [startSession] goes to [forkpty] at once; no filter is asked. *)
Lemma startSession_syscalls (run : StartRun) (command cwd : string) (w : World) :
  syscalls (snd (startSession run command cwd w)) = syscalls w ++ [EvForkpty command cwd].
Proof. unfold startSession. now destruct (forkpty_pid run <? 0). Qed.

(** C2 (the code departs from the claim).  With a filter that rejects
    "rm -rf /", shell_exec of that command returns the blocked error and
    creates no process, but a session start with the same command asks no
    filter: it forks the pseudo-terminal child, records the session and
    returns success. *)
Theorem startSession_skips_command_filter :
  allowed (denyRmRf "rm -rf /") = false /\
  exec denyRmRf sampleExec "rm -rf /" "" 30 initialWorld
  = (JObj [("success", JBool false); ("error", JStr "Command blocked by security policy")],
     sys [EvCheckCommand "rm -rf /"; EvLogBlockedCommand "rm -rf /" "blocklist"]
         initialWorld) /\
  fst (startSession sampleStart "rm -rf /" "" initialWorld)
  = JObj [("success", JBool true); ("session_id", JStr sampleId); ("pid", JNum 4242)] /\
  syscalls (snd (startSession sampleStart "rm -rf /" "" initialWorld))
  = [EvForkpty "rm -rf /" ""] /\
  pid <$> g_sessions (snd (startSession sampleStart "rm -rf /" "" initialWorld)) !! sampleId
  = Some 4242.
Proof.
  split; [reflexivity|]. split; [now apply exec_blocked_spawns_nothing|].
  split; [reflexivity|]. split; [reflexivity|].
  unfold startSession. cbn [forkpty_pid sampleStart Z.ltb Z.compare snd set_sessions g_sessions].
  change (generateSessionId (id_digits sampleStart)) with sampleId.
  now rewrite lookup_insert_eq.
Qed.

End CommandFilter.

(** ** Checksum verification (C1, C10) *)

(** Projections of a manager built by the setters, and the tests on them. *)
Ltac manager_simpl :=
  cbv beta iota zeta delta
    [UpdateManager.notify UpdateManager.fail UpdateManager.applyUpdate
     UpdateManager.beginDownload UpdateManager.finishDownload
     UpdateManager.emit UpdateManager.set_status UpdateManager.set_downloadPath
     UpdateManager.set_failedTimestamp UpdateManager.set_cancelDownload
     UpdateManager.m_status UpdateManager.m_config UpdateManager.m_updateInfo
     UpdateManager.m_downloadPath UpdateManager.m_statusCallback
     UpdateManager.m_heartbeatCount UpdateManager.m_failedTimestamp
     UpdateManager.m_cancelDownload UpdateManager.trace UpdateManager.status_eqb
     UpdateManager.autoInstall UpdateManager.isForced UpdateManager.sha256
     UpdateManager.install_ok UpdateManager.dl_now
     Updates.installAttempted Updates.fileHashed negb orb fold_left].

Section Checksum.
Import UpdateManager Updates.
Local Open Scope Z_scope.

Lemma verifyChecksum_empty (filepath : string) (file : option (list Z)) :
  verifyChecksum filepath file "" = (true, []).
Proof. reflexivity. Qed.

Lemma verifyChecksum_declared (filepath : string) (content : list Z) (d : string) :
  d <> EmptyString ->
  verifyChecksum filepath (Some content) d
  = (String.eqb (fileDigest content) d, [EvHashFile filepath]).
Proof.
  intros Hd. unfold verifyChecksum.
  destruct (String.eqb_spec d ""); [contradiction|reflexivity].
Qed.

Lemma existsb_snoc {A} (p : A -> bool) (l : list A) (x : A) :
  existsb p (l ++ [x]) = existsb p l || p x.
Proof. rewrite existsb_app. cbn [existsb]. now rewrite orb_false_r. Qed.

Lemma beginDownload_keeps (m : Manager) :
  keepsSettings m (beginDownload m)
  /\ installAttempted (beginDownload m) = installAttempted m
  /\ fileHashed (beginDownload m) = fileHashed m.
Proof.
  destruct m as [cfg hb st ft info path cancel cb tr].
  destruct cb; manager_simpl; rewrite ?existsb_snoc, ?orb_false_r;
    repeat split; reflexivity.
Qed.

Lemma fail_fails (now : Z) (message : string) (m : Manager) :
  m_status (fail now message m) = FAILED
  /\ installAttempted (fail now message m) = installAttempted m.
Proof.
  destruct m as [cfg hb st ft info path cancel cb tr].
  destruct cb; manager_simpl; rewrite ?existsb_snoc, ?orb_false_r;
    repeat split; reflexivity.
Qed.

Lemma checkDownload_declared (run : DownloadRun) (m : Manager) (content : list Z) :
  dl_file run = Some content ->
  sha256 (m_updateInfo m) <> EmptyString ->
  exists m',
    checkDownload run m
    = (String.eqb (fileDigest content) (sha256 (m_updateInfo m)), m')
    /\ keepsSettings m m'
    /\ installAttempted m' = installAttempted m.
Proof.
  intros Hfile Hd. unfold checkDownload.
  rewrite Hfile, verifyChecksum_declared by exact Hd.
  eexists. split; [reflexivity|].
  destruct m as [cfg hb st ft info path cancel cb tr].
  manager_simpl. rewrite existsb_snoc, orb_false_r. repeat split; reflexivity.
Qed.

Lemma checkDownload_undeclared (run : DownloadRun) (m : Manager) :
  sha256 (m_updateInfo m) = EmptyString ->
  checkDownload run m = (true, m).
Proof. intros Hd. unfold checkDownload. now rewrite Hd, verifyChecksum_empty. Qed.

Lemma finishDownload_installs (run : DownloadRun) (m : Manager) :
  let m' := finishDownload run m in
  fileHashed m' = fileHashed m
  /\ if autoInstall (m_config m) || isForced (m_updateInfo m)
     then installAttempted m' = true /\ In (EvInstall (m_downloadPath m')) (trace m')
     else m_status m' = DOWNLOADED /\ installAttempted m' = installAttempted m.
Proof.
  destruct run as [ok cancelled file iok now].
  destruct m as [[url mid cur plat ar chan adl ai hbs retry] hb st ft
                 [ver ch sz d fname notes durl forced] path cancel cb tr].
  cbn [install_ok dl_now].
  destruct cb, ai, forced, iok; manager_simpl;
    rewrite ?existsb_snoc, ?orb_false_r, ?orb_true_r, ?in_app_iff; cbn [In];
    repeat split; try reflexivity; tauto.
Qed.

(** The worker of [downloadUpdate] on a download that succeeded, case by
    case on the digest and on the auto-install switch. *)
Lemma downloadWorker_declared (run : DownloadRun) (m : Manager) (content : list Z) :
  dl_success run = true -> dl_cancelled run = false -> dl_file run = Some content ->
  sha256 (m_updateInfo m) <> EmptyString ->
  installAttempted m = false ->
  let m' := downloadWorker run m in
  if String.eqb (fileDigest content) (sha256 (m_updateInfo m)) then
    installAttempted m' = (autoInstall (m_config m) || isForced (m_updateInfo m))
  else
    m_status m' = FAILED /\ installAttempted m' = false.
Proof.
  intros Hok Hcancel Hfile Hd Hnone. unfold downloadWorker.
  rewrite Hok, Hcancel. cbn [negb orb].
  destruct (beginDownload_keeps m) as ((Hc1 & Hi1) & Ha1 & _).
  destruct (checkDownload_declared run (beginDownload m) content Hfile)
    as (m2 & -> & (Hc2 & Hi2) & Ha2); [now rewrite Hi1|].
  rewrite Hi1.
  destruct (String.eqb (fileDigest content) (sha256 (m_updateInfo m))); cbn [negb].
  - destruct (finishDownload_installs run m2) as (_ & Hfin).
    rewrite Hc2, Hi2, Hc1, Hi1 in Hfin.
    destruct (autoInstall (m_config m) || isForced (m_updateInfo m)).
    + apply Hfin.
    + destruct Hfin as [_ ->]. congruence.
  - destruct (fail_fails (dl_now run) "Checksum verification failed" m2) as [-> ->].
    split; [reflexivity|congruence].
Qed.

Lemma abc_digest : fileDigest abc = abcDigest.
Proof. vm_compute. reflexivity. Qed.

(** C1, as claimed, fails: the artifact "abc" with the server-declared
    digest in capitals has the declared SHA-256 when case is ignored, yet
    the pipeline goes to FAILED and attempts no installation. *)
Lemma uppercase_digest_is_rejected :
  eq_nocase (fileDigest abc) abcDigestUpper = true /\
  autoInstall (m_config (available abcDigestUpper)) = true /\
  m_status (downloadUpdate (downloaded abc) (available abcDigestUpper)) = FAILED /\
  installAttempted (downloadUpdate (downloaded abc) (available abcDigestUpper)) = false.
Proof.
  split; [rewrite abc_digest; vm_compute; reflexivity|]. split; [reflexivity|].
  pose proof (downloadWorker_declared (downloaded abc)
                (set_cancelDownload false (available abcDigestUpper)) abc
                eq_refl eq_refl eq_refl ltac:(discriminate) eq_refl) as H.
  cbv zeta in H.
  change (sha256 (m_updateInfo (set_cancelDownload false (available abcDigestUpper))))
    with abcDigestUpper in H.
  rewrite abc_digest in H.
  change (String.eqb abcDigest abcDigestUpper) with false in H.
  exact H.
Qed.

(** A download whose digest matches, with neither auto-install nor a
    forced update, stops at DOWNLOADED. *)
Lemma downloadWorker_stops (run : DownloadRun) (m : Manager) (content : list Z) :
  dl_success run = true -> dl_cancelled run = false -> dl_file run = Some content ->
  sha256 (m_updateInfo m) <> EmptyString ->
  fileDigest content = sha256 (m_updateInfo m) ->
  autoInstall (m_config m) || isForced (m_updateInfo m) = false ->
  m_status (downloadWorker run m) = DOWNLOADED.
Proof.
  intros Hok Hcancel Hfile Hd Hsame Hauto. unfold downloadWorker.
  rewrite Hok, Hcancel. cbn [negb orb].
  destruct (beginDownload_keeps m) as ((Hc1 & Hi1) & _ & _).
  destruct (checkDownload_declared run (beginDownload m) content Hfile)
    as (m2 & -> & (Hc2 & Hi2) & _); [now rewrite Hi1|].
  rewrite Hi1, Hsame, String.eqb_refl. cbn [negb].
  destruct (finishDownload_installs run m2) as (_ & Hfin).
  rewrite Hc2, Hi2, Hc1, Hi1, Hauto in Hfin. apply Hfin.
Qed.

(** C1, amended.  For every downloaded update artifact f with a non-empty
    server-declared digest d, installation is attempted if and only if the
    lowercase hex SHA-256 of f equals d character for character (upper-case
    digits in d do not match) and installation is set to follow the
    download (auto-install, or a forced update); on mismatch the pipeline
    transitions to FAILED and the artifact is never executed, whatever the
    settings; on a match with neither auto-install nor a forced update the
    pipeline stops at DOWNLOADED. *)
Theorem install_gated_by_exact_digest (run : DownloadRun) (m : Manager) (f : list Z) :
  m_status m = AVAILABLE ->
  installAttempted m = false ->
  dl_success run = true -> dl_cancelled run = false -> dl_file run = Some f ->
  sha256 (m_updateInfo m) <> EmptyString ->
  let d := sha256 (m_updateInfo m) in
  let follows := autoInstall (m_config m) || isForced (m_updateInfo m) in
  let m' := downloadUpdate run m in
  (installAttempted m' = true <-> fileDigest f = d /\ follows = true)
  /\ (fileDigest f <> d -> m_status m' = FAILED /\ installAttempted m' = false)
  /\ (fileDigest f = d -> follows = false -> m_status m' = DOWNLOADED).
Proof.
  intros Hst Hnone Hok Hcancel Hfile Hd d follows m'.
  subst m'. unfold downloadUpdate. rewrite Hst. cbn [status_eqb negb].
  pose proof (downloadWorker_declared run (set_cancelDownload false m) f
                Hok Hcancel Hfile Hd Hnone) as H.
  cbv zeta in H. cbn [set_cancelDownload m_updateInfo m_config] in H.
  fold d follows in H.
  split; [|split].
  - destruct (String.eqb_spec (fileDigest f) d) as [E|E].
    + rewrite H. tauto.
    + destruct H as [_ ->]. split; [discriminate|tauto].
  - intros E. destruct (String.eqb_spec (fileDigest f) d) as [E'|_]; [contradiction|].
    exact H.
  - intros E Hno.
    exact (downloadWorker_stops run (set_cancelDownload false m) f
             Hok Hcancel Hfile Hd E Hno).
Qed.

Lemma install_gated_by_exact_digest_witness :
  m_status (available abcDigest) = AVAILABLE /\
  sha256 (m_updateInfo (available abcDigest)) <> EmptyString /\
  fileDigest abc = abcDigest /\
  installAttempted (downloadUpdate (downloaded abc) (available abcDigest)) = true.
Proof.
  split; [reflexivity|]. split; [discriminate|].
  pose proof abc_digest as Hdigest.
  split; [exact Hdigest|].
  apply (proj1 (install_gated_by_exact_digest (downloaded abc) (available abcDigest) abc
                  eq_refl eq_refl eq_refl eq_refl eq_refl
                  ltac:(discriminate))).
  split; [exact Hdigest|reflexivity].
Defined.

End Checksum.

Section MissingDigest.
Import UpdateManager Updates.
Local Open Scope Z_scope.
Local Open Scope st_scope.

Lemma bind_Ok {S A B} (m : ST S A) (k : A -> ST S B) (s s' : S) (b : B) :
  bind m k s = (Ok b, s') ->
  exists a s1, m s = (Ok a, s1) /\ k a s1 = (Ok b, s').
Proof.
  unfold bind. destruct (m s) as [[a|w] s1]; [eauto|discriminate].
Qed.

Lemma assign_Ok {A} (get : json -> res A) (j : json) (key : string) (dflt : A)
    (store : A -> UpdateInfo -> UpdateInfo) (m m' : Manager) :
  assign get j key dflt store m = (Ok tt, m') ->
  exists v, value get j key dflt = Ok v /\
            m_updateInfo m' = store v (m_updateInfo m).
Proof.
  unfold assign, bind, lift, modify.
  destruct (value get j key dflt) as [v|w]; [|discriminate].
  intros [= <-]. eauto.
Qed.

(** A manifest without a sha256 field leaves the declared digest empty. *)
Lemma parseUpdateInfo_no_digest (j : json) (m m' : Manager) :
  parseUpdateInfo j m = (Ok tt, m') ->
  find j "sha256" = None ->
  sha256 (m_updateInfo m') = EmptyString.
Proof.
  unfold parseUpdateInfo. intros H Hnone.
  repeat match type of H with
         | bind _ _ _ = _ =>
             apply bind_Ok in H as ([] & ? & ?%assign_Ok & H)
         end.
  apply assign_Ok in H.
  repeat match goal with
         | E : exists _, _ /\ _ |- _ => destruct E as (? & ? & ?)
         end.
  repeat match goal with
         | E : m_updateInfo _ = _ |- _ => rewrite E; clear E
         end.
  cbn [sha256 with_version with_channel with_size with_sha256 with_filename
       with_releaseNotes with_downloadUrl with_isForced].
  match goal with
  | E : value get_string j "sha256" "" = Ok ?v |- ?v = _ =>
      unfold value in E; destruct j; try discriminate;
      cbn [find] in Hnone; rewrite Hnone in E; now injection E as <-
  end.
Qed.

Lemma downloadWorker_undeclared (run : DownloadRun) (m : Manager) :
  dl_success run = true -> dl_cancelled run = false ->
  sha256 (m_updateInfo m) = EmptyString ->
  let m' := downloadWorker run m in
  fileHashed m' = fileHashed m
  /\ if autoInstall (m_config m) || isForced (m_updateInfo m)
     then In (EvInstall (m_downloadPath m')) (trace m')
     else m_status m' = DOWNLOADED.
Proof.
  intros Hok Hcancel Hd. unfold downloadWorker.
  rewrite Hok, Hcancel. cbn [negb orb].
  destruct (beginDownload_keeps m) as ((Hc1 & Hi1) & _ & Hh1).
  rewrite checkDownload_undeclared by now rewrite Hi1.
  cbn [negb].
  destruct (finishDownload_installs run (beginDownload m)) as (Hh2 & Hfin).
  rewrite Hc1, Hi1 in Hfin. split; [congruence|].
  destruct (autoInstall (m_config m) || isForced (m_updateInfo m)); apply Hfin.
Qed.

(** C10.  When the server-declared digest is the empty string,
    verifyChecksum returns true and no file is opened or hashed; the digest
    is the empty string whenever the update manifest carries no sha256
    field; and a download that succeeds for such an update reaches
    DOWNLOADED, and goes on to the installer when auto-install or a forced
    update asks for it, without any file having been digested. *)
Theorem missing_digest_skips_verification :
  (forall filepath file, verifyChecksum filepath file "" = (true, []))
  /\ (forall j m m',
         parseUpdateInfo j m = (Ok tt, m') ->
         find j "sha256" = None ->
         sha256 (m_updateInfo m') = EmptyString)
  /\ (forall run m,
         m_status m = AVAILABLE ->
         sha256 (m_updateInfo m) = EmptyString ->
         dl_success run = true -> dl_cancelled run = false ->
         let m' := downloadUpdate run m in
         fileHashed m' = fileHashed m
         /\ if autoInstall (m_config m) || isForced (m_updateInfo m)
            then In (EvInstall (m_downloadPath m')) (trace m')
            else m_status m' = DOWNLOADED).
Proof.
  split; [exact verifyChecksum_empty|]. split; [exact parseUpdateInfo_no_digest|].
  intros run m Hst Hd Hok Hcancel. unfold downloadUpdate.
  rewrite Hst. cbn [status_eqb negb].
  exact (downloadWorker_undeclared run (set_cancelDownload false m) Hok Hcancel Hd).
Qed.

Lemma missing_digest_skips_verification_witness :
  find manifestNoDigest "sha256" = None /\
  (exists m', parseUpdateInfo manifestNoDigest idle = (Ok tt, m')
              /\ sha256 (m_updateInfo m') = EmptyString) /\
  m_status (available "") = AVAILABLE /\
  sha256 (m_updateInfo (available "")) = EmptyString /\
  let m' := downloadUpdate (downloaded abc) (available "") in
  fileHashed m' = fileHashed (available "")
  /\ if autoInstall (m_config (available "")) || isForced (m_updateInfo (available ""))
     then In (EvInstall (m_downloadPath m')) (trace m')
     else m_status m' = DOWNLOADED.
Proof.
  destruct missing_digest_skips_verification as (_ & Hparse & Hrun).
  split; [reflexivity|]. split.
  - exists (snd (parseUpdateInfo manifestNoDigest idle)).
    split; [reflexivity|].
    exact (Hparse manifestNoDigest idle _ eq_refl eq_refl).
  - split; [reflexivity|]. split; [reflexivity|].
    exact (Hrun (downloaded abc) (available "") eq_refl eq_refl eq_refl eq_refl).
Defined.

End MissingDigest.

(** * Further properties *)

(** ** The URL parser *)
Section Url.
Import Connection.
Local Open Scope Z_scope.

Lemma append_nil (b : string) : String.append "" b = b.
Proof. reflexivity. Qed.

Lemma append_cons (x : ascii) (a b : string) :
  String.append (String x a) b = String x (String.append a b).
Proof. reflexivity. Qed.

Lemma find_char_absent (c : ascii) (s : string) :
  has_char c s = false -> find_char c s = None.
Proof.
  induction s as [|x s IH]; [reflexivity|]. cbn [has_char find_char].
  destruct (Ascii.eqb x c); [discriminate|]. intros H. now rewrite (IH H).
Qed.

Lemma find_char_first (c : ascii) (a b : string) :
  has_char c a = false ->
  find_char c (String.append a (String c b)) = Some (String.length a).
Proof.
  induction a as [|x a IH].
  - intros _. rewrite append_nil. cbn [find_char]. now rewrite Ascii.eqb_refl.
  - rewrite append_cons. cbn [has_char find_char String.length].
    destruct (Ascii.eqb x c); [discriminate|]. intros H. now rewrite (IH H).
Qed.

Lemma has_char_app (c : ascii) (a b : string) :
  has_char c (String.append a b) = has_char c a || has_char c b.
Proof.
  induction a as [|x a IH]; [reflexivity|]. rewrite append_cons. cbn [has_char].
  now rewrite IH, orb_assoc.
Qed.

Lemma take_app (a b : string) : take (String.length a) (String.append a b) = a.
Proof.
  induction a as [|x a IH]; [now destruct b|].
  rewrite append_cons. cbn [String.length take]. now rewrite IH.
Qed.

Lemma drop_app (a b : string) : drop (String.length a) (String.append a b) = b.
Proof. induction a as [|x a IH]; [now destruct b|]. exact IH. Qed.

Lemma append_empty (a : string) : String.append a "" = a.
Proof. induction a as [|x a IH]; [reflexivity|]. rewrite append_cons. now rewrite IH. Qed.

Lemma append_assoc (a b c : string) :
  String.append (String.append a b) c = String.append a (String.append b c).
Proof. induction a as [|x a IH]; [reflexivity|]. rewrite !append_cons. now rewrite IH. Qed.

Lemma digit_cases (d : Z) :
  is_digit_value d = true ->
  d = 0 \/ d = 1 \/ d = 2 \/ d = 3 \/ d = 4 \/ d = 5 \/ d = 6 \/ d = 7 \/ d = 8 \/ d = 9.
Proof. unfold is_digit_value. lia. Qed.

Lemma has_char_digits (c : ascii) (ds : list Z) :
  digit_of c = None -> forallb is_digit_value ds = true ->
  has_char c (digits_string ds) = false.
Proof.
  intros Hc. induction ds as [|d ds IH]; [reflexivity|].
  cbn [forallb digits_string has_char]. intros [Hd Hds]%andb_prop.
  rewrite (IH Hds), orb_false_r.
  destruct (Ascii.eqb_spec (ascii_of_N (Z.to_N (48 + d))) c) as [<-|]; [|reflexivity].
  exfalso. revert Hc.
  destruct (digit_cases d Hd) as [->|[->|[->|[->|[->|[->|[->|[->|[->| ->]]]]]]]]];
    discriminate.
Qed.

Lemma leading_digits_all (ds : list Z) :
  forallb is_digit_value ds = true ->
  forall acc seen,
    leading_digits acc seen (digits_string ds)
    = if seen || negb (Nat.eqb (List.length ds) 0)
      then Some (fold_left (fun acc d => acc * 10 + d) ds acc) else None.
Proof.
  induction ds as [|d ds IH]; intros Hds acc seen.
  - cbn. now destruct seen.
  - cbn [forallb] in Hds. apply andb_prop in Hds as [Hd Hds].
    cbn [digits_string leading_digits fold_left List.length Nat.eqb negb].
    rewrite orb_true_r.
    assert (Hdigit : digit_of (ascii_of_N (Z.to_N (48 + d))) = Some d).
    { destruct (digit_cases d Hd) as [->|[->|[->|[->|[->|[->|[->|[->|[->| ->]]]]]]]]];
        reflexivity. }
    rewrite Hdigit, (IH Hds). reflexivity.
Qed.

Lemma digits_fold_nonneg (ds : list Z) :
  forallb is_digit_value ds = true ->
  forall acc, 0 <= acc -> 0 <= fold_left (fun acc d => acc * 10 + d) ds acc.
Proof.
  induction ds as [|d ds IH]; intros Hds acc Hacc; [exact Hacc|].
  cbn [forallb] in Hds. apply andb_prop in Hds as [Hd Hds]. cbn [fold_left].
  apply (IH Hds). unfold is_digit_value in Hd. lia.
Qed.

Lemma digits_value_nonneg (ds : list Z) :
  forallb is_digit_value ds = true -> 0 <= digits_value ds.
Proof. intros Hds. apply (digits_fold_nonneg ds Hds). lia. Qed.

(** [stoi] reads a string of digits as its value, within [int]. *)
Lemma stoi_digits (ds : list Z) :
  forallb is_digit_value ds = true -> ds <> [] -> digits_value ds <= INT_MAX ->
  stoi (digits_string ds) = Ok (digits_value ds).
Proof.
  intros Hds Hne Hmax. pose proof (digits_value_nonneg ds Hds) as Hpos.
  destruct ds as [|d ds]; [contradiction|].
  unfold stoi.
  assert (Hskip : skip_spaces (digits_string (d :: ds)) = digits_string (d :: ds)).
  { cbn [forallb] in Hds. apply andb_prop in Hds as [Hd _].
    destruct (digit_cases d Hd) as [->|[->|[->|[->|[->|[->|[->|[->|[->| ->]]]]]]]]];
      reflexivity. }
  rewrite Hskip.
  assert (Hsign : (match digits_string (d :: ds) with
                   | String "-" rest => (true, rest)
                   | String "+" rest => (false, rest)
                   | _ => (false, digits_string (d :: ds))
                   end) = (false, digits_string (d :: ds))).
  { cbn [forallb] in Hds. apply andb_prop in Hds as [Hd _].
    destruct (digit_cases d Hd) as [->|[->|[->|[->|[->|[->|[->|[->|[->| ->]]]]]]]]];
      reflexivity. }
  rewrite Hsign, (leading_digits_all _ Hds). cbn [List.length Nat.eqb negb orb].
  fold (digits_value (d :: ds)).
  replace (INT_MIN <=? digits_value (d :: ds)) with true
    by (symmetry; apply Z.leb_le; unfold INT_MIN; lia).
  replace (digits_value (d :: ds) <=? INT_MAX) with true
    by (symmetry; apply Z.leb_le; exact Hmax).
  reflexivity.
Qed.

End Url.
Section Url2.
Import Connection Urls.
Local Open Scope Z_scope.

Lemma isPath_find (path : string) (a : string) :
  isPath path = true -> has_char "/" a = false ->
  match find_char "/" (String.append a path) with
  | Some pathPos => (take pathPos (String.append a path), drop pathPos (String.append a path))
  | None => (String.append a path, "/"%string)
  end = (a, pathOrRoot path).
Proof.
  intros Hpath Ha. destruct path as [|c p].
  - rewrite append_empty, (find_char_absent _ _ Ha). reflexivity.
  - cbn [isPath] in Hpath. apply Ascii.eqb_eq in Hpath as ->.
    rewrite (find_char_first _ _ _ Ha), take_app, drop_app. reflexivity.
Qed.

Lemma parseUrl_scheme (ssl : bool) (rest : string) :
  parseUrl (String.append (scheme ssl) rest)
  = let (host, path) :=
        match find_char "/" rest with
        | Some pathPos => (take pathPos rest, drop pathPos rest)
        | None => (rest, "/"%string)
        end in
    match find_char ":" host with
    | Some portPos =>
        match stoi (drop (portPos + 1) host) with
        | Ok p => Ok (Some {| url_host := take portPos host; url_path := path;
                              url_port := p; url_useSSL := ssl |})
        | Throw w => Throw w
        end
    | None => Ok (Some {| url_host := host; url_path := path;
                          url_port := defaultPort ssl; url_useSSL := ssl |})
    end.
Proof. destruct ssl, rest; reflexivity. Qed.

(** What [parseUrl] makes of a written URL: the port is whatever [stoi]
    reads from the text after the colon. *)
Lemma parseUrl_written (ssl : bool) (host : string) (port : option string)
    (path : string) :
  isHost host = true -> isPath path = true ->
  match port with Some text => has_char "/" text = false | None => True end ->
  parseUrl (written ssl host port path)
  = match port with
    | Some text =>
        match stoi text with
        | Ok p => Ok (Some {| url_host := host; url_path := pathOrRoot path;
                              url_port := p; url_useSSL := ssl |})
        | Throw w => Throw w
        end
    | None => Ok (Some {| url_host := host; url_path := pathOrRoot path;
                          url_port := defaultPort ssl; url_useSSL := ssl |})
    end.
Proof.
  unfold isHost. intros [Hcolon Hslash]%andb_prop Hpath Hport.
  apply negb_true_iff in Hcolon, Hslash.
  unfold written. rewrite parseUrl_scheme, <- append_assoc.
  destruct port as [text|].
  - rewrite isPath_find; [|exact Hpath|].
    2:{ rewrite has_char_app, Hslash. cbn [has_char orb]. now rewrite Hport. }
    rewrite (find_char_first _ _ _ Hcolon).
    replace (String.length host + 1)%nat with (String.length (String.append host ":")).
    2:{ clear. induction host as [|x h IH]; [reflexivity|].
        rewrite append_cons. cbn [String.length]. now rewrite IH. }
    change (String.append host (String ":" text))
      with (String.append host (String.append ":" text)).
    rewrite <- (append_assoc host ":" text), drop_app.
    rewrite (append_assoc host ":" text). change (String.append ":" text) with (String ":" text).
    rewrite take_app. reflexivity.
  - rewrite append_empty, isPath_find; [|exact Hpath|exact Hslash].
    now rewrite (find_char_absent _ _ Hcolon).
Qed.
End Url2.
Section Url3.
Import Connection Urls.
Local Open Scope Z_scope.

(** X1.  [parseUrl] reads back a URL written as scheme, host, optional
    decimal port and path: it returns the host, the path (or "/" when there
    is none), the port (443 for wss and 80 for ws when there is none) and
    the TLS flag.  The port is any number up to INT_MAX: it is not checked
    against the range of TCP ports. *)
Theorem parseUrl_reads_written_url (ssl : bool) (host : string) (port : option (list Z))
    (path : string) :
  isHost host = true -> isPath path = true ->
  match port with
  | Some ds => forallb is_digit_value ds = true /\ ds <> [] /\ digits_value ds <= INT_MAX
  | None => True
  end ->
  parseUrl (written ssl host (option_map digits_string port) path)
  = Ok (Some {| url_host := host; url_path := pathOrRoot path;
                url_port := match port with
                            | Some ds => digits_value ds
                            | None => defaultPort ssl
                            end;
                url_useSSL := ssl |}).
Proof.
  intros Hhost Hpath Hport. rewrite (parseUrl_written ssl host _ path Hhost Hpath).
  - destruct port as [ds|]; [|reflexivity]. cbn [option_map].
    destruct Hport as (Hds & Hne & Hmax). now rewrite (stoi_digits ds Hds Hne Hmax).
  - destruct port as [ds|]; [|exact I]. cbn [option_map].
    apply has_char_digits; [reflexivity|apply Hport].
Qed.

Lemma parseUrl_reads_written_url_witness :
  parseUrl (written true "control.example" (option_map digits_string (Some [8; 4; 4; 3])) "/ws")
  = Ok (Some {| url_host := "control.example"; url_path := pathOrRoot "/ws";
                url_port := digits_value [8; 4; 4; 3]; url_useSSL := true |}).
Proof.
  apply (parseUrl_reads_written_url true "control.example" (Some [8; 4; 4; 3]) "/ws").
  - reflexivity.
  - reflexivity.
  - split; [reflexivity|]. split; [discriminate|]. vm_compute. discriminate.
Defined.

(** X2.  When the text after the colon is not a number that [std::stoi]
    accepts (it is empty, does not start with digits, or is beyond [int]),
    [parseUrl] does not return false: the exception of [std::stoi] leaves
    it. *)
Theorem parseUrl_port_exception (ssl : bool) (host text path what : string) :
  isHost host = true -> isPath path = true -> has_char "/" text = false ->
  stoi text = Throw what ->
  parseUrl (written ssl host (Some text) path) = Throw what.
Proof.
  intros Hhost Hpath Htext Hstoi.
  rewrite (parseUrl_written ssl host (Some text) path Hhost Hpath Htext).
  now rewrite Hstoi.
Qed.

Lemma parseUrl_port_exception_witness :
  parseUrl (written false "control.example" (Some "") "/ws")
  = Throw "stoi: invalid argument".
Proof.
  apply (parseUrl_port_exception false "control.example" "" "/ws");
    reflexivity.
Defined.

(** X3.  [ConnectionConfig::load] reads back what [ConnectionConfig::save]
    writes, whatever the fields held before. *)
Theorem load_reads_what_save_writes (c before : ConnectionConfig) :
  load (Some (Ok (saved c))) before = (true, c).
Proof. destruct c, before. reflexivity. Qed.

Ltac load_step j :=
  match goal with
  | |- context [match find j ?k with _ => _ end] => destruct (find j k) as [?|] eqn:?
  | |- context [match get_string ?v with _ => _ end] => destruct (get_string v)
  | |- context [match get_bool ?v with _ => _ end] => destruct (get_bool v)
  end.

(** X4.  [ConnectionConfig::load] leaves a field as it was when the file
    has no key for it, also when the call fails on another field. *)
Theorem load_keeps_fields_without_key (j : json) (c : ConnectionConfig) :
  let after := snd (load (Some (Ok j)) c) in
  (find j "serverUrl" = None -> serverUrl after = serverUrl c)
  /\ (find j "endpointUuid" = None -> endpointUuid after = endpointUuid c)
  /\ (find j "customerId" = None -> customerId after = customerId c)
  /\ (find j "agentName" = None -> agentName after = agentName c)
  /\ (find j "connectOnStartup" = None -> connectOnStartup after = connectOnStartup c).
Proof.
  destruct c. unfold load, loadFields, loadField, bind, lift, modify, ret.
  repeat (load_step j; cbn beta iota);
    cbn; repeat split; intros; first [discriminate|reflexivity].
Qed.

(** X5.  [ConnectionConfig::load] is not all-or-nothing: when a later key
    has a value of the wrong type the call returns false, and the fields
    read before it keep their new values. *)
Theorem load_failure_keeps_earlier_fields (j : json) (c : ConnectionConfig)
    (url what : string) (v : json) :
  find j "serverUrl" = Some (JStr url) ->
  find j "endpointUuid" = Some v -> get_string v = Throw what ->
  load (Some (Ok j)) c = (false, with_serverUrl url c).
Proof.
  intros Hurl Hid Hv. unfold load, loadFields, loadField, bind, lift, modify, ret.
  rewrite Hurl, Hid. cbn [get_string]. now rewrite Hv.
Qed.

Lemma load_failure_keeps_earlier_fields_witness :
  load (Some (Ok (JObj [("serverUrl", JStr "ws://other.example");
                        ("endpointUuid", JNum 7)]))) sampleConnection
  = (false, with_serverUrl "ws://other.example" sampleConnection).
Proof.
  apply (load_failure_keeps_earlier_fields _ sampleConnection "ws://other.example"
           type_error_302 (JNum 7)); reflexivity.
Defined.
End Url3.

(** ** The dispatcher, its tool list and its callers *)
Section Dispatch2.
Import CommandDispatcher Tools Service Requests WebSocketClient.
Local Open Scope Z_scope.

Lemma dispatch_unfold (h : Handlers) (method : string) (params : json) :
  dispatch h method params
  = match dispatchTry h
            (fun toolName arguments =>
               match dispatchFuel (S (height params)) h toolName arguments with
               | Some (evs, r) => Some (evs, Ok r)
               | None => None
               end) method params with
    | Some m => Some (catchAll m)
    | None => None
    end.
Proof.
  unfold dispatch. replace (height params + 2)%nat with (S (S (height params))) by lia.
  reflexivity.
Qed.

Lemma isGuiMethod_spec (method : string) :
  isGuiMethod method = true <-> In method GUI_METHODS.
Proof.
  split; [|apply isGuiMethod_In].
  unfold isGuiMethod. intros (name & Hin & Heq)%existsb_exists.
  apply String.eqb_eq in Heq. now subst.
Qed.

Lemma dispatch_gui (h : Handlers) (method : string) (params : json) :
  isGuiMethod method = true ->
  dispatch h method params
  = Some match m_guiProxy h with
         | Some proxy => catchAll (callGuiProxy proxy method params)
         | None => ([], errorResponse "GUI operations unavailable - tray app not connected")
         end.
Proof.
  intros Hgui. rewrite dispatch_unfold. unfold dispatchTry. rewrite Hgui.
  now destruct (m_guiProxy h).
Qed.

(** The answer of the [try] block does not depend on how far the nested
    [dispatch] may unfold, once that is far enough. *)
Lemma dispatchTry_mono (h : Handlers) (rec rec' : string -> json -> option (D json))
    (method : string) (params : json) (m : D json) :
  (forall toolName arguments x, rec toolName arguments = Some x ->
                                rec' toolName arguments = Some x) ->
  dispatchTry h rec method params = Some m ->
  dispatchTry h rec' method params = Some m.
Proof.
  intros Hrec. unfold dispatchTry.
  destruct (isGuiMethod method); [exact (fun H => H)|].
  repeat match goal with
         | |- (if ?b then _ else _) = _ -> _ => destruct b; [exact (fun H => H)|]
         end.
  destruct (methodIs method "tools/call").
  - destruct (value_string params "name" ""); [|exact (fun H => H)].
    destruct (value_json params "arguments" (JObj [])); [|exact (fun H => H)].
    destruct (String.eqb _ ""); [exact (fun H => H)|]. apply Hrec.
  - exact (fun H => H).
Qed.

Lemma dispatchFuel_mono (h : Handlers) (fuel : nat) :
  forall fuel' method params x,
    (fuel <= fuel')%nat ->
    dispatchFuel fuel h method params = Some x ->
    dispatchFuel fuel' h method params = Some x.
Proof.
  induction fuel as [|fuel IH]; intros fuel' method params x Hle; [discriminate|].
  destruct fuel' as [|fuel']; [lia|]. cbn [dispatchFuel]. cbv zeta.
  match goal with
  | |- match dispatchTry h ?rec method params with _ => _ end = _ -> _ =>
      destruct (dispatchTry h rec method params) as [m|] eqn:Htry; [|discriminate]
  end.
  intros [= <-].
  match type of Htry with
  | dispatchTry h ?rec method params = _ =>
      match goal with
      | |- match dispatchTry h ?rec' method params with _ => _ end = _ =>
          rewrite (dispatchTry_mono h rec rec' method params m); [reflexivity| |exact Htry]
      end
  end.
  intros toolName arguments y.
  destruct (dispatchFuel fuel h toolName arguments) as [[evs r]|] eqn:Hin; [|discriminate].
  intros [= <-]. rewrite (IH fuel' toolName arguments (evs, r)); [reflexivity|lia|exact Hin].
Qed.

(** Any bound that lets [dispatchFuel] answer gives the answer of
    [dispatch]. *)
Lemma dispatchFuel_dispatch (h : Handlers) (fuel : nat) (method : string) (params : json) :
  is_Some (dispatchFuel fuel h method params) ->
  dispatchFuel fuel h method params = dispatch h method params.
Proof.
  intros [x Hx]. destruct (dispatch_returns h method params) as [y Hy].
  unfold dispatch in *.
  destruct (Nat.le_ge_cases fuel (height params + 2)) as [Hle|Hge].
  - rewrite (dispatchFuel_mono h fuel _ method params x Hle Hx) in Hy.
    injection Hy as <-. rewrite Hx. symmetry.
    exact (dispatchFuel_mono h fuel _ method params x Hle Hx).
  - rewrite Hy. exact (dispatchFuel_mono h _ fuel method params y Hge Hy).
Qed.
End Dispatch2.
Section Dispatch3.
Import CommandDispatcher Tools Service Requests WebSocketClient Dispatchers.
Local Open Scope Z_scope.

(** X6.  [tools/call] is transparent: with a non-empty string [name],
    [dispatch("tools/call", params)] calls the same handlers and returns the
    same answer as [dispatch(name, arguments)], where [arguments] is the
    value of that key, or the empty object when the key is absent. *)
Theorem tools_call_is_dispatch_of_name (h : Handlers) (params : json)
    (toolName : string) (arguments : json) :
  value_string params "name" "" = Ok toolName -> toolName <> EmptyString ->
  value_json params "arguments" (JObj []) = Ok arguments ->
  dispatch h "tools/call" params = dispatch h toolName arguments.
Proof.
  intros Hname Hne Hargs. rewrite dispatch_unfold.
  assert (Htry : forall rec, dispatchTry h rec "tools/call" params = rec toolName arguments).
  { intros rec. unfold dispatchTry.
    change (isGuiMethod "tools/call") with false. cbv iota.
    repeat match goal with
           | |- context [methodIs "tools/call" ?name] =>
               change (methodIs "tools/call" name) with false
           end.
    cbn [orb]. cbv iota. change (methodIs "tools/call" "tools/call") with true. cbv iota.
    rewrite Hname, Hargs.
    destruct (String.eqb_spec toolName ""); [contradiction|reflexivity]. }
  rewrite Htry.
  assert (Hsome : is_Some (dispatchFuel (S (height params)) h toolName arguments)).
  { apply dispatchFuel_returns. destruct params; try discriminate.
    unfold value_json, value in Hargs.
    destruct (assoc "arguments" fields) as [v|] eqn:Hv.
    - injection Hargs as <-. apply assoc_height in Hv. left. lia.
    - injection Hargs as <-. right. split; [reflexivity|lia]. }
  rewrite (dispatchFuel_dispatch h _ toolName arguments Hsome).
  destruct (dispatch_returns h toolName arguments) as [[evs r] ->]. reflexivity.
Qed.

Lemma tools_call_is_dispatch_of_name_witness :
  dispatch echoProxy "tools/call"
    (JObj [("name", JStr "screenshot"); ("arguments", JObj [("format", JStr "png")])])
  = dispatch echoProxy "screenshot" (JObj [("format", JStr "png")]).
Proof.
  apply (tools_call_is_dispatch_of_name echoProxy _ "screenshot"
           (JObj [("format", JStr "png")])); [reflexivity|discriminate|reflexivity].
Defined.

Lemma existsb_not_In (method : string) (names : list string) :
  existsb (String.eqb method) names = false -> ~ In method names.
Proof.
  intros Hno Hin. assert (Hyes : existsb (String.eqb method) names = true).
  { apply existsb_exists. exists method. split; [exact Hin|apply String.eqb_refl]. }
  congruence.
Qed.

Lemma not_local (method : string) :
  ~ In method LOCAL_METHODS ->
  forall name, existsb (String.eqb name) LOCAL_METHODS = true ->
               methodIs method name = false.
Proof.
  intros Hnot name (x & Hin & Heq)%existsb_exists. apply String.eqb_eq in Heq. subst x.
  unfold methodIs. destruct (String.eqb_spec method name); [subst; contradiction|reflexivity].
Qed.

(** X7.  A method that is neither in the GUI set nor one of the names the
    branches of [dispatch] compare with is answered with the error
    "Unknown method: " followed by the method, and no handler is called. *)
Theorem unknown_method_error (h : Handlers) (method : string) (params : json) :
  ~ In method GUI_METHODS -> ~ In method LOCAL_METHODS ->
  dispatch h method params
  = Some ([], errorResponse (String.append "Unknown method: " method)).
Proof.
  intros Hgui Hlocal. rewrite dispatch_unfold. unfold dispatchTry.
  destruct (isGuiMethod method) eqn:Hg; [now apply isGuiMethod_spec in Hg|].
  pose proof (not_local method Hlocal) as Hno.
  repeat match goal with
         | |- context [methodIs method ?name] =>
             rewrite (Hno name eq_refl)
         end.
  reflexivity.
Qed.

Lemma unknown_method_error_witness :
  dispatch echoProxy "fs_copy" (JObj [])
  = Some ([], errorResponse (String.append "Unknown method: " "fs_copy")).
Proof.
  apply (unknown_method_error echoProxy "fs_copy" (JObj []));
    apply existsb_not_In; reflexivity.
Defined.
End Dispatch3.
Section Dispatch4.
Import CommandDispatcher Tools Service Requests WebSocketClient Dispatchers.
Local Open Scope Z_scope.

Lemma existsb_In (method : string) (names : list string) :
  existsb (String.eqb method) names = true -> In method names.
Proof. intros (x & Hin & Heq)%existsb_exists. apply String.eqb_eq in Heq. now subst. Qed.

(** The tools of the list that [dispatch] hands to a local handler. *)
Lemma listed_local_tool (h : Handlers) (name : string) (params : json) :
  In name ["system_info"; "clipboard_read"; "clipboard_write"; "machine_lock";
           "machine_unlock"; "fs_list"; "fs_read"; "fs_read_range"; "fs_write";
           "fs_delete"; "fs_move"; "fs_search"; "fs_grep"; "fs_patch"; "shell_exec";
           "shell_start_session"; "shell_send_input"; "shell_read_output";
           "shell_stop_session"]%string ->
  exists call, dispatch h name params = Some (catchAll (callLocal h call params)).
Proof.
  intros Hin. rewrite dispatch_unfold. cbn [In] in Hin.
  repeat (destruct Hin as [<-|Hin]; [eexists; reflexivity|]).
  contradiction.
Qed.

Lemma toolNames_any (windows browserAvailable : bool) (name : string) :
  In name (toolNames windows browserAvailable) -> In name (toolNames true true).
Proof.
  unfold toolNames, listedTools. rewrite !in_app_iff.
  intros [[H|[H|H]]|H].
  - left. left. exact H.
  - destruct windows; [left; right; left; exact H|destruct H].
  - left. right. right. exact H.
  - destruct browserAvailable; [right; exact H|destruct H].
Qed.

(** X8.  Every tool that [handleToolsList] lists, on either platform and
    with or without the browser tools, is served: [dispatch] of its name
    calls exactly one handler, the GUI proxy (when one is registered) or a
    local handler, with the params unchanged.  None of the listed names is
    answered with "Unknown method". *)
Theorem listed_tools_reach_a_handler (h : Handlers) (windows browserAvailable : bool)
    (name : string) (params : json) :
  In name (toolNames windows browserAvailable) -> m_guiProxy h <> None ->
  exists ev answer,
    dispatch h name params = Some ([ev], answer)
    /\ (ev = EvGuiProxy name params \/ exists call, ev = EvLocal call params).
Proof.
  intros Hin Hproxy.
  assert (Hall : forallb (fun n => isGuiMethod n
                   || existsb (String.eqb n)
                        ["system_info"; "clipboard_read"; "clipboard_write"; "machine_lock";
                         "machine_unlock"; "fs_list"; "fs_read"; "fs_read_range";
                         "fs_write"; "fs_delete"; "fs_move"; "fs_search"; "fs_grep";
                         "fs_patch"; "shell_exec"; "shell_start_session";
                         "shell_send_input"; "shell_read_output";
                         "shell_stop_session"]%string) (toolNames true true) = true)
    by reflexivity.
  apply toolNames_any in Hin as Hin'.
  apply (proj1 (forallb_forall _ _) Hall) in Hin'.
  apply orb_prop in Hin' as [Hgui|Hlocal].
  - rewrite (dispatch_gui h name params Hgui).
    destruct (m_guiProxy h) as [proxy|]; [|contradiction].
    unfold callGuiProxy, catchAll.
    destruct (proxy name params); eexists; eexists; (split; [reflexivity|now left]).
  - apply existsb_In in Hlocal as Hx.
    destruct (listed_local_tool h name params Hx) as [call ->].
    unfold callLocal, catchAll.
    destruct (localHandler h call params); eexists; eexists;
      (split; [reflexivity|right; now exists call]).
Qed.

Lemma listed_tools_reach_a_handler_witness :
  exists ev answer,
    dispatch echoProxy "fs_read" (JObj [("path", JStr "/etc/hostname")])
    = Some ([ev], answer)
    /\ (ev = EvGuiProxy "fs_read" (JObj [("path", JStr "/etc/hostname")])
        \/ exists call, ev = EvLocal call (JObj [("path", JStr "/etc/hostname")])).
Proof.
  apply (listed_tools_reach_a_handler echoProxy false false "fs_read"
           (JObj [("path", JStr "/etc/hostname")])).
  - apply existsb_In. reflexivity.
  - discriminate.
Defined.
End Dispatch4.
Section Dispatch5.
Import CommandDispatcher Tools Service Requests WebSocketClient Dispatchers.
Local Open Scope Z_scope.

Lemma quiet_bind {A B} (m : D A) (k : A -> D B) :
  existsb isSleep (fst m) = false ->
  (forall a, existsb isSleep (fst (k a)) = false) ->
  existsb isSleep (fst (bindD m k)) = false.
Proof.
  destruct m as [evs [a|w]]; cbn [bindD fst]; intros Hm Hk; [|exact Hm].
  specialize (Hk a). destruct (k a) as [evs' r]. cbn [fst] in *.
  now rewrite existsb_app, Hm, Hk.
Qed.

Ltac quiet :=
  repeat match goal with
         | |- existsb isSleep (fst (bindD ?m ?k)) = false =>
             apply (quiet_bind m k); [|intros ?]
         | |- existsb isSleep (fst (if ?b then _ else _)) = false => destruct b
         | |- existsb isSleep (fst (liftD _)) = false => reflexivity
         | |- existsb isSleep (fst (retD _)) = false => reflexivity
         | |- existsb isSleep (fst (callLocal _ _ _)) = false => reflexivity
         end.

Lemma from_Some {A} (P : A -> Prop) (x m : A) : P x -> Some x = Some m -> P m.
Proof. intros H [= <-]. exact H. Qed.

Ltac no_sleep :=
  match goal with
  | |- Some ?x = Some ?m -> _ =>
      apply (from_Some (fun d => existsb isSleep (fst d) = false) x m);
      solve [quiet]
  end.

Lemma dispatchTry_never_sleeps (h : Handlers) (rec : string -> json -> option (D json))
    (method : string) (params : json) (m : D json) :
  (forall toolName arguments x, rec toolName arguments = Some x ->
                                existsb isSleep (fst x) = false) ->
  dispatchTry h rec method params = Some m -> existsb isSleep (fst m) = false.
Proof.
  intros Hrec. unfold dispatchTry.
  destruct (isGuiMethod method) eqn:Hgui.
  { destruct (m_guiProxy h);
      (apply (from_Some (fun d => existsb isSleep (fst d) = false)); reflexivity). }
  repeat match goal with
         | |- (if methodIs method "wait" then _ else _) = _ -> _ =>
             destruct (String.eqb_spec method "wait") as [->|Hwait];
             [discriminate Hgui|
              unfold methodIs at 1;
              replace (String.eqb method "wait") with false
                by (symmetry; apply String.eqb_neq; exact Hwait)]
         | |- (if methodIs method "tools/call" then _ else _) = _ -> _ => fail 1
         | |- (if ?b then _ else _) = _ -> _ => destruct b; [no_sleep|]
         end.
  destruct (methodIs method "tools/call").
  - destruct (value_string params "name" ""); [|no_sleep].
    destruct (value_json params "arguments" (JObj [])); [|no_sleep].
    destruct (String.eqb _ ""); [no_sleep|]. apply Hrec.
  - destruct (_ || _); no_sleep.
Qed.

Lemma dispatchFuel_never_sleeps (h : Handlers) (fuel : nat) :
  forall method params evs answer,
    dispatchFuel fuel h method params = Some (evs, answer) ->
    existsb isSleep evs = false.
Proof.
  induction fuel as [|fuel IH]; intros method params evs answer; [discriminate|].
  cbn [dispatchFuel]. cbv zeta.
  match goal with
  | |- match dispatchTry h ?rec method params with _ => _ end = _ -> _ =>
      destruct (dispatchTry h rec method params) as [m|] eqn:Htry; [|discriminate]
  end.
  intros [= Hm]. apply dispatchTry_never_sleeps in Htry.
  - destruct m as [evs' [r|w]]; cbn in Hm; injection Hm as <- _; exact Htry.
  - intros toolName arguments x.
    destruct (dispatchFuel fuel h toolName arguments) as [[evs' r]|] eqn:Hin; [|discriminate].
    intros [= <-]. exact (IH _ _ _ _ Hin).
Qed.

(** X9.  [dispatch] answers every call without sleeping: [wait] is in the
    GUI set, which is tested first, so the branch of [dispatch] that sleeps
    for [milliseconds] is never taken, also not through [tools/call]. *)
Theorem dispatch_never_sleeps (h : Handlers) (method : string) (params : json) :
  exists evs answer,
    dispatch h method params = Some (evs, answer) /\ existsb isSleep evs = false.
Proof.
  destruct (dispatch_returns h method params) as [[evs answer] Heq].
  exists evs, answer. split; [exact Heq|].
  exact (dispatchFuel_never_sleeps h _ method params evs answer Heq).
Qed.

(** X10.  As [main] wires the dispatcher, a GUI method is answered from
    the tray app's /tool endpoint: the parsed body when the status is 200,
    {"error": "Invalid response from tray app"} when that body is not JSON,
    and {"error": "Tray app unavailable"} when there is no response or
    another status.  The request sent carries the method and the params
    unchanged, and no local handler runs. *)
Theorem gui_method_through_tray_app (post : json -> option (Z * res json))
    (handler : LocalCall -> json -> res json) (method : string) (params : json) :
  In method GUI_METHODS ->
  dispatch (wired post handler) method params
  = Some ([EvGuiProxy method params],
          match post (JObj [("method", JStr method); ("params", params)]) with
          | Some (status, body) =>
              if status =? 200 then
                match body with
                | Ok answer => answer
                | Throw _ => JObj [("error", JStr "Invalid response from tray app")]
                end
              else JObj [("error", JStr "Tray app unavailable")]
          | None => JObj [("error", JStr "Tray app unavailable")]
          end).
Proof.
  intros Hin. rewrite (dispatch_gui _ method params (isGuiMethod_In method Hin)).
  cbn [wired m_guiProxy]. unfold callGuiProxy, catchAll, guiProxy.
  destruct (post _) as [[status [answer|what]]|]; [| |reflexivity];
    now destruct (status =? 200).
Qed.

Lemma gui_method_through_tray_app_witness :
  dispatch (wired (fun _ => None) (fun _ _ => Ok JNull)) "screenshot" (JObj [])
  = Some ([EvGuiProxy "screenshot" (JObj [])],
          JObj [("error", JStr "Tray app unavailable")]).
Proof.
  apply (gui_method_through_tray_app (fun _ => None) (fun _ _ => Ok JNull)
           "screenshot" (JObj [])).
  apply existsb_In. reflexivity.
Defined.
End Dispatch5.

(** ** Requests from the control server *)
Section Requests2.
Import CommandDispatcher Service Requests WebSocketClient Dispatchers Acks Dumps.
Local Open Scope Z_scope.

(** X11.  With the dispatcher as command callback, as [main] registers it,
    a request whose id and method are strings (or absent) is answered with
    at most one message, a [response] that carries the request's id.  When
    the response can be serialised it carries, in its [result] field, the
    answer of [dispatch] for the method and params: what the dispatcher
    reports as an error (an unknown method, an exception of a handler)
    travels inside [result].  When [dump] raises on the response (the
    answer holds a string that is not UTF-8) the reply is the error response
    with the text of that exception, and when that cannot be serialised
    either, nothing is sent. *)
Theorem request_answered_in_result (dump : json -> res string) (h : Handlers)
    (j : json) (c : Client) (requestId method : string) (params : json) :
  value_string j "id" "" = Ok requestId ->
  value_string j "method" "" = Ok method ->
  value_json j "params" (JObj []) = Ok params ->
  exists evs answer,
    dispatch h method params = Some (evs, answer)
    /\ handleRequestMessage dump (Some (commandCallback h)) j c
       = (Ok tt,
          match dump (responseMessage requestId answer) with
          | Ok _ => emit (EvSendMessage (responseMessage requestId answer)) c
          | Throw what =>
              match dump (errorMessage requestId what) with
              | Ok _ => emit (EvSendMessage (errorMessage requestId what)) c
              | Throw _ => c
              end
          end).
Proof.
  intros Hid Hmethod Hparams.
  destruct (dispatch_returns h method params) as [[evs answer] Heq].
  exists evs, answer. split; [exact Heq|].
  unfold handleRequestMessage, handleRequest, sendResponse, sendError, sendMessage,
    catch, bind, lift, modify.
  rewrite Hid, Hmethod, Hparams. unfold commandCallback. rewrite Heq.
  destruct (dump (responseMessage requestId answer)) as [text|what]; [reflexivity|].
  destruct (dump (errorMessage requestId what)); reflexivity.
Qed.

Lemma request_answered_in_result_witness :
  exists evs answer,
    dispatch noProxy "fs_copy" (JObj []) = Some (evs, answer)
    /\ handleRequestMessage dumpsAll (Some (commandCallback noProxy))
         (JObj [("type", JStr "request"); ("id", JStr "r1"); ("method", JStr "fs_copy")])
         sampleClient
       = (Ok tt,
          match dumpsAll (responseMessage "r1" answer) with
          | Ok _ => emit (EvSendMessage (responseMessage "r1" answer)) sampleClient
          | Throw what =>
              match dumpsAll (errorMessage "r1" what) with
              | Ok _ => emit (EvSendMessage (errorMessage "r1" what)) sampleClient
              | Throw _ => sampleClient
              end
          end).
Proof.
  apply (request_answered_in_result dumpsAll noProxy
           (JObj [("type", JStr "request"); ("id", JStr "r1"); ("method", JStr "fs_copy")])
           sampleClient "r1" "fs_copy" (JObj [])); reflexivity.
Defined.

(** X12.  A request whose id or method is not a string is not answered at
    all: reading it raises inside [handleMessage], which only logs; the
    command callback is not consulted and nothing is sent. *)
Theorem malformed_request_gets_no_response (dump : json -> res string)
    (commandCallback : option (string -> json -> res json)) (j : json) (c : Client)
    (what : string) :
  value_string j "id" "" = Throw what \/ value_string j "method" "" = Throw what ->
  handleRequestMessage dump commandCallback j c = (Ok tt, c).
Proof.
  unfold handleRequestMessage, catch, handleRequest, bind, lift.
  intros [Hid|Hmethod].
  - now rewrite Hid.
  - destruct (value_string j "id" ""); now rewrite ?Hmethod.
Qed.

Lemma malformed_request_gets_no_response_witness :
  handleRequestMessage dumpsAll (Some (Service.commandCallback noProxy))
    (JObj [("type", JStr "request"); ("id", JNum 7); ("method", JStr "screenshot")])
    sampleClient
  = (Ok tt, sampleClient).
Proof.
  apply (malformed_request_gets_no_response dumpsAll _ _ sampleClient type_error_302).
  left. reflexivity.
Defined.
End Requests2.

(** ** The reconnection delays and the download progress *)
Section Supervisor.
Import Service Progress.
Local Open Scope Z_scope.

Lemma backoffDelay_exact (n : Z) :
  0 <= n <= 28 -> backoffDelay n = Z.min (5 * 2 ^ n) 60.
Proof.
  intros Hn. unfold backoffDelay, maxReconnectDelay.
  rewrite Z.shiftl_1_l.
  assert (Hpow : 1 <= 2 ^ n <= 2 ^ 28).
  { split; [apply (Z.pow_le_mono_r 2 0 n); lia|apply Z.pow_le_mono_r; lia]. }
  change (2 ^ 28) with 268435456 in Hpow.
  assert (Hint : forall z, 0 <= z < 2147483648 -> to_int z = z).
  { intros z Hz. unfold to_int. change (2 ^ 31) with 2147483648.
    change (2 ^ 32) with 4294967296. rewrite Z.mod_small; lia. }
  rewrite (Hint (2 ^ n)) by lia. rewrite Hint by lia. reflexivity.
Qed.

(** X13.  During an outage the main loop sleeps 5, 10, 20, 40 and then 60
    seconds before its successive reconnects: the k-th delay is
    min(5 * 2^k, 60), for the first 29 failed reconnects in a row.  (From
    the 30th on the product 5 * 2^k is beyond [int].) *)
Theorem outage_delays (n : nat) :
  (n <= 29)%nat ->
  outage n 0 = List.map (fun k => Z.min (5 * 2 ^ Z.of_nat k) 60) (seq 0 n).
Proof.
  assert (Hfrom : forall n a, (a + n <= 29)%nat ->
            outage n (Z.of_nat a)
            = List.map (fun k => Z.min (5 * 2 ^ Z.of_nat k) 60) (seq a n)).
  { clear n. induction n as [|n IH]; intros a Ha; [reflexivity|].
    cbn [outage superviseStep negb andb seq List.map].
    rewrite backoffDelay_exact by lia. f_equal.
    replace (Z.of_nat a + 1) with (Z.of_nat (S a)) by lia. apply IH. lia. }
  intros Hn. apply (Hfrom n 0%nat). lia.
Qed.

Lemma outage_delays_witness :
  outage 6 0 = List.map (fun k => Z.min (5 * 2 ^ Z.of_nat k) 60) (seq 0 6).
Proof. apply (outage_delays 6). lia. Defined.

(** X14.  The reported download progress is a percentage: for a known
    total size and at most that many bytes received, it lies between 0 and
    100, and it is 100 exactly when all bytes are there.  (The product
    [m_downloaded * 100] must fit the 64-bit counter.) *)
Theorem getDownloadProgress_percent (m_downloaded m_totalSize : Z) :
  0 < m_totalSize -> 0 <= m_downloaded <= m_totalSize ->
  m_downloaded * 100 < 2 ^ 64 ->
  0 <= getDownloadProgress m_downloaded m_totalSize <= 100
  /\ (getDownloadProgress m_downloaded m_totalSize = 100 <-> m_downloaded = m_totalSize).
Proof.
  intros Htotal Hd Hfit. unfold getDownloadProgress.
  destruct (Z.eqb_spec m_totalSize 0) as [->|_]; [lia|].
  unfold to_uint64. rewrite (Z.mod_small (m_downloaded * 100)) by lia.
  assert (Hq : 0 <= m_downloaded * 100 / m_totalSize <= 100).
  { split; [apply Z.div_pos; lia|].
    apply Z.div_le_upper_bound; lia. }
  assert (Hint : to_int (m_downloaded * 100 / m_totalSize)
                 = m_downloaded * 100 / m_totalSize).
  { unfold to_int. change (2 ^ 31) with 2147483648.
    change (2 ^ 32) with 4294967296. rewrite Z.mod_small; lia. }
  rewrite Hint. split; [exact Hq|]. split.
  - intros H100.
    assert (Hge : 100 * m_totalSize <= m_downloaded * 100).
    { pose proof (Z.mul_div_le (m_downloaded * 100) m_totalSize Htotal) as Hle.
      rewrite H100 in Hle. lia. }
    lia.
  - intros ->. rewrite Z.mul_comm, Z.div_mul; lia.
Qed.

Lemma getDownloadProgress_percent_witness :
  0 <= getDownloadProgress 512 2048 <= 100
  /\ (getDownloadProgress 512 2048 = 100 <-> 512 = 2048).
Proof.
  apply (getDownloadProgress_percent 512 2048); [lia|lia|reflexivity].
Defined.
End Supervisor.

(** ** Commands and sessions *)
Section Shell2.
Import ShellTools Sessions Execs.
Local Open Scope Z_scope.

Lemma appendChunks_app (acc : string) (a b : list string) :
  appendChunks acc (a ++ b) = appendChunks (appendChunks acc a) b.
Proof. apply fold_left_app. Qed.

Lemma chunksRead_S (ticks : nat -> Tick) (pipe : Tick -> list string) (k n : nat) :
  chunksRead ticks pipe k (S n) = pipe (ticks k) ++ chunksRead ticks pipe (S k) n.
Proof. reflexivity. Qed.

(** The wait loop with [r] passes to go before the deadline and a child
    that stays alive through them. *)
Lemma waitLoop_deadline (ticks : nat -> Tick) (limit : Z) (r : nat) :
  forall n k elapsed out err,
    (r <= n)%nat ->
    limit <= elapsed + 100 * Z.of_nat r ->
    ((0 < r)%nat -> elapsed + 100 * Z.of_nat r < limit + 100) ->
    (forall i, (k <= i < k + r)%nat -> tick_exit (ticks i) = None) ->
    waitLoop ticks n k elapsed limit out err
    = (elapsed + 100 * Z.of_nat r, None,
       appendChunks out (chunksRead ticks tick_stdout k r),
       appendChunks err (chunksRead ticks tick_stderr k r)).
Proof.
  induction r as [|r IH]; intros n k elapsed out err Hn Hreach Hbefore Halive.
  - replace (elapsed + 100 * Z.of_nat 0) with elapsed by lia.
    destruct n; cbn [waitLoop]; [reflexivity|].
    now replace (elapsed <? limit) with false by (symmetry; apply Z.ltb_ge; lia).
  - destruct n as [|n]; [lia|]. cbn [waitLoop].
    replace (elapsed <? limit) with true by (symmetry; apply Z.ltb_lt; lia).
    rewrite (Halive k) by lia.
    rewrite (IH n (S k) (elapsed + 100)); [|lia|lia|lia|intros i Hi; apply Halive; lia].
    rewrite !chunksRead_S, !appendChunks_app. do 3 f_equal. lia.
Qed.

(** The wait loop with a child that is first seen to have exited on pass
    [k + r], before the deadline. *)
Lemma waitLoop_exit (ticks : nat -> Tick) (limit : Z) (code : option Z)
    (restOut restErr : list string) (r : nat) :
  forall n k elapsed out err,
    (r < n)%nat ->
    elapsed + 100 * Z.of_nat r < limit ->
    (forall i, (k <= i < k + r)%nat -> tick_exit (ticks i) = None) ->
    tick_exit (ticks (k + r)%nat) = Some (code, restOut, restErr) ->
    waitLoop ticks n k elapsed limit out err
    = (elapsed + 100 * Z.of_nat r, Some code,
       appendChunks (appendChunks out (chunksRead ticks tick_stdout k (S r))) restOut,
       appendChunks (appendChunks err (chunksRead ticks tick_stderr k (S r))) restErr).
Proof.
  induction r as [|r IH]; intros n k elapsed out err Hn Hlimit Halive Hexit.
  - destruct n as [|n]; [lia|]. cbn [waitLoop].
    replace (elapsed <? limit) with true by (symmetry; apply Z.ltb_lt; lia).
    rewrite Nat.add_0_r in Hexit. rewrite Hexit.
    unfold chunksRead. cbn [seq List.map concat]. rewrite !app_nil_r.
    f_equal. f_equal. f_equal. lia.
  - destruct n as [|n]; [lia|]. cbn [waitLoop].
    replace (elapsed <? limit) with true by (symmetry; apply Z.ltb_lt; lia).
    rewrite (Halive k) by lia.
    rewrite (IH n (S k) (elapsed + 100)); [|lia|lia|intros i Hi; apply Halive; lia|].
    2:{ replace (S k + r)%nat with (k + S r)%nat by lia. exact Hexit. }
    rewrite (chunksRead_S ticks tick_stdout k (S r)).
    rewrite (chunksRead_S ticks tick_stderr k (S r)).
    rewrite !appendChunks_app. f_equal. f_equal. f_equal. lia.
Qed.

Lemma passes_reach_deadline (limit : Z) :
  let r := Z.to_nat ((limit + 99) / 100) in
  (r <= Z.to_nat (limit / 100 + 1))%nat
  /\ limit <= 100 * Z.of_nat r
  /\ ((0 < r)%nat -> 100 * Z.of_nat r < limit + 100)
  /\ forall k, (k < r)%nat -> 100 * Z.of_nat k < limit /\ (k < Z.to_nat (limit / 100 + 1))%nat.
Proof.
  cbv zeta.
  pose proof (Z.div_mod (limit + 99) 100 ltac:(lia)) as Hup.
  pose proof (Z.mod_pos_bound (limit + 99) 100 ltac:(lia)) as Hupr.
  pose proof (Z.div_mod limit 100 ltac:(lia)) as Hdn.
  pose proof (Z.mod_pos_bound limit 100 ltac:(lia)) as Hdnr.
  repeat split; lia.
Qed.

(** X15.  A command the filter allows whose child is still alive on every
    pass of the wait loop before the deadline is killed with SIGKILL and
    reaped, and [exec] answers "Command timed out" with the timeout and with
    everything read from the two pipes during those passes.  The deadline
    is [timeout * 1000] computed in [int], and it is counted in passes: each
    pass counts for 100, however long it took.  With a deadline of zero or
    less (a timeout of zero or less, or one whose product wraps below zero)
    that is at once, with no pass at all.  The deadline is taken to be at
    most 2147483600, so that the count of the passes stays within [int]. *)
Theorem exec_times_out (checkCommand : string -> CheckResult) (run : ExecRun)
    (command cwd : string) (timeout : Z) (w : World) :
  allowed (checkCommand command) = true ->
  pipes_ok run = true -> 0 <= fork_pid run ->
  deadline timeout <= maxDeadline ->
  (forall i, (i < passesWithin timeout)%nat -> tick_exit (ticks run i) = None) ->
  exec checkCommand run command cwd timeout w
  = (JObj [("success", JBool false); ("error", JStr "Command timed out");
           ("timeout", JNum timeout);
           ("stdout", JStr (appendChunks EmptyString
                              (chunksRead (ticks run) tick_stdout 0 (passesWithin timeout))));
           ("stderr", JStr (appendChunks EmptyString
                              (chunksRead (ticks run) tick_stderr 0 (passesWithin timeout))))],
     sys [EvKill (fork_pid run) SIGKILL; EvWaitpid (fork_pid run)]
       (sys [EvPipe; EvFork command cwd] (sys [EvCheckCommand command] w))).
Proof.
  intros Hallowed Hpipes Hfork _ Halive. unfold exec, isBlocked.
  rewrite Hallowed, Hpipes. cbn [negb detectsExfiltration].
  replace (fork_pid run <? 0) with false by (symmetry; apply Z.ltb_ge; exact Hfork).
  unfold passesWithin, deadline in *.
  destruct (passes_reach_deadline (to_int (timeout * 1000))) as (Hfuel & Hreach & Hbefore & _).
  rewrite (waitLoop_deadline (ticks run) (to_int (timeout * 1000))
             (Z.to_nat ((to_int (timeout * 1000) + 99) / 100)));
    [|exact Hfuel|lia|lia|intros i Hi; apply Halive; lia].
  now replace (to_int (timeout * 1000)
               <=? 0 + 100 * Z.of_nat (Z.to_nat ((to_int (timeout * 1000) + 99) / 100)))
    with true by (symmetry; apply Z.leb_le; lia).
Qed.

Lemma exec_times_out_witness :
  exec allowAll hangs "yes ." "" 1 initialWorld
  = (JObj [("success", JBool false); ("error", JStr "Command timed out");
           ("timeout", JNum 1);
           ("stdout", JStr (appendChunks EmptyString
                              (chunksRead (ticks hangs) tick_stdout 0 (passesWithin 1))));
           ("stderr", JStr (appendChunks EmptyString
                              (chunksRead (ticks hangs) tick_stderr 0 (passesWithin 1))))],
     sys [EvKill (fork_pid hangs) SIGKILL; EvWaitpid (fork_pid hangs)]
       (sys [EvPipe; EvFork "yes ." ""] (sys [EvCheckCommand "yes ."] initialWorld))).
Proof.
  apply (exec_times_out allowAll hangs "yes ." "" 1 initialWorld);
    [reflexivity|reflexivity|discriminate|discriminate|reflexivity].
Defined.

(** X16.  A command the filter allows whose child is first seen to have
    exited on pass [k] of the wait loop, before the deadline ([timeout *
    1000] computed in [int], each pass counting for 100), is answered with
    success true whatever its exit code: the answer carries the code (-1
    when the child did not exit normally), everything read during the
    passes and what was drained after the exit; the child is not
    signalled. *)
Theorem exec_reports_exit (checkCommand : string -> CheckResult) (run : ExecRun)
    (command cwd : string) (timeout : Z) (w : World) (k : nat) (code : option Z)
    (restOut restErr : list string) :
  allowed (checkCommand command) = true ->
  pipes_ok run = true -> 0 <= fork_pid run ->
  (k < passesWithin timeout)%nat ->
  (forall i, (i < k)%nat -> tick_exit (ticks run i) = None) ->
  tick_exit (ticks run k) = Some (code, restOut, restErr) ->
  exec checkCommand run command cwd timeout w
  = (JObj [("success", JBool true);
           ("stdout", JStr (appendChunks
                              (appendChunks EmptyString
                                 (chunksRead (ticks run) tick_stdout 0 (S k))) restOut));
           ("stderr", JStr (appendChunks
                              (appendChunks EmptyString
                                 (chunksRead (ticks run) tick_stderr 0 (S k))) restErr));
           ("exit_code", JNum (match code with Some c => c | None => -1 end));
           ("command", JStr command)],
     sys [EvPipe; EvFork command cwd] (sys [EvCheckCommand command] w)).
Proof.
  intros Hallowed Hpipes Hfork Hk Halive Hexit. unfold exec, isBlocked.
  rewrite Hallowed, Hpipes. cbn [negb detectsExfiltration].
  replace (fork_pid run <? 0) with false by (symmetry; apply Z.ltb_ge; exact Hfork).
  unfold passesWithin, deadline in Hk.
  destruct (passes_reach_deadline (to_int (timeout * 1000))) as (_ & _ & _ & Hpass).
  destruct (Hpass k Hk) as [Hbefore Hfuel].
  rewrite (waitLoop_exit (ticks run) (to_int (timeout * 1000)) code restOut restErr k);
    [|exact Hfuel|lia|intros i Hi; apply Halive; lia|exact Hexit].
  replace (to_int (timeout * 1000) <=? 0 + 100 * Z.of_nat k) with false
    by (symmetry; apply Z.leb_gt; lia).
  now destruct code.
Qed.

Lemma exec_reports_exit_witness :
  exec allowAll exitsThird "make" "/src" 30 initialWorld
  = (JObj [("success", JBool true);
           ("stdout", JStr (appendChunks
                              (appendChunks EmptyString
                                 (chunksRead (ticks exitsThird) tick_stdout 0 3)) ["two"%string]));
           ("stderr", JStr (appendChunks
                              (appendChunks EmptyString
                                 (chunksRead (ticks exitsThird) tick_stderr 0 3)) []));
           ("exit_code", JNum 3);
           ("command", JStr "make")],
     sys [EvPipe; EvFork "make" "/src"] (sys [EvCheckCommand "make"] initialWorld)).
Proof.
  apply (exec_reports_exit allowAll exitsThird "make" "/src" 30 initialWorld 2 (Some 3)
           ["two"%string] []).
  - reflexivity.
  - reflexivity.
  - discriminate.
  - vm_compute. lia.
  - intros [|[|i]] Hi; [reflexivity|reflexivity|lia].
  - reflexivity.
Defined.
End Shell2.
Section Shell3.
Import ShellTools Sessions Execs.
Local Open Scope Z_scope.

Lemma c_str_stops_at_nul (a b : string) :
  has_char zero a = false -> c_str (String.append a (String zero b)) = a.
Proof.
  induction a as [|x a IH]; [reflexivity|]. rewrite append_cons.
  cbn [has_char c_str]. destruct (Ascii.eqb x zero); [discriminate|].
  intros H. now rewrite (IH H).
Qed.

(** X17.  Output is collected as C strings: of a chunk that holds a NUL
    byte, [readOutput] returns only what precedes the first NUL; the rest
    of the chunk is lost. *)
Theorem readOutput_stops_at_nul (sessionId before after : string) (s : ShellSession)
    (w : World) :
  g_sessions w !! sessionId = Some s -> isPty s = true ->
  has_char zero before = false ->
  readOutput [String.append before (String zero after)] [] sessionId w
  = (JObj [("success", JBool true); ("session_id", JStr sessionId);
           ("stdout", JStr before); ("stderr", JStr EmptyString)],
     sys [EvRead (ptyMasterFd s)] w).
Proof.
  intros Hs Hpty Hclean. unfold readOutput. rewrite Hs, Hpty.
  unfold appendChunks. cbn [fold_left]. rewrite append_nil.
  now rewrite (c_str_stops_at_nul before after Hclean).
Qed.

Lemma readOutput_stops_at_nul_witness :
  readOutput [String.append "PNG" (String zero "IHDR")] [] sampleId started
  = (JObj [("success", JBool true); ("session_id", JStr sampleId);
           ("stdout", JStr "PNG"); ("stderr", JStr EmptyString)],
     sys [EvRead (ptyMasterFd ptySession)] started).
Proof.
  apply (readOutput_stops_at_nul sampleId "PNG" "IHDR" ptySession started);
    reflexivity.
Defined.

(** X18.  [listSessions] reports every session of the table once: the ids
    of its entries are distinct, and [count] is the number of entries and
    the size of the table. *)
Theorem listSessions_counts_the_table (w : World) :
  NoDup (listedIds (listSessions w))
  /\ find (listSessions w) "count" = Some (JNum (Z.of_nat (size (g_sessions w))))
  /\ List.length (listedIds (listSessions w)) = size (g_sessions w).
Proof.
  rewrite listedIds_listSessions. split; [|split].
  - replace (List.map fst (inOrder (g_sessions w)))
      with (fmap fst (inOrder (g_sessions w)))
      by (induction (inOrder (g_sessions w)) as [|kv l IH];
          [reflexivity|cbn; now rewrite IH]).
    rewrite inOrder_Permutation. apply NoDup_fst_map_to_list.
  - unfold listSessions. cbn [find assoc String.eqb Ascii.eqb Bool.eqb].
    now rewrite length_map, inOrder_Permutation, length_map_to_list.
  - now rewrite length_map, inOrder_Permutation, length_map_to_list.
Qed.
End Shell3.

(** ** Heartbeats and update checks *)

Ltac heartbeat_simpl :=
  cbv beta iota zeta delta
    [UpdateManager.notify UpdateManager.fail UpdateManager.applyUpdate
     UpdateManager.emit UpdateManager.set_status UpdateManager.set_heartbeatCount
     UpdateManager.set_failedTimestamp UpdateManager.set_updateInfo
     UpdateManager.m_status UpdateManager.m_config UpdateManager.m_updateInfo
     UpdateManager.m_downloadPath UpdateManager.m_statusCallback
     UpdateManager.m_heartbeatCount UpdateManager.m_failedTimestamp
     UpdateManager.m_cancelDownload UpdateManager.trace UpdateManager.status_eqb
     UpdateManager.install_ok UpdateManager.check_now
     Updates.installAttempted Heartbeats.downloadRequested negb orb andb].

Section Heartbeats2.
Import UpdateManager Updates Heartbeats.
Local Open Scope Z_scope.

Lemma onHeartbeat_early (run : CheckRun) (updateFlag : Z) (m : Manager) :
  m_heartbeatCount m + 1 < checkIntervalHeartbeats (m_config m) ->
  onHeartbeat run updateFlag m = set_heartbeatCount (m_heartbeatCount m + 1) m.
Proof.
  intros Hearly. unfold onHeartbeat. destruct m as [cfg hb st ft info path cancel cb tr].
  cbn [set_heartbeatCount m_heartbeatCount m_config] in *.
  now replace (hb + 1 <? checkIntervalHeartbeats cfg) with true
    by (symmetry; apply Z.ltb_lt; exact Hearly).
Qed.

(** X19.  Heartbeats that stay below the check interval only count:
    whatever update flags they carry, the status, the update info and the
    trace of requests stay as they are. *)
Theorem heartbeats_below_interval_only_count (beats : list (CheckRun * Z)) (m : Manager) :
  m_heartbeatCount m + Z.of_nat (List.length beats) < checkIntervalHeartbeats (m_config m) ->
  fold_left beat beats m
  = set_heartbeatCount (m_heartbeatCount m + Z.of_nat (List.length beats)) m.
Proof.
  revert m. induction beats as [|[run flag] beats IH]; intros m Hbelow.
  - cbn [fold_left List.length Z.of_nat]. rewrite Z.add_0_r. now destruct m.
  - cbn [fold_left List.length] in *. unfold beat at 2. cbn [fst snd].
    rewrite onHeartbeat_early by lia. rewrite IH.
    + destruct m as [cfg hb st ft info path cancel cb tr].
      cbv [set_heartbeatCount m_config m_heartbeatCount m_status m_failedTimestamp
           m_updateInfo m_downloadPath m_cancelDownload m_statusCallback trace].
      f_equal; lia.
    + destruct m as [cfg hb st ft info path cancel cb tr].
      cbn [set_heartbeatCount m_heartbeatCount m_config] in *. lia.
Qed.

Lemma heartbeats_below_interval_only_count_witness :
  fold_left beat [(checkAt 10 None, 1); (checkAt 15 None, 2); (checkAt 20 None, 0)] idle
  = set_heartbeatCount
      (m_heartbeatCount idle
       + Z.of_nat (List.length [(checkAt 10 None, 1); (checkAt 15 None, 2);
                                (checkAt 20 None, 0)])) idle.
Proof.
  apply (heartbeats_below_interval_only_count
           [(checkAt 10 None, 1); (checkAt 15 None, 2); (checkAt 20 None, 0)] idle).
  reflexivity.
Defined.

(** X20.  In FAILED, a heartbeat that reaches the check interval before
    [failedRetryTimeoutSeconds] have passed since the failure does nothing
    but restart the count, whatever the update flag: no check, no
    download, no installer, and the status stays FAILED. *)
Theorem failed_waits_for_retry_timeout (run : CheckRun) (updateFlag : Z) (m : Manager) :
  due m = true -> m_status m = FAILED ->
  check_now run - m_failedTimestamp m < failedRetryTimeoutSeconds (m_config m) ->
  onHeartbeat run updateFlag m = set_heartbeatCount 0 m.
Proof.
  unfold due, onHeartbeat. destruct m as [cfg hb st ft info path cancel cb tr].
  cbn [set_heartbeatCount m_heartbeatCount m_config m_status m_failedTimestamp].
  intros Hdue -> Hwait.
  replace (hb + 1 <? checkIntervalHeartbeats cfg) with false
    by (symmetry; apply Z.ltb_ge; apply Z.leb_le; exact Hdue).
  replace (failedRetryTimeoutSeconds cfg <=? check_now run - ft) with false
    by (symmetry; apply Z.leb_gt; exact Hwait).
  cbn [status_eqb andb orb]. rewrite andb_false_r.
  now destruct (0 <? updateFlag).
Qed.

Lemma failed_waits_for_retry_timeout_witness :
  onHeartbeat (checkAt 1500 None) 2 (lastBeat FAILED 1000 idle)
  = set_heartbeatCount 0 (lastBeat FAILED 1000 idle).
Proof.
  apply (failed_waits_for_retry_timeout (checkAt 1500 None) 2 (lastBeat FAILED 1000 idle));
    reflexivity.
Defined.

(** X21.  In FAILED, a heartbeat that reaches the check interval once
    [failedRetryTimeoutSeconds] have passed, and carries a positive update
    flag, resets the status to IDLE and runs a new check. *)
Theorem failed_retries_after_timeout (run : CheckRun) (updateFlag : Z) (m : Manager) :
  due m = true -> m_status m = FAILED ->
  failedRetryTimeoutSeconds (m_config m) <= check_now run - m_failedTimestamp m ->
  0 < updateFlag ->
  onHeartbeat run updateFlag m
  = checkWorker run (set_status IDLE (set_heartbeatCount 0 m)).
Proof.
  unfold due, onHeartbeat. destruct m as [cfg hb st ft info path cancel cb tr].
  cbn [set_heartbeatCount m_heartbeatCount m_config m_status m_failedTimestamp].
  intros Hdue -> Hwait Hflag.
  replace (hb + 1 <? checkIntervalHeartbeats cfg) with false
    by (symmetry; apply Z.ltb_ge; apply Z.leb_le; exact Hdue).
  replace (failedRetryTimeoutSeconds cfg <=? check_now run - ft) with true
    by (symmetry; apply Z.leb_le; exact Hwait).
  replace (0 <? updateFlag) with true by (symmetry; apply Z.ltb_lt; exact Hflag).
  cbn [status_eqb andb orb set_status m_status]. rewrite andb_false_r.
  reflexivity.
Qed.

Lemma failed_retries_after_timeout_witness :
  onHeartbeat (checkAt 1600 None) 1 (lastBeat FAILED 1000 idle)
  = checkWorker (checkAt 1600 None)
      (set_status IDLE (set_heartbeatCount 0 (lastBeat FAILED 1000 idle))).
Proof.
  apply (failed_retries_after_timeout (checkAt 1600 None) 1 (lastBeat FAILED 1000 idle));
    reflexivity.
Defined.

(** X22.  With a downloaded update waiting, a heartbeat that reaches the
    check interval runs the installer when its flag is 2 (forced), also
    when [autoInstall] is off; with any other flag it only restarts the
    count. *)
Theorem forced_flag_installs_downloaded_update (run : CheckRun) (updateFlag : Z)
    (m : Manager) :
  due m = true -> m_status m = DOWNLOADED ->
  installAttempted (onHeartbeat run 2 m) = true
  /\ (updateFlag <> 2 -> onHeartbeat run updateFlag m = set_heartbeatCount 0 m).
Proof.
  unfold due, onHeartbeat. destruct m as [cfg hb st ft info path cancel cb tr].
  cbn [set_heartbeatCount m_heartbeatCount m_config m_status m_failedTimestamp].
  intros Hdue ->.
  replace (hb + 1 <? checkIntervalHeartbeats cfg) with false
    by (symmetry; apply Z.ltb_ge; apply Z.leb_le; exact Hdue).
  cbn [status_eqb andb orb]. split.
  - change (0 <? 2) with true. change (2 =? 2) with true. cbv iota.
    destruct cb, (install_ok (download run)) eqn:Hok; heartbeat_simpl;
      rewrite ?Hok; heartbeat_simpl;
      rewrite ?existsb_app; cbn [existsb Updates.isInstall];
      now rewrite ?orb_true_r.
  - intros Hflag. replace (updateFlag =? 2) with false
      by (symmetry; apply Z.eqb_neq; exact Hflag).
    now destruct (0 <? updateFlag).
Qed.

Lemma forced_flag_installs_downloaded_update_witness :
  installAttempted (onHeartbeat (checkAt 2000 None) 2 (lastBeat DOWNLOADED 0 idle)) = true
  /\ (1 <> 2 -> onHeartbeat (checkAt 2000 None) 1 (lastBeat DOWNLOADED 0 idle)
                = set_heartbeatCount 0 (lastBeat DOWNLOADED 0 idle)).
Proof.
  apply (forced_flag_installs_downloaded_update (checkAt 2000 None) 1
           (lastBeat DOWNLOADED 0 idle)); reflexivity.
Defined.
End Heartbeats2.
Section Checks.
Import UpdateManager Updates Heartbeats.
Local Open Scope Z_scope.

Ltac check_simpl :=
  unfold catch, bind, lift, modify, gets, ret; heartbeat_simpl; cbv beta iota delta [snd fst];
  heartbeat_simpl.

(** X23.  A check that gets no HTTP answer, an answer that is not JSON, or
    one whose [updateAvailable] is not a bool ends in FAILED with the time
    of the failure recorded; the update info is untouched, and neither a
    download nor the installer is started. *)
Theorem unreadable_answer_fails_the_check (run : CheckRun) (m : Manager) :
  inProgress m = false -> readable (response run) = false ->
  let m' := checkForUpdate run m in
  m_status m' = FAILED
  /\ m_failedTimestamp m' = check_now run
  /\ m_updateInfo m' = m_updateInfo m
  /\ downloadRequested m' = downloadRequested m
  /\ installAttempted m' = installAttempted m.
Proof.
  unfold inProgress, readable, checkForUpdate. intros -> Hbad. unfold checkWorker.
  destruct m as [cfg hb st ft info path cancel cb tr].
  destruct (response run) as [[j|what]|].
  - destruct (value_bool j "updateAvailable" false) as [b|what] eqn:Hb; [discriminate|].
    destruct cb; check_simpl; rewrite Hb; check_simpl;
      rewrite ?existsb_app; cbn [existsb isDownload Updates.isInstall];
      rewrite ?orb_false_r; repeat split; reflexivity.
  - destruct cb; check_simpl;
      rewrite ?existsb_app; cbn [existsb isDownload Updates.isInstall];
      rewrite ?orb_false_r; repeat split; reflexivity.
  - destruct cb; check_simpl;
      rewrite ?existsb_app; cbn [existsb isDownload Updates.isInstall];
      rewrite ?orb_false_r; repeat split; reflexivity.
Qed.

Lemma unreadable_answer_fails_the_check_witness :
  let m' := checkForUpdate (checkAt 1600 (Some (Throw "parse error"))) idle in
  m_status m' = FAILED
  /\ m_failedTimestamp m' = check_now (checkAt 1600 (Some (Throw "parse error")))
  /\ m_updateInfo m' = m_updateInfo idle
  /\ downloadRequested m' = downloadRequested idle
  /\ installAttempted m' = installAttempted idle.
Proof.
  apply (unreadable_answer_fails_the_check (checkAt 1600 (Some (Throw "parse error"))) idle);
    reflexivity.
Defined.

(** X24.  When the server answers that no update is available, the check
    ends in UP_TO_DATE and nothing is downloaded; but the answer's [reason]
    is read for the log first, and a [reason] that is not a string turns
    the same answer into FAILED.  The update info is untouched. *)
Theorem no_update_answer (run : CheckRun) (m : Manager) (j : json) :
  inProgress m = false -> response run = Some (Ok j) ->
  value_bool j "updateAvailable" false = Ok false ->
  let m' := checkForUpdate run m in
  m_status m' = match value_string j "reason" "up to date" with
                | Ok _ => UP_TO_DATE
                | Throw _ => FAILED
                end
  /\ m_updateInfo m' = m_updateInfo m
  /\ downloadRequested m' = downloadRequested m.
Proof.
  unfold inProgress, checkForUpdate. intros -> Hanswer Hno. unfold checkWorker.
  destruct m as [cfg hb st ft info path cancel cb tr]. rewrite Hanswer.
  destruct (value_string j "reason" "up to date") as [r|what] eqn:Hr;
    destruct cb; check_simpl; rewrite Hno; check_simpl; rewrite Hr; check_simpl;
    rewrite ?existsb_app; cbn [existsb isDownload];
    rewrite ?orb_false_r; repeat split; reflexivity.
Qed.

Lemma no_update_answer_witness :
  let m' := checkForUpdate
              (checkAt 1600 (Some (Ok (JObj [("updateAvailable", JBool false);
                                             ("reason", JNum 3)])))) idle in
  m_status m' = match value_string (JObj [("updateAvailable", JBool false);
                                          ("reason", JNum 3)]) "reason" "up to date" with
                | Ok _ => UP_TO_DATE
                | Throw _ => FAILED
                end
  /\ m_updateInfo m' = m_updateInfo idle
  /\ downloadRequested m' = downloadRequested idle.
Proof.
  apply (no_update_answer
           (checkAt 1600 (Some (Ok (JObj [("updateAvailable", JBool false);
                                          ("reason", JNum 3)])))) idle);
    reflexivity.
Defined.
End Checks.
Section Checks2.
Import UpdateManager Updates Heartbeats.
Local Open Scope Z_scope.
Local Open Scope st_scope.

Lemma only_info_bind {A B} (c : ST Manager A) (k : A -> ST Manager B) :
  only_info c -> (forall a, only_info (k a)) -> only_info (bind c k).
Proof.
  intros Hc Hk m. unfold bind. destruct (Hc m) as [i Hi].
  destruct (c m) as [[a|what] m1]; cbn [snd] in *; [|eauto].
  destruct (Hk a m1) as [i' Hi']. exists i'. rewrite Hi', Hi. reflexivity.
Qed.

Lemma only_info_assign {A} (get : json -> res A) (j : json) (key : string) (dflt : A)
    (store : A -> UpdateInfo -> UpdateInfo) :
  only_info (assign get j key dflt store).
Proof.
  intros m. unfold assign, bind, lift, modify.
  destruct (value get j key dflt) as [v|what]; cbn [snd]; [eauto|].
  exists (m_updateInfo m). now destruct m.
Qed.

Lemma only_info_parseUpdateInfo (j : json) : only_info (parseUpdateInfo j).
Proof.
  unfold parseUpdateInfo.
  repeat (apply only_info_bind; [apply only_info_assign|intros _]).
  apply only_info_assign.
Qed.

(** X25.  With [autoDownload] on, the check worker calls [downloadUpdate]
    itself, which first joins the worker thread, that is the calling
    thread.  When that join raises (as joining oneself does), the exception
    is taken for a parse error: the check that found an update ends in
    FAILED, and no download is requested. *)
Theorem auto_download_fails_on_self_join (run : CheckRun) (m : Manager) (j : json)
    (what : string) :
  inProgress m = false -> autoDownload (m_config m) = true ->
  response run = Some (Ok j) -> value_bool j "updateAvailable" false = Ok true ->
  self_join run = Throw what ->
  let m' := checkForUpdate run m in
  m_status m' = FAILED
  /\ m_failedTimestamp m' = check_now run
  /\ downloadRequested m' = downloadRequested m
  /\ installAttempted m' = installAttempted m.
Proof.
  unfold inProgress, checkForUpdate. intros -> Hauto Hanswer Hyes Hjoin. unfold checkWorker.
  rewrite Hanswer. cbv zeta. unfold catch, bind, lift. rewrite Hyes. cbn [negb].
  match goal with
  | |- context [parseUpdateInfo j ?m0] =>
      destruct (only_info_parseUpdateInfo j m0) as [i Hi];
      destruct (parseUpdateInfo j m0) as [[[]|bad] m1]; cbn [snd] in Hi; subst m1
  end.
  - destruct m as [cfg hb st ft info path cancel cb tr]. cbn [m_config] in Hauto.
    destruct cb; unfold bind, lift, modify, gets; heartbeat_simpl;
      rewrite Hauto, Hjoin; cbv beta iota delta [snd fst]; heartbeat_simpl;
      rewrite ?existsb_app; cbn [existsb isDownload Updates.isInstall];
      rewrite ?orb_false_r; repeat split; reflexivity.
  - destruct m as [cfg hb st ft info path cancel cb tr].
    destruct cb; unfold modify; cbv beta iota delta [snd fst]; heartbeat_simpl;
      rewrite ?existsb_app; cbn [existsb isDownload Updates.isInstall];
      rewrite ?orb_false_r; repeat split; reflexivity.
Qed.

Lemma auto_download_fails_on_self_join_witness :
  let m' := checkForUpdate (checkAt 1600 (Some (Ok manifestNoDigest))) autoDownloading in
  m_status m' = FAILED
  /\ m_failedTimestamp m' = check_now (checkAt 1600 (Some (Ok manifestNoDigest)))
  /\ downloadRequested m' = downloadRequested autoDownloading
  /\ installAttempted m' = installAttempted autoDownloading.
Proof.
  apply (auto_download_fails_on_self_join (checkAt 1600 (Some (Ok manifestNoDigest)))
           autoDownloading manifestNoDigest "Resource deadlock avoided");
    reflexivity.
Defined.
End Checks2.

(** ** The receive loop: several frames in one read, close frames, bounds *)
Section Receive2.
Import Incoming Arrivals.
Local Open Scope Z_scope.

Lemma opcode_bits (opcode : Z) :
  0 <= opcode < 16 -> Z.land (128 + opcode) 15 = opcode.
Proof.
  intros H.
  assert (Hc : opcode = 0 \/ opcode = 1 \/ opcode = 2 \/ opcode = 3 \/ opcode = 4
               \/ opcode = 5 \/ opcode = 6 \/ opcode = 7 \/ opcode = 8 \/ opcode = 9
               \/ opcode = 10 \/ opcode = 11 \/ opcode = 12 \/ opcode = 13
               \/ opcode = 14 \/ opcode = 15) by lia.
  repeat (destruct Hc as [->|Hc]; [reflexivity|]). now subst.
Qed.

(** A whole unmasked frame at the front of what a read stored is handled
    by its opcode, whatever follows it in the buffer and however many more
    bytes the read delivered. *)
Lemma parseFrame_server_frame (opcode : Z) (payload : string) (tail : list Z)
    (bytesRead : Z) (rnd : MaskDraw) :
  0 <= opcode < 16 ->
  Z.of_nat (length (serverFrame opcode payload)) <= bytesRead <= BUFFER_SIZE ->
  parseFrame (serverFrame opcode payload ++ tail) bytesRead rnd
  = whenWhole opcode payload rnd.
Proof.
  intros Hop. unfold serverFrame, serverLengthBytes, BUFFER_SIZE.
  assert (Hnn : 0 <= string_length payload) by (unfold string_length; lia).
  assert (Hlen : Z.of_nat (length (bytes_of_string payload)) = string_length payload)
    by (now rewrite length_bytes_of_string).
  destruct (Z.leb_spec (string_length payload) 125) as [Hs|Hs].
  - (* 7-bit length *)
    intros Hfit. cbn [app length] in *. rewrite !Nat2Z.inj_succ, Hlen in *.
    destruct (unmasked_short_length _ (conj Hnn Hs)) as [Hm Hl].
    unfold parseFrame, frameHeader, BUFFER_SIZE. rewrite !byteAt_0, !byteAt_1.
    destruct (Z.ltb_spec bytesRead 2); [lia|].
    rewrite Hm, Hl. change (0 =? 0) with true. cbn [negb].
    destruct (Z.eqb_spec (string_length payload) 126); [lia|].
    destruct (Z.eqb_spec (string_length payload) 127); [lia|].
    rewrite to_int_small by lia.
    destruct (Z.ltb_spec bytesRead (2 + string_length payload)); [lia|].
    destruct (Z.ltb_spec 16384 (2 + string_length payload)); [lia|].
    rewrite andb_false_r, (opcode_bits opcode Hop).
    unfold string_length. rewrite Nat2Z.id.
    change (Z.to_nat 2) with (length [128 + opcode; Z.of_nat (String.length payload)]).
    change ((128 + opcode) :: Z.of_nat (String.length payload)
              :: bytes_of_string payload ++ tail)
      with ([128 + opcode; Z.of_nat (String.length payload)]
              ++ bytes_of_string payload ++ tail).
    now rewrite readPayload_whole.
  - destruct (Z.leb_spec (string_length payload) 65535) as [Hm|Hm].
    + (* 16-bit extended length *)
      intros Hfit. cbn [app length] in *. rewrite !Nat2Z.inj_succ, Hlen in *.
      unfold parseFrame, frameHeader, BUFFER_SIZE.
      rewrite !byteAt_0, !byteAt_1, !byteAt_2, !byteAt_3.
      destruct (Z.ltb_spec bytesRead 2); [lia|].
      change (Z.land 126 128 =? 0) with true. change (Z.land 126 127 =? 126) with true.
      cbn [negb]. cbv iota.
      destruct (Z.ltb_spec bytesRead 4); [lia|].
      rewrite lor_shiftl_8
        by (try (apply Z.div_pos; lia); apply Z.mod_pos_bound; lia).
      rewrite (Z.mul_comm _ 256), <- Z.div_mod by lia.
      rewrite to_int_small by lia.
      destruct (Z.ltb_spec bytesRead (4 + string_length payload)); [lia|].
      destruct (Z.ltb_spec 16384 (4 + string_length payload)); [lia|].
      rewrite andb_false_r, (opcode_bits opcode Hop).
      unfold string_length. rewrite Nat2Z.id.
      set (hi := Z.of_nat (String.length payload) / 256).
      set (lo := Z.of_nat (String.length payload) mod 256).
      change (Z.to_nat 4) with (length [128 + opcode; 126; hi; lo]).
      change ((128 + opcode) :: 126 :: hi :: lo :: bytes_of_string payload ++ tail)
        with ([128 + opcode; 126; hi; lo] ++ bytes_of_string payload ++ tail).
      now rewrite readPayload_whole.
    + (* a frame this long does not fit the buffer *)
      intros Hfit. cbn [app length] in Hfit.
      rewrite !Nat2Z.inj_succ, length_app, Nat2Z.inj_add, Hlen in Hfit. lia.
Qed.

Lemma loopIteration_server_frame (opcode : Z) (payload : string) (rest : list Z)
    (rnd : MaskDraw) (st : LoopState) :
  0 <= opcode < 16 ->
  Z.of_nat (length (serverFrame opcode payload ++ rest)) <= BUFFER_SIZE ->
  loopIteration (readOf rnd (serverFrame opcode payload ++ rest)) st
  = match whenWhole opcode payload rnd with
    | FrameContinue evs =>
        StepContinue (afterRead st (serverFrame opcode payload ++ rest) evs)
    | FrameBreak => StepBreak (afterRead st (serverFrame opcode payload ++ rest) [])
    | FrameFault => StepFault (afterRead st (serverFrame opcode payload ++ rest) [])
    end.
Proof.
  intros Hop Hfit. unfold loopIteration, readOf.
  cbn [it_running it_read it_rnd negb].
  remember (serverFrame opcode payload ++ rest) as read eqn:Hread.
  destruct read as [|b data]; [unfold serverFrame in Hread; discriminate|].
  rewrite Hread. unfold storeRead at 1. rewrite <- app_assoc.
  rewrite parseFrame_server_frame; [|exact Hop|].
  - unfold afterRead. rewrite app_nil_r.
    destruct (whenWhole opcode payload rnd); [|destruct st|destruct st]; reflexivity.
  - rewrite Hread in Hfit. rewrite length_app, Nat2Z.inj_add in *.
    split; [lia|exact Hfit].
Qed.
End Receive2.
Section Receive3.
Import Incoming Arrivals Samples.
Local Open Scope Z_scope.

(** X26.  The loop handles one frame per read.  When a read delivers a
    whole text frame followed by more bytes (a second frame, say), the
    payload of the first is handed to [handleMessage] and the bytes after it
    are not looked at: the loop goes on to the next read, which overwrites
    them. *)
Theorem frames_after_the_first_are_dropped (hasConnectionCallback : bool)
    (rnd : MaskDraw) (payload : string) (rest : list Z) (its : list Iteration)
    (st : LoopState) :
  Z.of_nat (length (serverFrame 1 payload ++ rest)) <= BUFFER_SIZE ->
  receiveLoopFrom hasConnectionCallback
    (readOf rnd (serverFrame 1 payload ++ rest) :: its) st
  = receiveLoopFrom hasConnectionCallback its
      (afterRead st (serverFrame 1 payload ++ rest) [EvHandleMessage payload]).
Proof.
  intros Hfit. cbn [receiveLoopFrom].
  rewrite (loopIteration_server_frame 1 payload rest rnd st); [reflexivity|lia|exact Hfit].
Qed.

Lemma frames_after_the_first_are_dropped_witness :
  receiveLoopFrom true [readOf someMask (serverFrame 1 "hi" ++ serverFrame 1 "yo")]
    initialLoopState
  = receiveLoopFrom true []
      (afterRead initialLoopState (serverFrame 1 "hi" ++ serverFrame 1 "yo")
         [EvHandleMessage "hi"]).
Proof.
  apply (frames_after_the_first_are_dropped true someMask "hi" (serverFrame 1 "yo") []
           initialLoopState).
  vm_compute. discriminate.
Defined.

(** X27.  A close frame ends the loop at once: nothing is written back (no
    close frame is returned to the server), the reads that would follow are
    not made, and the connection callback, if any, is told false. *)
Theorem close_frame_ends_the_loop (hasConnectionCallback : bool) (rnd : MaskDraw)
    (payload : string) (rest : list Z) (its : list Iteration) (st : LoopState) :
  Z.of_nat (length (serverFrame 8 payload ++ rest)) <= BUFFER_SIZE ->
  receiveLoopFrom hasConnectionCallback
    (readOf rnd (serverFrame 8 payload ++ rest) :: its) st
  = LoopFinished
      (loopExit hasConnectionCallback
         (afterRead st (serverFrame 8 payload ++ rest) [])).
Proof.
  intros Hfit. cbn [receiveLoopFrom].
  rewrite (loopIteration_server_frame 8 payload rest rnd st); [reflexivity|lia|exact Hfit].
Qed.

Lemma close_frame_ends_the_loop_witness :
  receiveLoopFrom true
    [readOf someMask (serverFrame 8 "" ++ []); readOf someMask (serverFrame 1 "hi")]
    initialLoopState
  = LoopFinished (loopExit true (afterRead initialLoopState (serverFrame 8 "" ++ []) [])).
Proof.
  apply (close_frame_ends_the_loop true someMask "" []
           [readOf someMask (serverFrame 1 "hi")] initialLoopState).
  vm_compute. discriminate.
Defined.

(** X28.  The loop never reads past the end of its buffer for a frame
    whose announced length, with its header, stays below 2^31: either the
    frame is whole within the bytes read, or the iteration is given up. *)
Theorem parseFrame_stays_in_buffer (buffer : list Z) (bytesRead : Z) (rnd : MaskDraw) :
  bytesRead <= BUFFER_SIZE ->
  match frameHeader buffer bytesRead with
  | Some (payloadLen, maskOffset) => 0 <= payloadLen /\ 0 <= maskOffset
                                     /\ maskOffset + 4 + payloadLen < 2 ^ 31
  | None => True
  end ->
  faults (parseFrame buffer bytesRead rnd) = false.
Proof.
  intros Hread. unfold parseFrame.
  destruct (bytesRead <? 2); [reflexivity|].
  destruct (frameHeader buffer bytesRead) as [[payloadLen maskOffset]|]; [|reflexivity].
  intros (Hlen & Hoff & Hsum).
  set (headerLen := if negb _ then _ else _).
  assert (Hh : maskOffset <= headerLen <= maskOffset + 4)
    by (subst headerLen; destruct (negb _); lia).
  assert (Hint : to_int (to_uint64 (headerLen + payloadLen)) = headerLen + payloadLen).
  { unfold to_int, to_uint64.
    change (2 ^ 31) with 2147483648 in *. change (2 ^ 32) with 4294967296.
    change (2 ^ 64) with 18446744073709551616.
    rewrite (Z.mod_small (headerLen + payloadLen)) by lia.
    rewrite Z.mod_small; lia. }
  rewrite Hint.
  destruct (Z.ltb_spec bytesRead (headerLen + payloadLen)); [reflexivity|].
  replace (BUFFER_SIZE <? headerLen + payloadLen) with false
    by (symmetry; apply Z.ltb_ge; lia).
  rewrite andb_false_r.
  destruct (_ =? 1); [reflexivity|]. destruct (_ =? 8); [reflexivity|].
  destruct (_ =? 9); reflexivity.
Qed.

Lemma parseFrame_stays_in_buffer_witness :
  faults (parseFrame hiFrame 4 someMask) = false.
Proof.
  apply (parseFrame_stays_in_buffer hiFrame 4 someMask).
  - vm_compute. discriminate.
  - vm_compute. repeat split; discriminate.
Defined.
End Receive3.
Section Loopback.
Import Incoming Arrivals Samples.
Local Open Scope Z_scope.

Lemma nth_after (pre l : list Z) (k : nat) :
  nth (length pre + k) (pre ++ l) 0 = nth k l 0.
Proof. rewrite app_nth2 by lia. f_equal. lia. Qed.

Lemma nth_skip3 (a b c l : list Z) :
  nth (length a + length b + length c) (a ++ b ++ c ++ l) 0 = nth 0 l 0.
Proof.
  rewrite !app_assoc.
  replace (length a + length b + length c)%nat with (length ((a ++ b) ++ c) + 0)%nat
    by (rewrite !length_app; lia).
  apply nth_after.
Qed.

Lemma mask_at_in_buffer (hdr rest : list Z) (rnd : MaskDraw) (i : nat) :
  byteAt (hdr ++ mask_bytes rnd ++ rest) (length hdr + i mod 4) = mask_at rnd i.
Proof.
  unfold byteAt, mask_at. rewrite nth_after.
  assert (Hi : (i mod 4 < 4)%nat) by (apply Nat.mod_upper_bound; lia).
  destruct (i mod 4)%nat as [|[|[|[|k]]]]; try reflexivity. lia.
Qed.

(** The copy loop undoes the mask that [sendWebSocketFrame] applied. *)
Lemma readPayload_masked (hdr tail : list Z) (rnd : MaskDraw) :
  forall (payload : string) (pre : list Z),
    readPayload (hdr ++ mask_bytes rnd ++ pre
                   ++ maskedPayload rnd (length pre) payload ++ tail)
                (length hdr + 4) (length hdr) true (String.length payload) (length pre)
    = payload.
Proof.
  induction payload as [|c payload IH]; intros pre; [reflexivity|].
  cbn [String.length readPayload maskedPayload].
  rewrite mask_at_in_buffer.
  replace (byteAt _ (length hdr + 4 + length pre))
    with (Z.lxor (byte_of_char c) (mask_at rnd (length pre))).
  2:{ unfold byteAt. change 4%nat with (length (mask_bytes rnd)).
      now rewrite nth_skip3. }
  rewrite lxor_twice, char_of_byte_of_char. f_equal.
  specialize (IH (pre ++ [Z.lxor (byte_of_char c) (mask_at rnd (length pre))])).
  rewrite length_app in IH. cbn [length] in IH. rewrite Nat.add_1_r in IH.
  rewrite <- (app_assoc pre) in IH. cbn [app] in IH. cbn [app]. exact IH.
Qed.

Lemma masked_short_length (len : Z) :
  0 <= len <= 125 ->
  Z.land (128 + len) 0x80 = 128 /\ Z.land (128 + len) 0x7F = len.
Proof.
  intros Hlen.
  pose proof (below_126 (fun l => (Z.land (128 + l) 0x80 =? 128)
                                  && (Z.land (128 + l) 0x7F =? l))
                ltac:(vm_compute; reflexivity) len Hlen) as H.
  apply andb_prop in H as [H1 H2]. apply Z.eqb_eq in H1, H2. auto.
Qed.

(** X29.  The loop reads back what [sendWebSocketFrame] writes: a masked
    text frame that fits the buffer is unmasked and its payload is handed
    to [handleMessage] unchanged, whatever masking key was drawn. *)
Theorem receiveLoop_reads_own_frames (rnd rnd' : MaskDraw) (payload : string)
    (tail : list Z) (bytesRead : Z) :
  Z.of_nat (length (webSocketFrame rnd payload)) <= bytesRead <= BUFFER_SIZE ->
  parseFrame (webSocketFrame rnd payload ++ tail) bytesRead rnd'
  = FrameContinue [EvHandleMessage payload].
Proof.
  unfold webSocketFrame, lengthBytes, BUFFER_SIZE.
  assert (Hnn : 0 <= string_length payload) by (unfold string_length; lia).
  assert (Hmask : length (mask_bytes rnd) = 4%nat) by reflexivity.
  destruct (Z.leb_spec (string_length payload) 125) as [Hs|Hs].
  - intros Hfit. cbn [app length] in Hfit.
    rewrite !Nat2Z.inj_succ, length_app, Hmask, length_maskedPayload in Hfit.
    destruct (short_length_byte _ (conj Hnn Hs)) as (Hb & _ & _).
    destruct (masked_short_length _ (conj Hnn Hs)) as [Hm Hl].
    rewrite Hb. cbn [app].
    unfold parseFrame, frameHeader, BUFFER_SIZE. rewrite !byteAt_0, !byteAt_1.
    destruct (Z.ltb_spec bytesRead 2); [unfold string_length in *; lia|].
    rewrite Hm, Hl. change (128 =? 0) with false. cbn [negb].
    destruct (Z.eqb_spec (string_length payload) 126); [lia|].
    destruct (Z.eqb_spec (string_length payload) 127); [lia|].
    unfold string_length in *.
    rewrite to_int_small by lia.
    destruct (Z.ltb_spec bytesRead (2 + 4 + Z.of_nat (String.length payload))); [lia|].
    destruct (Z.ltb_spec 16384 (2 + 4 + Z.of_nat (String.length payload))); [lia|].
    rewrite andb_false_r. change (Z.land 129 15 =? 1) with true. cbv iota.
    rewrite Nat2Z.id.
    set (hdr := [129; 128 + Z.of_nat (String.length payload)]).
    change (Z.to_nat (2 + 4)) with (length hdr + 4)%nat.
    change (Z.to_nat 2) with (length hdr).
    change (129 :: 128 + Z.of_nat (String.length payload)
              :: (mask_bytes rnd ++ maskedPayload rnd 0 payload) ++ tail)
      with (hdr ++ (mask_bytes rnd ++ maskedPayload rnd 0 payload) ++ tail).
    rewrite <- (app_assoc (mask_bytes rnd)).
    pose proof (readPayload_masked hdr tail rnd payload []) as Hp.
    cbn [app length] in Hp. now rewrite Hp.
  - destruct (Z.leb_spec (string_length payload) 65535) as [Hm|Hm].
    + intros Hfit. cbn [app length] in Hfit.
      rewrite !Nat2Z.inj_succ, length_app, Hmask, length_maskedPayload in Hfit.
      cbn [app].
      unfold parseFrame, frameHeader, BUFFER_SIZE.
      rewrite !byteAt_0, !byteAt_1, !byteAt_2, !byteAt_3.
      destruct (Z.ltb_spec bytesRead 2); [unfold string_length in *; lia|].
      change (Z.land (Z.lor 128 126) 128 =? 0) with false.
      change (Z.land (Z.lor 128 126) 127 =? 126) with true.
      cbn [negb]. cbv iota.
      destruct (Z.ltb_spec bytesRead 4); [unfold string_length in *; lia|].
      rewrite byte_of_shift by lia. change 255 with (Z.ones 8).
      rewrite Z.land_ones by lia. change (2 ^ 8) with 256.
      rewrite (Z.mod_small (string_length payload / 256))
        by (split; [apply Z.div_pos; lia|apply Z.div_lt_upper_bound; lia]).
      rewrite lor_shiftl_8
        by (try (apply Z.div_pos; lia); apply Z.mod_pos_bound; lia).
      rewrite (Z.mul_comm _ 256), <- Z.div_mod by lia.
      unfold string_length in *.
      rewrite to_int_small by lia.
      destruct (Z.ltb_spec bytesRead (4 + 4 + Z.of_nat (String.length payload))); [lia|].
      destruct (Z.ltb_spec 16384 (4 + 4 + Z.of_nat (String.length payload))); [lia|].
      rewrite andb_false_r. change (Z.land 129 15 =? 1) with true. cbv iota.
      rewrite Nat2Z.id.
      set (hi := Z.of_nat (String.length payload) / 256).
      set (lo := Z.of_nat (String.length payload) mod 256).
      set (hdr := [129; Z.lor 128 126; hi; lo]).
      change (Z.to_nat (4 + 4)) with (length hdr + 4)%nat.
      change (Z.to_nat 4) with (length hdr).
      change (129 :: Z.lor 128 126 :: hi :: lo
                :: (mask_bytes rnd ++ maskedPayload rnd 0 payload) ++ tail)
        with (hdr ++ (mask_bytes rnd ++ maskedPayload rnd 0 payload) ++ tail).
      rewrite <- (app_assoc (mask_bytes rnd)).
      pose proof (readPayload_masked hdr tail rnd payload []) as Hp.
    cbn [app length] in Hp. now rewrite Hp.
    + intros Hfit. cbn [app length] in Hfit.
      rewrite !Nat2Z.inj_succ, !length_app, !Nat2Z.inj_add, length_maskedPayload in Hfit.
      unfold string_length in *. lia.
Qed.

Lemma receiveLoop_reads_own_frames_witness :
  parseFrame (webSocketFrame someMask "hi" ++ []) 8 someMask
  = FrameContinue [EvHandleMessage "hi"].
Proof.
  apply (receiveLoop_reads_own_frames someMask someMask "hi" [] 8).
  vm_compute. split; discriminate.
Defined.
End Loopback.
